(** * PICA helper scripts: a shallow embedding and its verified properties

    The repository holds four independent Python scripts built on pandas,
    numpy and seaborn:

    - [dev/BIOS/preprocess_scripts/filter_gte_file.py]      (module [FilterGte])
    - [dev/BIOS/preprocess_scripts/prepare_bios_eqtl_file.py] (module [PrepareEqtl])
    - [dev/plot_scripts/overview_lineplot.py]               (module [OverviewLineplot])
    - [src/visualiser.py]                                   (module [Visualiser])

    Tables are modelled by the module [Frame]: a data frame is a list of
    column names and a list of labelled rows.  Every pandas call the scripts
    make is a function of [Frame]; a Python exception ([KeyError],
    [ValueError], [IndexError]) is the result [None].  Integers are numpy
    [int64] values, kept as [Z] with the wrap-around written out.  Floats
    are carried around but never computed with: an operation whose result
    would depend on floating point, or on the version of pandas, fails in
    the model, so that a run the model completes is a run of the script.
    What a script does to the outside (files written, figures drawn, text
    printed) is a log of effects, module [Script]. *)

From Stdlib Require Import ZArith Lia Ascii.
From stdpp Require Import base option list strings pretty sorting gmap.

Open Scope string_scope.
Open Scope list_scope.
Open Scope Z_scope.

(** ** Cells *)

(** The content of one cell of a table: a string (object dtype), an integer
    (int64 dtype), a float64 given by its bit pattern, or a missing value.
    The scripts never compute on floats in a way the properties below depend
    on, so no floating-point operation is defined on [CFloat]. *)
Inductive cell : Type :=
  | CStr (s : string)
  | CInt (z : Z)
  | CFloat (bits : Z)
  | CNull.

#[global] Instance cell_eq_dec : EqDecision cell.
Proof. solve_decision. Defined.

#[global] Instance cell_countable : Countable cell.
Proof.
  refine (inj_countable'
            (λ c, match c with
                  | CStr s => inl s
                  | CInt z => inr (inl z)
                  | CFloat b => inr (inr (inl b))
                  | CNull => inr (inr (inr ()))
                  end)
            (λ x, match x with
                  | inl s => CStr s
                  | inr (inl z) => CInt z
                  | inr (inr (inl b)) => CFloat b
                  | inr (inr (inr _)) => CNull
                  end) _).
  by intros [].
Defined.

(** ** numpy int64 arithmetic *)

Module Int64.

Definition modulus : Z := 2 ^ 64.
Definition half_modulus : Z := 2 ^ 63.

(** The value a Python integer takes once stored in an int64 slot. *)
Definition wrap (z : Z) : Z := (z + half_modulus) mod modulus - half_modulus.

Definition add (a b : Z) : Z := wrap (a + b).
Definition mul (a b : Z) : Z := wrap (a * b).

(** [numpy.sum] over a one-dimensional int64 array. *)
Definition sum (l : list Z) : Z := foldr add 0 l.

(** [numpy.dot] of two one-dimensional int64 arrays of equal length. *)
Fixpoint dot (u v : list Z) : Z :=
  match u, v with
  | a :: u', b :: v' => add (mul a b) (dot u' v')
  | _, _ => 0
  end.

End Int64.

(** ** Data frames *)

Module Frame.

(** A parsed tab-separated file: the header line and the data lines. *)
Record tsv : Type := mkTsv {
  header : list string;
  records : list (list cell)
}.

(** A pandas [DataFrame]: [columns] are the column names, and each row holds
    its index label and its cells, one per column. *)
Record DataFrame : Type := mkDF {
  columns : list string;
  rows : list (cell * list cell)
}.

(** [df.index] *)
Definition index (df : DataFrame) : list cell := fst <$> rows df.

(** [df.values] *)
Definition values (df : DataFrame) : list (list cell) := snd <$> rows df.

(** [df.shape[0]] *)
Definition nrows (df : DataFrame) : nat := length (rows df).

(** [pd.RangeIndex(n)] *)
Definition range_index (n : nat) : list cell :=
  (λ i, CInt (Z.of_nat i)) <$> seq 0 n.

(** A data line shorter than the header is filled with missing values. *)
Definition pad (n : nat) (r : list cell) : list cell :=
  r ++ replicate (n - length r) CNull.

(** [pd.read_csv(inpath, sep=tab, header=0, index_col=index_col)] on the
    parsed content of the file.  A data line with more fields than the
    header is a parse error.  With [index_col=None] the rows are labelled
    [0, 1, ...]; with [index_col=k] column [k] becomes the index. *)
Definition read_csv (f : tsv) (index_col : option nat) : option DataFrame :=
  let w := length (header f) in
  if forallb (λ r, bool_decide (length r ≤ w)%nat) (records f) then
    let body := pad w <$> records f in
    match index_col with
    | None => Some (mkDF (header f) (zip (range_index (length body)) body))
    | Some k =>
        if decide (k < w)%nat then
          Some (mkDF (delete k (header f))
                     ((λ r, (default CNull (r !! k), delete k r)) <$> body))
        else None
    end
  else None.

(** Position of a column name in a list of names. *)
Definition position (name : string) (names : list string) : option nat :=
  fst <$> list_find (λ c, c = name) names.

(** [df[name]]: the cells of one column, top to bottom. *)
Definition get_column (name : string) (df : DataFrame) : option (list cell) :=
  p ← position name (columns df);
  mapM (λ r : cell * list cell, r.2 !! p) (rows df).

(** [l[mask]] for a boolean list [mask] of the length of [l]. *)
Fixpoint select {A : Type} (mask : list bool) (l : list A) : list A :=
  match mask, l with
  | b :: mask', x :: l' => if b then x :: select mask' l' else select mask' l'
  | _, _ => []
  end.

(** [df.loc[mask, :]] with a boolean list: the rows at the [True]
    positions, labels and cells unchanged. *)
Definition loc_rows (mask : list bool) (df : DataFrame) : option DataFrame :=
  if decide (length mask = length (rows df)) then
    Some (mkDF (columns df) (select mask (rows df)))
  else None.

(** [df.loc[:, names]]: the named columns in the order asked for. *)
Definition loc_cols (names : list string) (df : DataFrame) : option DataFrame :=
  ps ← mapM (λ n, position n (columns df)) names;
  body ← mapM (λ r : cell * list cell,
                 cs ← mapM (λ p, r.2 !! p) ps; Some (r.1, cs)) (rows df);
  Some (mkDF names body).

(** [df.columns = names] *)
Definition set_columns (names : list string) (df : DataFrame) : option DataFrame :=
  if decide (length names = length (columns df)) then
    Some (mkDF names (rows df))
  else None.

(** [df.insert(loc, name, value)] with a scalar [value]. *)
Definition insert (loc : nat) (name : string) (value : cell) (df : DataFrame)
  : option DataFrame :=
  if decide (name ∈ columns df) then None
  else if decide (loc ≤ length (columns df))%nat then
    Some (mkDF (take loc (columns df) ++ name :: drop loc (columns df))
               ((λ r : cell * list cell,
                   (r.1, take loc r.2 ++ value :: drop loc r.2)) <$> rows df))
  else None.

(** [df[name] = vals] with one value per row: an existing column is
    overwritten in place, a new one is appended on the right. *)
Definition set_column (name : string) (vals : list cell) (df : DataFrame)
  : option DataFrame :=
  if decide (length vals = length (rows df)) then
    match position name (columns df) with
    | Some p =>
        Some (mkDF (columns df)
                   (zip_with (λ (r : cell * list cell) v, (r.1, <[p:=v]> r.2))
                             (rows df) vals))
    | None =>
        Some (mkDF (columns df ++ [name])
                   (zip_with (λ (r : cell * list cell) v, (r.1, r.2 ++ [v]))
                             (rows df) vals))
    end
  else None.

(** [df.to_csv(outpath, sep=tab, index=index, header=header)]: the fields
    of the lines written, top to bottom. *)
Definition to_csv (df : DataFrame) (header index : bool) : list (list cell) :=
  (if header
   then [(if index then [CStr EmptyString] else []) ++ (CStr <$> columns df)]
   else [])
  ++ ((λ r : cell * list cell, if index then r.1 :: r.2 else r.2) <$> rows df).

(** A file written by one of the scripts. *)
Record saved : Type := mkSaved {
  s_outpath : string;
  s_compression : string;
  s_df : DataFrame;
  s_header : bool;
  s_index : bool
}.

Definition content (f : saved) : list (list cell) :=
  to_csv (s_df f) (s_header f) (s_index f).

(** [str.endswith] *)
Definition endswith (s suffix : string) : bool :=
  bool_decide (String.length suffix ≤ String.length s)%nat
  && String.eqb (String.substring (String.length s - String.length suffix)
                           (String.length suffix) s) suffix.

(** [os.path.join(a, b)] on POSIX paths. *)
Definition path_join (a b : string) : string :=
  if String.prefix "/" b then b
  else if String.eqb a EmptyString || endswith a "/" then a +:+ b
  else a +:+ "/" +:+ b.

End Frame.

(** ** Scripts: a log of effects and failure *)

(** A script run appends the effects it performs (files written, figures
    drawn) to a log and either goes on with a value or stops on a Python
    exception; what was logged before the exception stays logged. *)
Module Script.

Definition script (E A : Type) : Type := list E → list E * option A.

#[global] Instance script_ret {E} : MRet (script E) :=
  λ A x log, (log, Some x).

#[global] Instance script_bind {E} : MBind (script E) :=
  λ A B k m log,
    match m log with
    | (log', Some x) => k x log'
    | (log', None) => (log', None)
    end.

(** A pure step that may raise. *)
Definition lift {E A} (o : option A) : script E A := λ log, (log, o).

(** One effect. *)
Definition emit {E} (e : E) : script E () := λ log, (log ++ [e], Some ()).

(** A whole run, from an empty log. *)
Definition run {E A} (m : script E A) : list E * option A := m [].

End Script.

(** ** filter_gte_file.py *)

Module FilterGte.
Import Frame Script.

(** What a path given on the command line holds: a pickled data frame or a
    tab-separated text file. *)
Inductive file : Type :=
  | Pickle (df : DataFrame)
  | Text (t : tsv).

Record input : Type := mkInput {
  inpath : string;
  data : file
}.

(** [main.__init__]: the output directory, below the script's grandparent
    directory [base]. *)
Definition init_outdir (base outdir : string) : string :=
  path_join (path_join base "filter_gte_file") outdir.

(** [main.load_file] *)
Definition load_file (inp : input) (index_col : option nat) : option DataFrame :=
  if endswith (inpath inp) ".pkl" then
    match data inp with
    | Pickle df => Some df
    | Text _ => None
    end
  else
    match data inp with
    | Text t => read_csv t index_col
    | Pickle _ => None
    end.

(** [main.save_file] *)
Definition save_file (df : DataFrame) (outpath : string) (header index : bool)
  : script saved () :=
  let compression := if endswith outpath ".gz" then "gzip" else "infer" in
  emit (mkSaved outpath compression df header index).

(** Lines 119-121 of [main.start]: the rows whose [rnaseq_id] is not in the
    exclusion table. *)
Definition remove_samples (gte_df se_df : DataFrame) : option DataFrame :=
  excluded ← get_column "rnaseq_id" se_df;
  let remove_rnaseq_ids : gset cell := list_to_set excluded in
  samples ← get_column "rnaseq_id" gte_df;
  let mask :=
    (λ sample, if decide (sample ∈ remove_rnaseq_ids) then false else true)
      <$> samples in
  loc_rows mask gte_df.

(** Lines 131-132: the sample-to-dataset table. *)
Definition sample_to_dataset (subset_gte_df : DataFrame) : option DataFrame :=
  std_df ← loc_cols ["rnaseq_id"; "dataset"] subset_gte_df;
  set_columns ["sample"; "dataset"] std_df.

(** Lines 136-137: the family-to-genotype table. *)
Definition family_to_genotype (subset_gte_df : DataFrame) : option DataFrame :=
  gte_fid_df ← loc_cols ["genotype_id"] subset_gte_df;
  insert 0 "family_id" (CInt 0) gte_fid_df.

(** [main.start].  The path of the GTE table is optional on the command
    line; without it [load_file] fails on [None]. *)
Definition start (gte_path : option input) (e_gte_path : input)
    (outdir : string) : script saved () :=
  gte_in ← lift gte_path;
  gte_df ← lift (load_file gte_in None);
  se_df ← lift (load_file e_gte_path None);
  _ ← lift (get_column "dataset" se_df);
  subset_gte_df ← lift (remove_samples gte_df se_df);
  _ ← save_file subset_gte_df
        (path_join outdir "GenotypeToExpression.txt.gz") true false;
  std_df ← lift (sample_to_dataset subset_gte_df);
  _ ← save_file std_df
        (path_join outdir "SampleToDataset.txt.gz") true false;
  gte_fid_df ← lift (family_to_genotype subset_gte_df);
  save_file gte_fid_df
        (path_join outdir "FamilyToGenotype.txt") false false.

End FilterGte.

(** ** prepare_bios_eqtl_file.py *)

Module PrepareEqtl.
Import Frame Script.

(** [main.__init__] *)
Definition init_outdir (base : string) : string :=
  path_join base "prepare_bios_eqtl_file_test".

Definition dataset_order : list string :=
  ["RS"; "LL"; "LLS_660Q"; "NTR_AFFY"; "LLS_OmniExpr"; "CODAM"; "PAN";
   "NTR_GONL"; "GONL"].

Definition dataset_sizes : list Z :=
  [765; 733; 400; 341; 255; 184; 169; 138; 74].

(** [main.load_file] *)
Definition load_file (t : tsv) (index_col : option nat) : option DataFrame :=
  read_csv t index_col.

(** [main.save_file] *)
Definition save_file (df : DataFrame) (outpath : string) (header index : bool)
  : script saved () :=
  let compression := if endswith outpath ".gz" then "gzip" else "infer" in
  emit (mkSaved outpath compression df header index).

Definition trans_dict : gmap string string :=
  <["SNP" := "SNPName"]> (<["Gene" := "ProbeName"]> ∅).

(** Line 111: [trans_dict[x] if x in trans_dict else x]. *)
Definition translate (x : string) : string :=
  match trans_dict !! x with
  | Some y => y
  | None => x
  end.

Definition rename_columns (eqtl_df : DataFrame) : option DataFrame :=
  set_columns (translate <$> columns eqtl_df) eqtl_df.

(** The integer held by an int64 cell; anything else is outside the integer
    arithmetic of this script. *)
Definition as_int (c : cell) : option Z :=
  match c with
  | CInt z => Some z
  | _ => None
  end.

(** [df.to_numpy()] on a frame of int64 columns. *)
Definition to_numpy (df : DataFrame) : option (list (list Z)) :=
  mapM (λ r : cell * list cell, mapM as_int r.2) (rows df).

(** [df.sum(axis=1)] on a frame of int64 columns. *)
Definition sum_axis1 (df : DataFrame) : option (list cell) :=
  m ← to_numpy df;
  Some ((λ r : list Z, CInt (Int64.sum r)) <$> (m : list (list Z))).

(** [np.dot(m, v)] for a matrix [m] and a vector [v]. *)
Definition np_dot (m : list (list Z)) (v : list Z) : option (list Z) :=
  if forallb (λ r, bool_decide (length r = length v)) m then
    Some ((λ r, Int64.dot r v) <$> m)
  else None.

(** Lines 113-115: the two count columns of the SNP table. *)
Definition count_datasets (snps_df : DataFrame) : option DataFrame :=
  n_datasets ← sum_axis1 snps_df;
  snps_df ← set_column "N datasets" n_datasets snps_df;
  presence ← loc_cols dataset_order snps_df;
  m ← to_numpy presence;
  n_samples ← np_dot m dataset_sizes;
  set_column "N samples" (CInt <$> n_samples) snps_df.

(** The rows a left join makes of the row [r] of the left table, whose key
    is [k]: one per row of [right] labelled [k], in the order of [right], or
    one filled with missing values when there is none. *)
Definition join_row (right : DataFrame) (r : cell * list cell) (k : cell)
  : list (cell * list cell) :=
  match filter (λ s : cell * list cell, s.1 = k) (rows right) with
  | [] => [(r.1, r.2 ++ replicate (length (columns right)) CNull)]
  | ms => (λ s : cell * list cell, (r.1, r.2 ++ s.2)) <$> ms
  end.

(** [left.merge(right, left_on=left_on, right_index=True, how="left")]:
    every row of [left], in order, joined with the rows of [right] whose
    index label equals the row's [left_on] cell.  The result keeps the index
    labels of [left]; a column name that occurs on both sides gets the
    suffix [_x] or [_y]. *)
Definition merge (left : DataFrame) (left_on : string) (right : DataFrame)
  : option DataFrame :=
  keys ← get_column left_on left;
  let lcols :=
    (λ c, if decide (c ∈ columns right) then c +:+ "_x" else c)
      <$> columns left in
  let rcols :=
    (λ c, if decide (c ∈ columns left) then c +:+ "_y" else c)
      <$> columns right in
  Some (mkDF (lcols ++ rcols)
             (mjoin (zip_with (join_row right) (rows left) keys))).

(** Lines 131-133: the joined table with its [index] column. *)
Definition join (eqtl_df snps_df : DataFrame) : option DataFrame :=
  top_eqtl_df ← merge eqtl_df "SNPName" snps_df;
  set_column "index" (index top_eqtl_df) top_eqtl_df.

(** [main.start] *)
Definition start (eqtl_path snps_path : tsv) (outdir : string)
  : script saved () :=
  eqtl_df ← lift (load_file eqtl_path None);
  snps_df ← lift (load_file snps_path (Some 0%nat));
  eqtl_df ← lift (rename_columns eqtl_df);
  snps_df ← lift (count_datasets snps_df);
  top_eqtl_df ← lift (join eqtl_df snps_df);
  save_file top_eqtl_df
    (path_join outdir "BIOS_eQTLProbesFDR0.05-ProbeLevel.txt.gz") true false.

End PrepareEqtl.

(** ** overview_lineplot.py *)

Module OverviewLineplot.
Import Frame Script.

(** [main.__init__] *)
Definition init_outdir (base : string) : string := path_join base "plot".

(** [self.palette], in insertion order. *)
Definition palette : list (string * string) :=
  [("Neuron", "#0072B2"); ("Oligodendrocyte", "#009E73");
   ("EndothelialCell", "#CC79A7"); ("Macrophage", "#E69F00");
   ("Astrocyte", "#D55E00"); ("PCT_INTRONIC_BASES", "#000000");
   ("comp0", "#0072B2"); ("comp1", "#009E73"); ("comp2", "#CC79A7");
   ("comp3", "#E69F00"); ("comp4", "#D55E00");
   ("PIC1", "#0072B2"); ("PIC2", "#009E73"); ("PIC3", "#CC79A7");
   ("PIC4", "#E69F00"); ("PIC5", "#D55E00"); ("PIC6", "#56B4E9")].

(** A legend entry: the colour, the key and the covariate recorded for the
    key in [info], when there is one. *)
Record handle : Type := mkHandle {
  h_color : string;
  h_key : string;
  h_info : option (list cell)
}.

(** One figure drawn by [sns.lineplot] and written by [fig.savefig]. *)
Record figure : Type := mkFigure {
  f_data : DataFrame;
  f_x : string;
  f_y : string;
  f_hue : string;
  f_title : string;
  f_xlabel : string;
  f_ylabel : string;
  f_legend : option (list handle);
  f_outpath : string
}.

(** [main.load_file] *)
Definition load_file (t : tsv) (index_col : option nat) : option DataFrame :=
  read_csv t index_col.

(** [str.replace(old, new)] for single characters. *)
Fixpoint replace (old new : ascii) (s : string) : string :=
  match s with
  | EmptyString => EmptyString
  | String c t => String (if Ascii.eqb c old then new else c) (replace old new t)
  end.

(** [str.lower()] on the ASCII letters; other bytes are left as they are. *)
Definition lower_ascii (c : ascii) : ascii :=
  let n := nat_of_ascii c in
  if (65 <=? n)%nat && (n <=? 90)%nat then ascii_of_nat (n + 32) else c.

Fixpoint lower (s : string) : string :=
  match s with
  | EmptyString => EmptyString
  | String c t => String (lower_ascii c) (lower t)
  end.

(** [needle in hay] for two strings. *)
Fixpoint contains (needle hay : string) : bool :=
  String.prefix needle hay
  || match hay with
     | EmptyString => false
     | String _ t => contains needle t
     end.

(** [Series.unique()]: the distinct values in order of first appearance. *)
Definition unique {A} `{EqDecision A} (l : list A) : list A :=
  reverse (remove_dups (reverse l)).

(** The string held by a cell; a method of [str] called on anything else
    raises. *)
Definition as_str (c : cell) : option string :=
  match c with
  | CStr s => Some s
  | _ => None
  end.

(** [df.loc[label, name]]: the cells of column [name] in the rows labelled
    [label]; one cell when the label is unique. *)
Definition loc_cell (label : cell) (name : string) (df : DataFrame)
  : option (list cell) :=
  col ← get_column name df;
  match select ((λ l, bool_decide (l = label)) <$> index df) col with
  | [] => None
  | cs => Some cs
  end.

(** [df[name] = value] with a scalar. *)
Definition set_scalar (name : string) (value : cell) (df : DataFrame)
  : option DataFrame :=
  set_column name (replicate (nrows df) value) df.

(** [np.arange(1, n + 1)] *)
Definition arange1 (n : nat) : list cell :=
  (λ i, CInt (Z.of_nat i)) <$> seq 1 n.

(** [df.melt(id_vars=id_vars)]: one row per row of [df] and column outside
    [id_vars], column by column. *)
Definition melt (id_vars : list string) (df : DataFrame) : option DataFrame :=
  ids ← loc_cols id_vars df;
  let value_vars := filter (λ c, c ∉ id_vars) (columns df) in
  body ← mapM (λ v,
                 col ← get_column v df;
                 Some (zip_with (λ (r : cell * list cell) c, r.2 ++ [CStr v; c])
                                (rows ids) col)) value_vars;
  let long := mjoin body in
  Some (mkDF (id_vars ++ ["variable"; "value"])
             (zip (range_index (length long)) long)).

(** [pd.concat(dfs, axis=0)] of frames with the same columns, as [melt]
    with fixed [id_vars] builds them.  No frame at all is a [ValueError];
    frames that differ in their columns are not needed here and are left
    out of the model. *)
Definition concat (dfs : list DataFrame) : option DataFrame :=
  match dfs with
  | [] => None
  | df :: _ =>
      if forallb (λ d, bool_decide (columns d = columns df)) dfs then
        Some (mkDF (columns df) (mjoin (rows <$> dfs)))
      else None
  end.

Section Start.

(** [np.log10] on one cell; it is numpy's, and fails on a cell that is not
    a number. *)
Variable log10 : cell → option cell.

(** [main.lineplot].  [sns.lineplot] raises a [ValueError] when the palette
    is a dictionary that lacks one of the values of the [hue] column. *)
Definition lineplot (df_m : DataFrame) (x y hue : string)
    (palette : option (list (string * string))) (title xlabel ylabel : string)
    (filename : string) (info : option (gmap string (list cell)))
    (outdir : option string) : script figure () :=
  _ ← lift (get_column x df_m);
  _ ← lift (get_column y df_m);
  hues ← lift (get_column hue df_m);
  _ ← lift (match palette with
            | Some pal =>
                if forallb (λ h, bool_decide (h ∈ (CStr <$> pal.*1))) hues
                then Some () else None
            | None => Some ()
            end);
  let legend :=
    (λ pal : list (string * string),
       omap (λ kc : string * string,
               if decide (CStr kc.1 ∈ hues) then
                 Some (mkHandle kc.2 kc.1 (info ≫= (λ d, d !! kc.1)))
               else None) pal) <$> palette in
  let outpath := filename +:+ ".png" in
  let outpath := match outdir with
                 | Some d => path_join d outpath
                 | None => outpath
                 end in
  emit (mkFigure df_m x y hue title xlabel ylabel legend outpath).

(** The body of the first loop of [main.start] for component [i]. *)
Definition load_component (indir_file : nat → option tsv) (i : nat)
    (st : gmap string (list cell) * list DataFrame)
  : option (gmap string (list cell) * list DataFrame) :=
  match indir_file i with
  | None => Some st
  | Some t =>
      df ← load_file t (Some 0%nat);
      covariate ← loc_cell (CStr "iteration0") "covariate" df;
      df ← set_column "index" (arange1 (nrows df)) df;
      df ← set_scalar "component" (CStr ("PIC" +:+ pretty i)) df;
      df_m ← melt ["index"; "covariate"; "component"] df;
      Some (<["PIC" +:+ pretty i := covariate]> st.1, st.2 ++ [df_m])
  end.

(** The body of the plotting loop of [main.start] for one variable. *)
Definition plot_variable (df_m : DataFrame) (info : gmap string (list cell))
    (outdir : string) (variable : cell) : script figure () :=
  variables ← lift (get_column "variable" df_m);
  subset_m ← lift (loc_rows ((λ v, bool_decide (v = variable)) <$> variables)
                            df_m);
  subset_m ← lift (if decide (variable = CStr "Overlap %") then
                     idx ← get_column "index" subset_m;
                     loc_rows ((λ i, bool_decide (i ≠ CInt 1)) <$> idx)
                              subset_m
                   else Some subset_m);
  name ← lift (as_str variable);
  _ ← lineplot subset_m "index" "value" "component" (Some palette)
        EmptyString "iteration" name
        (lower (replace " "%char "_"%char name)) (Some info) (Some outdir);
  if contains "Likelihood" name then
    lineplot subset_m "index" "log10 value" "component" (Some palette)
      EmptyString "iteration" ("log10 " +:+ name)
      ("log10_" +:+ lower (replace " "%char "_"%char name)) (Some info) (Some outdir)
  else mret ().

(** Lines 131-132: the long-form table of all components. *)
Definition merge_data (df_m_list : list DataFrame) : option DataFrame :=
  df_m ← concat df_m_list;
  values ← get_column "value" df_m;
  logs ← mapM log10 values;
  set_column "log10 value" logs df_m.

(** [for x in xs: body(x)] *)
Fixpoint for_each {E A} (body : A → script E ()) (xs : list A) : script E () :=
  match xs with
  | [] => mret ()
  | x :: xs' => _ ← body x; for_each body xs'
  end.

(** [main.start]; [indir_file i] is the content of
    [PIC<i>/info_df.txt.gz] below the input directory, if that file
    exists. *)
Definition start (indir_file : nat → option tsv) (outdir : string)
  : script figure () :=
  loaded ← lift (foldl (λ acc i, acc ≫= load_component indir_file i)
                       (Some (∅, [])) (seq 1 10));
  df_m ← lift (merge_data loaded.2);
  variables ← lift (get_column "variable" df_m);
  for_each (plot_variable df_m loaded.1 outdir) (unique variables).

End Start.

End OverviewLineplot.

(** ** visualiser.py *)

Module Visualiser.
Import Script.

Section Visualiser.

(** numpy's float64, with the operations the module uses.  The three
    helpers of [src.statistics] and scipy's [spearmanr] are not part of this
    repository's sources and are taken as given. *)
Context {R : Type} `{EqDecision R}.
Variable of_Z : Z → R.
Variable mul : R → R → R.
Variable round0 : R → R.
Variable isnan : R → bool.
Variable calc_vertex_xpos : R → R → R.
Variable calc_pearsonr : list R → list R → R.
Variable fit_and_predict : list (list R) → list R → list R.
Variable spearmanr : list R → list R → R.

(** The ieQTL model object handed to [Visualiser.plot]. *)
Record ieqtl_model : Type := mkIeqtl {
  X : list (list R);
  y : list R;
  mask : list bool;
  mll_coef_representation : R * R;
  ieqtl_id : string
}.

(** The right-hand side of an assignment to a column of a matrix. *)
Inductive ndarray : Type :=
  | Scalar (v : R)
  | Array (l : list R).

(** numpy broadcasting of a value to a column of [n] entries. *)
Definition broadcast (n : nat) (v : ndarray) : option (list R) :=
  match v with
  | Scalar a => Some (replicate n a)
  | Array l =>
      if decide (length l = n) then Some l
      else match l with
           | [a] => Some (replicate n a)
           | _ => None
           end
  end.

(** [M[:, j]] *)
Definition column (j : nat) (M : list (list R)) : option (list R) :=
  mapM (λ r : list R, r !! j) M.

(** [M[:, j] = v] *)
Definition set_matrix_column (j : nat) (v : ndarray) (M : list (list R))
  : option (list (list R)) :=
  _ ← column j M;
  vals ← broadcast (length M) v;
  Some (zip_with (λ (r : list R) a, <[j:=a]> r) M vals).

(** [a[mask]] for a boolean array [mask]. *)
Definition mask_select (mask : list bool) (a : list R) : option (list R) :=
  if decide (length mask = length a) then Some (Frame.select mask a) else None.

(** The optimized covariate of lines 54-63, with the [solo_optimized] flag
    and the confidence interval of the second panel. *)
Definition derive_ocf (ieqtl : ieqtl_model) (ocf : option (list R))
  : option (bool * option Z * ndarray) :=
  match ocf with
  | None =>
      let '(coef_a, coef_b) := mll_coef_representation ieqtl in
      Some (true, None, Scalar (calc_vertex_xpos coef_a coef_b))
  | Some a =>
      sel ← mask_select (mask ieqtl) a;
      Some (false, Some 95, Array sel)
  end.

(** Lines 65-68: the design matrix of the optimized fit. *)
Definition build_X_opt (X_start : list (list R)) (ocf : ndarray)
  : option (list (list R)) :=
  X_opt ← set_matrix_column 2 ocf X_start;
  genotype ← column 1 X_opt;
  covariate ← column 2 X_opt;
  set_matrix_column 3 (Array (zip_with mul genotype covariate)) X_opt.

(** Lines 70-74: the explained variance of the optimized fit. *)
Definition r_squared_of (solo_optimized : bool) (X_opt : list (list R))
    (y : list R) : option R :=
  if negb solo_optimized then
    let pearsonr_opt := calc_pearsonr y (fit_and_predict X_opt y) in
    Some (mul pearsonr_opt pearsonr_opt)
  else None.

Record fits : Type := mkFits {
  r_squared_start : R;
  solo_optimized : bool;
  p2_ci : option Z;
  X_opt : list (list R);
  r_squared_opt : option R
}.

(** Lines 46-74 of [Visualiser.plot]. *)
Definition fit (ieqtl : ieqtl_model) (ocf : option (list R)) : option fits :=
  let X_start := X ieqtl in
  let y := y ieqtl in
  let pearsonr_start := calc_pearsonr y (fit_and_predict X_start y) in
  let r_squared_start := mul pearsonr_start pearsonr_start in
  '(solo, ci, ocf) ← derive_ocf ieqtl ocf;
  X_opt ← build_X_opt X_start ocf;
  Some (mkFits r_squared_start solo ci X_opt (r_squared_of solo X_opt y)).

(** A data frame of floats, column by column. *)
Definition frame : Type := list (string * list R).

(** [df[name]] *)
Definition get (name : string) (df : frame) : option (list R) :=
  (λ p : nat * (string * list R), p.2.2)
    <$> list_find (λ c : string * list R, c.1 = name) (df : list (string * list R)).

(** [df[name] = vals]; the frames built here have no such column yet. *)
Definition set (name : string) (vals : list R) (n : nat) (df : frame)
  : option frame :=
  if decide (length vals = n) then Some (df ++ [(name, vals)]) else None.

(** Lines 77-81: [pd.DataFrame(M, columns=[...])] with the expression and
    group columns added. *)
Definition plot_frame (M : list (list R)) (y : list R) : option frame :=
  intercept ← column 0 M;
  genotype ← column 1 M;
  covariate ← column 2 M;
  interaction ← column 3 M;
  _ ← (if forallb (λ r : list R, bool_decide (length r = 4%nat)) M
       then Some () else None);
  let df := [("intercept", intercept); ("genotype", genotype);
             ("covariate", covariate); ("interaction", interaction)] in
  df ← set "expression" y (length M) df;
  set "group" (round0 <$> genotype) (length M) df.

(** What a run does to the figure and to the standard output. *)
Inductive axis : Type := Ax1 | Ax2.

Inductive event : Type :=
  | Despine (ax : axis)
  | Regplot (ax : axis) (xs ys : list R) (ci : option Z) (color : string)
  | AnnotateGroup (ax : axis) (group_id : R) (coef : option R) (n : nat)
      (ypos : string) (color : string)
  | AnnotateRSquared (ax : axis) (rsquared : R)
  | AnnotateFdr (ax : axis) (fdr : R)
  | SetTitle (ax : axis) (title : string)
  | SetYLabel (ax : axis) (label : string)
  | SetXLabel (ax : axis) (label : string)
  | PrintSubset (ys xs : list R)
  | PrintMissing (rows : list (string * list R))
  | Suptitle (title : string)
  | Savefig (outpath : string).

Definition colors : list (R * string) :=
  [(of_Z 0, "#E69F00"); (of_Z 1, "#0072B2"); (of_Z 2, "#D55E00")].

Definition label_pos : list (R * string) :=
  [(of_Z 0, "0.94"); (of_Z 1, "0.90"); (of_Z 2, "0.86")].

(** [d[key]] for a dictionary given by its items. *)
Definition item {V} (d : list (R * V)) (key : R) : option V :=
  (λ p : nat * (R * V), p.2.2) <$> list_find (λ kv : R * V, kv.1 = key) d.

(** [set(a).symmetric_difference(b)] on lists taken as sets. *)
Definition symmetric_difference (a b : list R) : list R :=
  filter (λ v, v ∉ b) (remove_dups a) ++ filter (λ v, v ∉ a) (remove_dups b).

(** [df.loc[member, :]] *)
Definition loc (member : list bool) (df : frame) : frame :=
  (λ c : string * list R, (c.1, Frame.select member c.2)) <$> df.

(** The body of the loop of [inter_plot] for one group. *)
Definition plot_group (ax : axis) (df : frame) (x y : string)
    (groups : list R) (ci : option Z) (group_id : R) : script event () :=
  let member := (λ g, bool_decide (g = group_id)) <$> groups in
  let subset := loc member df in
  let n := length (Frame.select member groups) in
  coef ← (if decide (1 < n)%nat then
            sy ← lift (get y subset);
            sx ← lift (get x subset);
            let coef := spearmanr sy sx in
            _ ← (if isnan coef then
                   _ ← emit (PrintSubset sy sx);
                   ys ← lift (get y df);
                   xs ← lift (get x df);
                   emit (PrintMissing
                           (loc (zip_with (λ a b, isnan a || isnan b) ys xs) df))
                 else mret ());
            color ← lift (item colors group_id);
            _ ← emit (Regplot ax sx sy ci color);
            mret (Some coef)
          else mret None);
  pos ← lift (item label_pos group_id);
  color ← lift (item colors group_id);
  emit (AnnotateGroup ax group_id coef n pos color).

(** [Visualiser.inter_plot] *)
Definition inter_plot (ax : axis) (df : frame) (x y group : string)
    (ci : option Z) (fdr : option R) (xlabel ylabel : string)
    (rsquared : option R) (title : string) : script event () :=
  groups ← lift (get group df);
  let unique_groups := OverviewLineplot.unique groups in
  if decide (0 < length (symmetric_difference unique_groups
                           [of_Z 0; of_Z 1; of_Z 2]))%nat then mret ()
  else
    _ ← emit (Despine ax);
    _ ← OverviewLineplot.for_each (plot_group ax df x y groups ci)
          unique_groups;
    _ ← match rsquared with
        | Some r => emit (AnnotateRSquared ax r)
        | None => mret ()
        end;
    _ ← match fdr with
        | Some f => emit (AnnotateFdr ax f)
        | None => mret ()
        end;
    _ ← emit (SetTitle ax title);
    _ ← emit (SetYLabel ax ylabel);
    emit (SetXLabel ax xlabel).

(** [Visualiser.create_interaction_figure] *)
Definition create_interaction_figure (df1 df2 : frame) (rs1 : R)
    (rs2 : option R) (fdr1 : option R) (p2_ci : option Z) (title : string)
    (outdir : string) (solo_optimized : bool) : script event () :=
  _ ← inter_plot Ax1 df1 "covariate" "expression" "group" (Some 95) fdr1
        "normalised cell fraction" "gene expression" (Some rs1) "start";
  let p2_title := if solo_optimized then "optimized [solo]" else "optimized" in
  let file_appendix := if solo_optimized then "_soloOptimized" else EmptyString in
  _ ← inter_plot Ax2 df2 "covariate" "expression" "group" p2_ci None
        "optimized cell fraction" EmptyString rs2 p2_title;
  _ ← emit (Suptitle title);
  emit (Savefig (Frame.path_join outdir
                   (OverviewLineplot.replace ":"%char "-"%char title
                      +:+ file_appendix +:+ ".png"))).

(** [Visualiser.plot]; [iteration] is the text the caller's value is
    formatted to. *)
Definition plot (ieqtl : ieqtl_model) (out_path : string) (iteration : string)
    (fdr : option R) (ocf : option (list R)) : script event () :=
  let outdir := Frame.path_join out_path "plot" in
  f ← lift (fit ieqtl ocf);
  df1 ← lift (plot_frame (X ieqtl) (y ieqtl));
  df2 ← lift (plot_frame (X_opt f) (y ieqtl));
  create_interaction_figure df1 df2 (r_squared_start f) (r_squared_opt f) fdr
    (p2_ci f) (ieqtl_id ieqtl +:+ ":" +:+ iteration) outdir (solo_optimized f).

End Visualiser.

End Visualiser.

(** * The vocabulary of the properties *)

Section Vocabulary.
Import Frame Script OverviewLineplot.

(** The sum of a list of integers and the dot product of two lists, over the
    unbounded integers. *)
Definition row_sum (l : list Z) : Z := foldr Z.add 0 l.
Definition dot_product (u v : list Z) : Z := row_sum (zip_with Z.mul u v).

(** The cells at position [p] of every row. *)
Definition column_at (p : nat) (body : list (cell * list cell))
  : option (list cell) :=
  mapM (λ r : cell * list cell, r.2 !! p) body.

(** Every row has one cell per column, as in every pandas frame. *)
Definition rectangular (df : DataFrame) : Prop :=
  Forall (λ r : cell * list cell, length r.2 = length (columns df)) (rows df).

(** The cell of column [name] in the row at position [i]. *)
Definition cell_at (name : string) (i : nat) (df : DataFrame) : option cell :=
  col ← get_column name df; col !! i.

(** The positions a boolean mask keeps, counted from [k]. *)
Fixpoint kept_from (k : nat) (mask : list bool) : list nat :=
  match mask with
  | [] => []
  | b :: mask' => (if b then [k] else []) ++ kept_from (S k) mask'
  end.

(** The cells of the row [r] are found at the same places in the row [o],
    except below a column called [name]. *)
Definition agrees_outside (name : string) (cols : list string)
    (r o : cell * list cell) : Prop :=
  ∀ p c, r.2 !! p = Some c → cols !! p ≠ Some name → o.2 !! p = Some c.

(** The long-form table the plotting loop reads. *)
Definition long_form (log10 : cell → option cell)
    (indir_file : nat → option tsv) : option DataFrame :=
  loaded ← foldl (λ acc i, acc ≫= load_component indir_file i)
                 (Some (∅, [])) (seq 1 10);
  merge_data log10 loaded.2.

(** The figures drawn for one variable. *)
Definition variable_figures (outdir : string) (v : cell) (new : list figure)
  : Prop :=
  ∃ name fig1,
    v = CStr name ∧ f_y fig1 = "value" ∧ f_ylabel fig1 = name
    ∧ ((contains "Likelihood" name = true
        ∧ ∃ fig2, new = [fig1; fig2]
                  ∧ f_y fig2 = "log10 value"
                  ∧ f_ylabel fig2 = "log10 " +:+ name
                  ∧ f_outpath fig2
                    = path_join outdir
                        ("log10_" +:+ lower (replace " " "_" name) +:+ ".png"))
       ∨ (contains "Likelihood" name = false ∧ new = [fig1])).


(** How many of the labels are [k]. *)
Definition matches (k : cell) (labels : list cell) : nat :=
  length (filter (λ l, l = k) labels).


(** A script adds to the log only events that satisfy [P], whether it
    completes or not, and leaves the events already there alone. *)
Definition emits {E A} (P : E → Prop) (m : script E A) : Prop :=
  ∀ l l' r, m l = (l', r) → ∃ new, l' = l ++ new ∧ Forall P new.

(** The panel an event is drawn on; printing and the calls on the whole
    figure have none. *)
Definition panel {R} (e : @Visualiser.event R) : option Visualiser.axis :=
  match e with
  | Visualiser.Despine ax => Some ax
  | Visualiser.Regplot ax _ _ _ _ => Some ax
  | Visualiser.AnnotateGroup ax _ _ _ _ _ => Some ax
  | Visualiser.AnnotateRSquared ax _ => Some ax
  | Visualiser.AnnotateFdr ax _ => Some ax
  | Visualiser.SetTitle ax _ => Some ax
  | Visualiser.SetYLabel ax _ => Some ax
  | Visualiser.SetXLabel ax _ => Some ax
  | _ => None
  end.

(** What the annotation of a group says: the group, the correlation
    coefficient if there is one, and the number of samples. *)
Definition group_note {R} (e : @Visualiser.event R)
  : option (R * option R * nat) :=
  match e with
  | Visualiser.AnnotateGroup _ g coef n _ _ => Some (g, coef, n)
  | _ => None
  end.


(** What a call of [inter_plot] for the panel [ax] may add to the log: the
    drawing on that panel, the two annotations only with the values it was
    given, and the printed diagnostics; never a call on the whole figure. *)
Definition drawn_on {R} (ax : Visualiser.axis) (rsquared fdr : option R)
    (e : @Visualiser.event R) : Prop :=
  match e with
  | Visualiser.AnnotateRSquared ax' rs => ax' = ax ∧ rsquared = Some rs
  | Visualiser.AnnotateFdr ax' f => ax' = ax ∧ fdr = Some f
  | Visualiser.PrintSubset _ _ | Visualiser.PrintMissing _ => True
  | Visualiser.Suptitle _ | Visualiser.Savefig _ => False
  | e => panel e = Some ax
  end.


(** What is on a figure apart from its data and its legend: the columns
    drawn, the title, the axis labels and the file. *)
Definition layout (fig : figure)
  : string * string * string * string * string * string * string :=
  (f_x fig, f_y fig, f_hue fig, f_title fig, f_xlabel fig, f_ylabel fig,
   f_outpath fig).

(** The layouts of the figures of one variable: the plain figure and, for
    a likelihood, the figure of the log10 values. *)
Definition variable_layouts (outdir name : string)
  : list (string * string * string * string * string * string * string) :=
  let stem := lower (replace " " "_" name) in
  ("index", "value", "component", EmptyString, "iteration", name,
   path_join outdir (stem +:+ ".png"))
  :: (if contains "Likelihood" name then
        [("index", "log10 value", "component", EmptyString, "iteration",
          "log10 " +:+ name, path_join outdir (("log10_" +:+ stem) +:+ ".png"))]
      else []).

(** The columns of the long table. *)
Definition long_columns : list string :=
  ["index"; "covariate"; "component"; "variable"; "value"; "log10 value"].

(** The rows of the long table shown for one variable: those of the
    variable, without the first iteration for [Overlap %]. *)
Definition variable_rows (name : string) (df_m : DataFrame)
  : list (cell * list cell) :=
  filter (λ r : cell * list cell,
            r.2 !! 3%nat = Some (CStr name)
            ∧ (name = "Overlap %" → r.2 !! 0%nat ≠ Some (CInt 1)))
         (rows df_m).

End Vocabulary.

(** * Concrete inputs *)

Section Inputs.
Import Frame Script.

(** ** filter_gte_file.py *)

Definition gte_example : FilterGte.input :=
  FilterGte.mkInput "BIOS_GTE.txt.gz"
    (FilterGte.Text
       (mkTsv ["genotype_id"; "rnaseq_id"; "dataset"]
          [[CStr "g1"; CStr "s1"; CStr "LL"];
           [CStr "g2"; CStr "s2"; CStr "RS"];
           [CStr "g1"; CStr "s3"; CStr "RS"]])).

Definition exclude_example : FilterGte.input :=
  FilterGte.mkInput "exclude.txt.gz"
    (FilterGte.Text
       (mkTsv ["genotype_id"; "rnaseq_id"; "dataset"]
          [[CStr "g2"; CStr "s2"; CStr "RS"]])).

Definition gte_df_example : DataFrame :=
  mkDF ["genotype_id"; "rnaseq_id"; "dataset"]
    [(CInt 0, [CStr "g1"; CStr "s1"; CStr "LL"]);
     (CInt 1, [CStr "g2"; CStr "s2"; CStr "RS"]);
     (CInt 2, [CStr "g1"; CStr "s3"; CStr "RS"])].

Definition exclude_df_example : DataFrame :=
  mkDF ["genotype_id"; "rnaseq_id"; "dataset"]
    [(CInt 0, [CStr "g2"; CStr "s2"; CStr "RS"])].

Definition filter_log_example : list saved :=
  (run (FilterGte.start (Some gte_example) exclude_example "out")).1.

(** The rows of [gte_df_example] that are not excluded. *)
Definition filtered_example : DataFrame :=
  mkDF ["genotype_id"; "rnaseq_id"; "dataset"]
    [(CInt 0, [CStr "g1"; CStr "s1"; CStr "LL"]);
     (CInt 2, [CStr "g1"; CStr "s3"; CStr "RS"])].

(** A GTE table without a [dataset] column. *)
Definition gte_no_dataset_example : FilterGte.input :=
  FilterGte.mkInput "GTE.txt"
    (FilterGte.Text
       (mkTsv ["genotype_id"; "rnaseq_id"]
          [[CStr "g1"; CStr "s1"]; [CStr "g2"; CStr "s2"]])).

Definition gte_no_dataset_df_example : DataFrame :=
  mkDF ["genotype_id"; "rnaseq_id"]
    [(CInt 0, [CStr "g1"; CStr "s1"]); (CInt 1, [CStr "g2"; CStr "s2"])].

(** An exclusion table without rows. *)
Definition exclude_none_df_example : DataFrame :=
  mkDF ["genotype_id"; "rnaseq_id"; "dataset"] [].

(** ** prepare_bios_eqtl_file.py *)

Definition eqtl_example : tsv :=
  mkTsv ["PValue"; "SNP"; "Gene"; "FDR"]
    [[CFloat 1; CStr "rs1"; CStr "ENSG1"; CFloat 5];
     [CFloat 2; CStr "rs9"; CStr "ENSG2"; CFloat 6];
     [CFloat 3; CStr "rs2"; CStr "ENSG3"; CFloat 7]].

Definition snps_example : tsv :=
  mkTsv ("-" :: PrepareEqtl.dataset_order)
    [[CStr "rs2"; CInt 1; CInt 0; CInt 1; CInt 0; CInt 0; CInt 0; CInt 0;
      CInt 0; CInt 1];
     [CStr "rs1"; CInt 1; CInt 1; CInt 1; CInt 1; CInt 1; CInt 1; CInt 1;
      CInt 1; CInt 1]].

Definition eqtl_df_example : DataFrame :=
  mkDF ["PValue"; "SNP"; "Gene"; "FDR"]
    [(CInt 0, [CFloat 1; CStr "rs1"; CStr "ENSG1"; CFloat 5]);
     (CInt 1, [CFloat 2; CStr "rs9"; CStr "ENSG2"; CFloat 6]);
     (CInt 2, [CFloat 3; CStr "rs2"; CStr "ENSG3"; CFloat 7])].

Definition renamed_example : DataFrame :=
  mkDF ["PValue"; "SNPName"; "ProbeName"; "FDR"] (rows eqtl_df_example).

Definition snps_df_example : DataFrame :=
  mkDF PrepareEqtl.dataset_order
    [(CStr "rs2", [CInt 1; CInt 0; CInt 1; CInt 0; CInt 0; CInt 0; CInt 0;
                   CInt 0; CInt 1]);
     (CStr "rs1", [CInt 1; CInt 1; CInt 1; CInt 1; CInt 1; CInt 1; CInt 1;
                   CInt 1; CInt 1])].

Definition counted_example : DataFrame :=
  mkDF (PrepareEqtl.dataset_order ++ ["N datasets"; "N samples"])
    [(CStr "rs2", [CInt 1; CInt 0; CInt 1; CInt 0; CInt 0; CInt 0; CInt 0;
                   CInt 0; CInt 1; CInt 3; CInt 1239]);
     (CStr "rs1", [CInt 1; CInt 1; CInt 1; CInt 1; CInt 1; CInt 1; CInt 1;
                   CInt 1; CInt 1; CInt 9; CInt 3059])].

Definition eqtl_log_example : list saved :=
  (run (PrepareEqtl.start eqtl_example snps_example "out")).1.

(** A presence matrix without most of the cohorts. *)
Definition snps_missing_example : tsv :=
  mkTsv ["-"; "RS"; "LL"] [[CStr "rs1"; CInt 1; CInt 0]].

Definition snps_missing_df_example : DataFrame :=
  mkDF ["RS"; "LL"] [(CStr "rs1", [CInt 1; CInt 0])].

(** An eQTL table without a [SNP] column. *)
Definition eqtl_no_snp_example : tsv :=
  mkTsv ["PValue"; "Gene"] [[CFloat 1; CStr "ENSG1"]].

Definition eqtl_no_snp_df_example : DataFrame :=
  mkDF ["PValue"; "Gene"] [(CInt 0, [CFloat 1; CStr "ENSG1"])].

(** ** overview_lineplot.py *)

Definition info_example : tsv :=
  mkTsv ["-"; "covariate"; "Log Likelihood"; "Overlap %"]
    [[CStr "iteration0"; CStr "comp1"; CFloat 10; CFloat 50];
     [CStr "iteration1"; CStr "comp1"; CFloat 11; CFloat 60]].

(** Only [PIC2/info_df.txt.gz] exists. *)
Definition indir_example (i : nat) : option tsv :=
  if decide (i = 2%nat) then Some info_example else None.

(** A stand-in for [np.log10]: the figures do not depend on its values. *)
Definition log10_example (c : cell) : option cell := Some c.

Definition figures_example : list OverviewLineplot.figure :=
  (run (OverviewLineplot.start log10_example indir_example "out")).1.

(** A component file that starts at the first iteration. *)
Definition info_late_example : tsv :=
  mkTsv ["-"; "covariate"; "Log Likelihood"]
    [[CStr "iteration1"; CStr "comp1"; CFloat 11]].

Definition info_late_df_example : DataFrame :=
  mkDF ["covariate"; "Log Likelihood"]
    [(CStr "iteration1", [CStr "comp1"; CFloat 11])].

Definition indir_late_example (i : nat) : option tsv :=
  if decide (i = 2%nat) then Some info_late_example
  else if decide (i = 3%nat) then Some info_example
  else None.

(** ** visualiser.py *)

(** The module instantiated with integers in place of floats, and simple
    stand-ins for the helpers that are not part of the sources. *)
Definition ieqtl_example : Visualiser.ieqtl_model :=
  Visualiser.mkIeqtl
    [[1; 0; 5; 0]; [1; 1; 6; 6]; [1; 2; 7; 14]; [1; 1; 3; 3]]
    [10; 20; 30; 40]
    [true; false; true; true; true]
    (3, 4) "snp_gene".

Definition ocf_example : list Z := [100; 200; 300; 400; 500].

Definition fit_example (ocf : option (list Z)) : option Visualiser.fits :=
  Visualiser.fit Z.mul (λ a b, a + b) (λ _ _, 2) (λ _ y, y) ieqtl_example ocf.

Definition fits_example : Visualiser.fits :=
  Visualiser.mkFits 4 false (Some 95)
    [[1; 0; 100; 0]; [1; 1; 300; 300]; [1; 2; 400; 800]; [1; 1; 500; 500]]
    (Some 4).

(** A frame in which genotype group 2 does not occur. *)
Definition two_groups_example : Visualiser.frame :=
  [("covariate", [5; 6; 3]); ("expression", [10; 20; 40]);
   ("group", [0; 1; 1])].

(** A frame with the three genotype groups, the second of two samples. *)
Definition three_groups_example : Visualiser.frame :=
  [("covariate", [5; 6; 3; 8]); ("expression", [10; 20; 40; 50]);
   ("group", [0; 1; 2; 1])].

(** A model whose expression vector is shorter than its design matrix. *)
Definition short_y_example : Visualiser.ieqtl_model :=
  Visualiser.mkIeqtl [[1; 0; 5; 0]; [1; 1; 6; 6]] [10] [true; true]
    (3, 4) "snp_gene".

Definition plot_log_example : list Visualiser.event :=
  (Visualiser.plot (λ z, z) Z.mul (λ z, z) (λ _, false) (λ a b, a + b)
     (λ _ _, 2) (λ _ y, y) (λ _ _, 1) ieqtl_example "out" "3" None
     (Some ocf_example) []).1.

Definition figure_log_example : list Visualiser.event * option () :=
  Visualiser.create_interaction_figure (λ z, z) (λ _, false) (λ _ _, 1)
    three_groups_example two_groups_example 4 None (Some 5) None
    "snp_gene:3" "out/plot" true [].

End Inputs.

(** * Properties *)

(** ** int64 arithmetic without overflow *)

Section Int64Facts.
Import Int64.

Lemma wrap_small (z : Z) : - half_modulus ≤ z < half_modulus → wrap z = z.
Proof.
  unfold wrap, half_modulus, modulus. intros Hz.
  rewrite Z.mod_small; lia.
Qed.

Lemma wrap_add_wrap_r (a b : Z) : wrap (a + wrap b) = wrap (a + b).
Proof.
  unfold wrap, half_modulus, modulus. f_equal.
  replace (a + ((b + 2 ^ 63) mod 2 ^ 64 - 2 ^ 63) + 2 ^ 63)
    with (a + (b + 2 ^ 63) mod 2 ^ 64) by lia.
  rewrite Zplus_mod_idemp_r. f_equal. lia.
Qed.

Lemma wrap_add_wrap_l (a b : Z) : wrap (wrap a + b) = wrap (a + b).
Proof. by rewrite (Z.add_comm (wrap a)), wrap_add_wrap_r, Z.add_comm. Qed.

Lemma sum_wrap (l : list Z) : sum l = wrap (row_sum l).
Proof.
  induction l as [|a l IH]; simpl; [done|].
  unfold add. by rewrite IH, wrap_add_wrap_r.
Qed.

Lemma dot_wrap (u v : list Z) : dot u v = wrap (dot_product u v).
Proof.
  unfold dot_product. revert v.
  induction u as [|a u IH]; intros [|b v]; simpl; try done.
  unfold add, mul. by rewrite IH, wrap_add_wrap_r, wrap_add_wrap_l.
Qed.

Lemma row_sum_presence (l : list Z) :
  Forall (λ z, z = 0 ∨ z = 1) l → 0 ≤ row_sum l ≤ Z.of_nat (length l).
Proof.
  induction 1 as [|z l [->| ->] _ IH]; simpl; lia.
Qed.

Lemma row_sum_nonneg (v : list Z) : Forall (λ s, 0 ≤ s) v → 0 ≤ row_sum v.
Proof. induction 1; simpl; lia. Qed.

Lemma dot_product_presence (u v : list Z) :
  Forall (λ z, z = 0 ∨ z = 1) u → Forall (λ s, 0 ≤ s) v →
  0 ≤ dot_product u v ≤ row_sum v.
Proof.
  unfold dot_product. intros Hu. revert v.
  induction Hu as [|z u Hz Hu IH]; intros v Hv.
  - simpl. split; [done|]. by apply row_sum_nonneg.
  - destruct v as [|s v]; simpl; [lia|].
    apply Forall_cons in Hv as [Hs Hv]. specialize (IH v Hv).
    destruct Hz as [-> | ->]; lia.
Qed.

End Int64Facts.

(** ** Facts about the frame operations *)

Section FrameFacts.
Import Frame.

Lemma elem_of_kept_from (mask : list bool) (k i : nat) :
  i ∈ kept_from k mask ↔ (k ≤ i)%nat ∧ mask !! (i - k)%nat = Some true.
Proof.
  revert k. induction mask as [|b mask IH]; intros k; simpl.
  - split; [by intros ?%elem_of_nil | by intros [_ ?]].
  - rewrite elem_of_app, IH. destruct b; simpl.
    + rewrite list_elem_of_singleton. split.
      * intros [->|[Hle Hm]].
        -- split; [lia|]. by replace (k - k)%nat with 0%nat by lia.
        -- split; [lia|]. by replace (i - k)%nat with (S (i - S k)) by lia.
      * intros [Hle Hm]. destruct (decide (i = k)) as [->|Hne]; [by left|].
        right. split; [lia|].
        by replace (i - k)%nat with (S (i - S k)) in Hm by lia.
    + split.
      * intros [?%elem_of_nil|[Hle Hm]]; [done|].
        split; [lia|]. by replace (i - k)%nat with (S (i - S k)) by lia.
      * intros [Hle Hm]. right.
        destruct (decide (i = k)) as [->|Hne].
        -- by replace (k - k)%nat with 0%nat in Hm by lia.
        -- split; [lia|].
           by replace (i - k)%nat with (S (i - S k)) in Hm by lia.
Qed.

Lemma kept_from_sorted (mask : list bool) (k : nat) :
  StronglySorted lt (kept_from k mask).
Proof.
  revert k. induction mask as [|b mask IH]; intros k; simpl; [constructor|].
  destruct b; simpl; [|apply IH].
  constructor; [apply IH|].
  apply Forall_forall. intros i [Hle _]%elem_of_kept_from. lia.
Qed.

Lemma select_kept_from {A} (mask : list bool) (l : list A) (k : nat) :
  length mask = length l →
  select mask l = omap (λ i, l !! (i - k)%nat) (kept_from k mask).
Proof.
  revert l k. induction mask as [|b mask IH]; intros [|x l] k Hlen;
    simplify_eq/=; [done|].
  assert (omap (λ i, (x :: l) !! (i - k)%nat) (kept_from (S k) mask)
          = omap (λ i, l !! (i - S k)%nat) (kept_from (S k) mask)) as Heq.
  { apply list_omap_ext, Forall_Forall2_diag, Forall_forall.
    intros i [Hle _]%elem_of_kept_from.
    by replace (i - k)%nat with (S (i - S k)) by lia. }
  rewrite (IH l (S k)) by done. unfold omap in *.
  destruct b; simpl.
  - replace (k - k)%nat with 0%nat by lia. simpl. by rewrite Heq.
  - by rewrite Heq.
Qed.

Lemma get_column_at (name : string) (df : DataFrame) (p : nat) :
  position name (columns df) = Some p →
  get_column name df = column_at p (rows df).
Proof. intros Hp. unfold get_column. by rewrite Hp. Qed.

Lemma get_column_position (name : string) (df : DataFrame) (col : list cell) :
  get_column name df = Some col →
  ∃ p, position name (columns df) = Some p ∧ column_at p (rows df) = Some col.
Proof.
  unfold get_column. destruct (position name (columns df)) as [p|]; [|done].
  simpl. eauto.
Qed.

Lemma column_at_length (p : nat) body col :
  column_at p body = Some col → length col = length body.
Proof. intros H. symmetry. by eapply length_mapM. Qed.

Lemma get_column_length (name : string) (df : DataFrame) col :
  get_column name df = Some col → length col = length (rows df).
Proof.
  intros (p & _ & H)%get_column_position. by eapply column_at_length.
Qed.

Lemma column_at_select (p : nat) body col (mask : list bool) :
  column_at p body = Some col →
  column_at p (select mask body) = Some (select mask col).
Proof.
  unfold column_at. intros H%mapM_Some. apply mapM_Some. revert mask.
  induction H as [|r c body col Hc H IH]; intros [|[] mask]; simpl;
    try constructor; auto.
Qed.

Lemma loc_rows_spec (mask : list bool) (df d : DataFrame) :
  loc_rows mask df = Some d →
  length mask = length (rows df) ∧ columns d = columns df
  ∧ rows d = select mask (rows df).
Proof. unfold loc_rows. case_decide; [|done]. by intros [= <-]. Qed.

Lemma get_column_loc_rows (name : string) (mask : list bool) df d col :
  loc_rows mask df = Some d →
  get_column name df = Some col →
  get_column name d = Some (select mask col).
Proof.
  intros (_ & Hc & Hr)%loc_rows_spec (p & Hp & Hcol)%get_column_position.
  rewrite (get_column_at name d p) by by rewrite Hc.
  rewrite Hr. by apply column_at_select.
Qed.

Lemma loc_cols_row (ps : list nat) (r b : cell * list cell) :
  (cs ← mapM (λ p, r.2 !! p) ps; Some (r.1, cs)) = Some b →
  b.1 = r.1 ∧ Forall2 (λ p c, r.2 !! p = Some c) ps b.2.
Proof.
  destruct (mapM (λ p, r.2 !! p) ps) as [cs|] eqn:Hcs; [|done].
  intros [= <-]. split; [done|]. by apply mapM_Some.
Qed.

Lemma loc_cols_spec (names : list string) (df d : DataFrame) :
  loc_cols names df = Some d →
  columns d = names ∧ rectangular d ∧ index d = index df
  ∧ ∀ k n, names !! k = Some n → column_at k (rows d) = get_column n df.
Proof.
  unfold loc_cols. intros H.
  destruct (mapM _ names) as [ps|] eqn:Hps; [|done]. simpl in H.
  destruct (mapM _ (rows df)) as [body|] eqn:Hbody; [|done]. simplify_eq/=.
  apply mapM_Some in Hps. apply mapM_Some in Hbody.
  split_and!; [done| | |].
  - unfold rectangular. simpl. apply Forall_forall. intros b Hb.
    apply list_elem_of_lookup in Hb as [i Hb].
    destruct (Forall2_lookup_r _ _ _ _ _ Hbody Hb) as (r & _ & Hr).
    apply loc_cols_row in Hr as [_ Hr].
    by rewrite <-(Forall2_length _ _ _ Hr), (Forall2_length _ _ _ Hps).
  - unfold index. simpl. symmetry.
    apply list_eq_Forall2, Forall2_fmap. eapply Forall2_impl; [exact Hbody|].
    intros r b [Hb _]%loc_cols_row. done.
  - intros k n Hk.
    destruct (Forall2_lookup_l _ _ _ _ _ Hps Hk) as (p & Hpk & Hp).
    rewrite (get_column_at n df p Hp). unfold column_at.
    apply Forall2_mapM_ext, Forall2_flip. eapply Forall2_impl; [exact Hbody|].
    intros r b [_ Hcs]%loc_cols_row.
    destruct (Forall2_lookup_l _ _ _ _ _ Hcs Hpk) as (c & -> & Hc). done.
Qed.

Lemma insert_front_spec (name : string) (v : cell) (df d : DataFrame) :
  insert 0 name v df = Some d →
  columns d = name :: columns df
  ∧ rows d = (λ r : cell * list cell, (r.1, v :: r.2)) <$> rows df.
Proof.
  unfold insert. case_decide; [done|]. case_decide; [|done].
  intros [= <-]. simpl. split; [by rewrite drop_0|].
  apply list_fmap_ext. intros _ [l r] _. simpl. by rewrite drop_0.
Qed.

Lemma fmap_select {A B} (f : A → B) (mask : list bool) (l : list A) :
  f <$> select mask l = select mask (f <$> l).
Proof.
  revert l. induction mask as [|[] mask IH]; intros [|x l]; simpl;
    by rewrite ?IH.
Qed.

Lemma select_length_le {A} (mask : list bool) (l : list A) :
  (length (select mask l) ≤ length l)%nat.
Proof.
  revert l. induction mask as [|[] mask IH]; intros [|x l]; simpl;
    try specialize (IH l); lia.
Qed.

Lemma select_sublist {A} (mask : list bool) (l : list A) :
  select mask l `sublist_of` l.
Proof.
  revert l. induction mask as [|[] mask IH]; intros [|x l]; simpl;
    try apply sublist_nil_l; [by apply sublist_skip|by apply sublist_cons].
Qed.

Lemma column_at_cons_0 (v : cell) (body : list (cell * list cell)) :
  column_at 0 ((λ r : cell * list cell, (r.1, v :: r.2)) <$> body)
  = Some (replicate (length body) v).
Proof.
  unfold column_at. apply mapM_Some.
  induction body; simpl; constructor; auto.
Qed.

Lemma column_at_cons_S (v : cell) (k : nat) (body : list (cell * list cell)) :
  column_at (S k) ((λ r : cell * list cell, (r.1, v :: r.2)) <$> body)
  = column_at k body.
Proof.
  unfold column_at. apply Forall2_mapM_ext, Forall2_fmap_l, Forall_Forall2_diag.
  by apply Forall_true.
Qed.

Lemma select_kept {A} (mask : list bool) (l : list A) :
  length mask = length l →
  select mask l = omap (λ i, l !! i) (kept_from 0 mask).
Proof.
  intros Hlen. rewrite (select_kept_from mask l 0 Hlen).
  apply list_omap_ext, Forall_Forall2_diag, Forall_true.
  intros i. by rewrite Nat.sub_0_r.
Qed.

Lemma elem_of_kept (mask : list bool) (i : nat) :
  i ∈ kept_from 0 mask ↔ mask !! i = Some true.
Proof. rewrite elem_of_kept_from, Nat.sub_0_r. intuition lia. Qed.

Lemma index_length (df : DataFrame) : length (index df) = length (rows df).
Proof. unfold index. by rewrite length_fmap. Qed.

(** *** Positions of column names *)

Lemma position_Some (name : string) (names : list string) (p : nat) :
  position name names = Some p ↔
  names !! p = Some name ∧ ∀ j, (j < p)%nat → names !! j ≠ Some name.
Proof.
  unfold position. split.
  - intros ([p' x] & Hf & ->)%fmap_Some. simpl.
    apply list_find_Some in Hf as (Hl & -> & Hmin).
    split; [done|]. intros j Hj Hn. by eapply Hmin.
  - intros [Hl Hmin]. apply fmap_Some. exists (p, name). split; [|done].
    apply list_find_Some. split_and!; [done..|].
    intros j y Hy Hj ->. by eapply Hmin.
Qed.

Lemma position_lt (name : string) (names : list string) (p : nat) :
  position name names = Some p → (p < length names)%nat.
Proof. intros [H _]%position_Some. by eapply lookup_lt_Some. Qed.

Lemma position_None (name : string) (names : list string) :
  position name names = None ↔ name ∉ names.
Proof.
  unfold position. rewrite fmap_None, list_find_None, Forall_forall.
  split; [intros H Hin; by eapply H|intros H x Hx ->; done].
Qed.

Lemma position_app_l (name : string) (l k : list string) (p : nat) :
  position name l = Some p → position name (l ++ k) = Some p.
Proof.
  unfold position. intros ([p' x] & Hf & ->)%fmap_Some.
  by rewrite (list_find_app_l _ _ _ _ _ Hf).
Qed.

Lemma position_app_r (name : string) (l k : list string) :
  position name l = None →
  position name (l ++ k) = (λ p, (p + length l)%nat) <$> position name k.
Proof.
  unfold position. intros Hn%fmap_None.
  rewrite (list_find_app_r _ _ _ Hn), <-!option_fmap_compose.
  by apply option_fmap_ext; intros [].
Qed.

Lemma forallb_Forall {A} (f : A → bool) (l : list A) :
  forallb f l = true ↔ Forall (λ x, f x = true) l.
Proof.
  induction l as [|x l IH]; simpl.
  - split; [constructor|done].
  - rewrite andb_true_iff, Forall_cons, IH. done.
Qed.

(** *** Rectangular frames *)

Lemma read_csv_rectangular (f : tsv) (index_col : option nat) (df : DataFrame) :
  read_csv f index_col = Some df → rectangular df.
Proof.
  unfold read_csv, rectangular.
  destruct (forallb _ (records f)) eqn:Hw; [|done].
  apply forallb_Forall in Hw. rewrite Forall_forall in Hw.
  assert (Forall (λ r, length r = length (header f)) (pad (length (header f)) <$> records f))
    as Hpad.
  { apply Forall_fmap, Forall_forall. intros r Hr. simpl.
    specialize (Hw r Hr). apply bool_decide_eq_true in Hw.
    unfold pad. rewrite length_app, length_replicate. lia. }
  destruct index_col as [k|].
  - case_decide; [|done]. intros [= <-]. simpl.
    apply Forall_fmap. eapply Forall_impl; [exact Hpad|].
    intros r Hr. simpl in *.
    rewrite !length_delete by (apply lookup_lt_is_Some_2; lia). lia.
  - intros [= <-]. simpl. apply Forall_forall.
    intros [l r] Hin. simpl. apply elem_of_zip_r in Hin.
    by eapply (proj1 (Forall_forall _ _) Hpad).
Qed.

(** *** Column assignment *)

Lemma column_at_zip_with_same (g : cell * list cell → cell → cell * list cell)
    (p : nat) body (vals : list cell) :
  length vals = length body →
  (∀ r v, r ∈ body → (g r v).2 !! p = Some v) →
  column_at p (zip_with g body vals) = Some vals.
Proof.
  intros Hlen Hg. unfold column_at. apply mapM_Some.
  apply Forall2_same_length_lookup. split.
  - rewrite length_zip_with. lia.
  - intros i x v Hx Hv.
    apply lookup_zip_with_Some in Hx as (r & v' & -> & Hr & Hv').
    simplify_eq. apply Hg. by eapply list_elem_of_lookup_2.
Qed.

Lemma column_at_zip_with_other (g : cell * list cell → cell → cell * list cell)
    (p : nat) body (vals : list cell) :
  length vals = length body →
  (∀ r v, r ∈ body → (g r v).2 !! p = r.2 !! p) →
  column_at p (zip_with g body vals) = column_at p body.
Proof.
  intros Hlen Hg. unfold column_at. apply Forall2_mapM_ext.
  apply Forall2_same_length_lookup. split.
  - rewrite length_zip_with. lia.
  - intros i x r Hx Hr.
    apply lookup_zip_with_Some in Hx as (r' & v' & -> & Hr' & Hv').
    simplify_eq. apply Hg. by eapply list_elem_of_lookup_2.
Qed.

Lemma fst_zip_with (g : cell * list cell → cell → cell * list cell)
    body (vals : list cell) :
  length vals = length body →
  (∀ r v, (g r v).1 = r.1) →
  (fst <$> zip_with g body vals) = (fst <$> body).
Proof.
  intros Hlen Hg. apply list_eq_Forall2, Forall2_fmap.
  apply Forall2_same_length_lookup. split.
  - rewrite length_zip_with. lia.
  - intros i x r Hx Hr.
    apply lookup_zip_with_Some in Hx as (r' & v' & -> & Hr' & Hv').
    simplify_eq. apply Hg.
Qed.

Lemma set_column_spec (name : string) (vals : list cell) (df d : DataFrame) :
  rectangular df →
  set_column name vals df = Some d →
  rectangular d
  ∧ index d = index df
  ∧ get_column name d = Some vals
  ∧ (∀ n, n ≠ name → get_column n d = get_column n df)
  ∧ (name ∉ columns df →
     columns d = columns df ++ [name]
     ∧ rows d = zip_with (λ (r : cell * list cell) v, (r.1, r.2 ++ [v]))
                         (rows df) vals).
Proof.
  intros Hwf. unfold set_column. case_decide as Hlen; [|done].
  unfold rectangular in Hwf. rewrite Forall_forall in Hwf.
  destruct (position name (columns df)) as [p|] eqn:Hp; intros [= <-].
  - pose proof (position_lt _ _ _ Hp) as Hlt.
    split_and!.
    + unfold rectangular. simpl. apply Forall_forall. intros x Hx.
      apply list_elem_of_lookup in Hx as [i Hx].
      apply lookup_zip_with_Some in Hx as (r & v & -> & Hr & _). simpl.
      rewrite length_insert. apply Hwf. by eapply list_elem_of_lookup_2.
    + unfold index. simpl. by apply fst_zip_with.
    + rewrite (get_column_at name _ p) by done. simpl.
      apply column_at_zip_with_same; [done|].
      intros r v Hr. simpl. apply list_lookup_insert_eq.
      rewrite (Hwf r Hr). done.
    + intros n Hn. unfold get_column. simpl.
      destruct (position n (columns df)) as [q|] eqn:Hq; [|done]. simpl.
      apply column_at_zip_with_other; [done|].
      intros r v Hr. simpl. apply list_lookup_insert_ne.
      intros ->. apply position_Some in Hp as [Hp _].
      apply position_Some in Hq as [Hq _]. congruence.
    + intros Hnot. apply position_None in Hnot. congruence.
  - apply position_None in Hp as Hnot.
    split_and!.
    + unfold rectangular. simpl. apply Forall_forall. intros x Hx.
      apply list_elem_of_lookup in Hx as [i Hx].
      apply lookup_zip_with_Some in Hx as (r & v & -> & Hr & _). simpl.
      rewrite !length_app. simpl. f_equal. apply Hwf.
      by eapply list_elem_of_lookup_2.
    + unfold index. simpl. by apply fst_zip_with.
    + rewrite (get_column_at name _ (length (columns df))).
      * simpl. apply column_at_zip_with_same; [done|].
        intros r v Hr. simpl. rewrite <-(Hwf r Hr).
        by rewrite lookup_app_r, Nat.sub_diag by lia.
      * simpl. rewrite (position_app_r _ _ _ Hp).
        unfold position. simpl. by case_decide.
    + intros n Hn. unfold get_column. simpl.
      destruct (position n (columns df)) as [q|] eqn:Hq.
      * rewrite (position_app_l _ _ _ _ Hq). simpl.
        apply column_at_zip_with_other; [done|].
        intros r v Hr. simpl. apply lookup_app_l.
        rewrite (Hwf r Hr). by eapply position_lt.
      * rewrite (position_app_r _ _ _ Hq). unfold position. simpl.
        by case_decide.
    + done.
Qed.

End FrameFacts.

Section FrameLookups.
Import Frame.

Lemma column_at_lookup (p i : nat) body col (r : cell * list cell) :
  column_at p body = Some col → body !! i = Some r →
  ∃ c, col !! i = Some c ∧ r.2 !! p = Some c.
Proof.
  unfold column_at. intros H%mapM_Some Hr.
  destruct (Forall2_lookup_l _ _ _ _ _ H Hr) as (c & Hc & Hp). eauto.
Qed.

Lemma cell_at_elem_of (name : string) (i : nat) df (r : cell * list cell) c :
  cell_at name i df = Some c → rows df !! i = Some r → c ∈ r.2.
Proof.
  unfold cell_at. intros H Hr.
  destruct (get_column name df) as [col|] eqn:Hcol; [|done]. simpl in H.
  apply get_column_position in Hcol as (p & _ & Hcol).
  destruct (column_at_lookup _ _ _ _ _ Hcol Hr) as (c' & Hc' & Hp).
  simplify_eq. by eapply list_elem_of_lookup_2.
Qed.

Lemma column_at_is_Some (p : nat) (body : list (cell * list cell)) :
  Forall (λ r : cell * list cell, (p < length r.2)%nat) body →
  is_Some (column_at p body).
Proof.
  intros H. apply mapM_is_Some. eapply Forall_impl; [exact H|].
  intros r Hr. by apply lookup_lt_is_Some_2.
Qed.

Lemma cell_at_column_at (name : string) (p i : nat) (df : DataFrame) :
  position name (columns df) = Some p →
  cell_at name i df = col ← column_at p (rows df); col !! i.
Proof. intros Hp. unfold cell_at. by rewrite (get_column_at _ _ _ Hp). Qed.

Lemma cell_at_row (name : string) (p n : nat) (df : DataFrame)
    (r : cell * list cell) :
  rectangular df →
  position name (columns df) = Some p →
  rows df !! n = Some r →
  cell_at name n df = r.2 !! p.
Proof.
  intros Hwf Hp Hr. rewrite (cell_at_column_at _ _ _ _ Hp).
  destruct (column_at_is_Some p (rows df)) as [col Hcol].
  { eapply Forall_impl; [exact Hwf|]. intros x Hx. simpl in Hx.
    rewrite Hx. by eapply position_lt. }
  rewrite Hcol. simpl.
  by destruct (column_at_lookup _ _ _ _ _ Hcol Hr) as (c & -> & ->).
Qed.

(** A column assignment leaves the labels and the cells of the other
    columns where they are. *)
Lemma set_column_rows (name : string) (vals : list cell) (df d : DataFrame) :
  set_column name vals df = Some d →
  Forall2 (λ r r' : cell * list cell,
             r'.1 = r.1
             ∧ ∀ p c, r.2 !! p = Some c → columns d !! p ≠ Some name →
                      r'.2 !! p = Some c)
          (rows df) (rows d).
Proof.
  unfold set_column. case_decide as Hlen; [|done].
  destruct (position name (columns df)) as [p0|] eqn:Hp0; intros [= <-];
    simpl; apply Forall2_same_length_lookup.
  - split; [rewrite length_zip_with; lia|].
    intros i r x Hr Hx.
    apply lookup_zip_with_Some in Hx as (r' & v & -> & Hr' & _).
    simplify_eq. simpl. split; [done|]. intros p c Hc Hne.
    rewrite list_lookup_insert_ne; [done|]. intros ->.
    by apply position_Some in Hp0 as [? _].
  - split; [rewrite length_zip_with; lia|].
    intros i r x Hr Hx.
    apply lookup_zip_with_Some in Hx as (r' & v & -> & Hr' & _).
    simplify_eq. simpl. split; [done|]. intros p c Hc _.
    by apply lookup_app_l_Some.
Qed.

Lemma mjoin_singletons {A} (ls : list (list A)) :
  Forall (λ l, ∃ x, l = [x]) ls → Forall2 (λ l x, l = [x]) ls (mjoin ls).
Proof.
  induction 1 as [|l ls [x ->] _ IH]; simpl; constructor; done.
Qed.

End FrameLookups.

(** ** filter_gte_file.py *)

Section FilterGteFacts.
Import Frame Script FilterGte.

Lemma remove_samples_spec gte_df se_df sub samples excluded :
  remove_samples gte_df se_df = Some sub →
  get_column "rnaseq_id" gte_df = Some samples →
  get_column "rnaseq_id" se_df = Some excluded →
  ∃ mask : list bool,
    length mask = length (rows gte_df)
    ∧ (∀ i, mask !! i = Some true ↔ ∃ s, samples !! i = Some s ∧ s ∉ excluded)
    ∧ loc_rows mask gte_df = Some sub.
Proof.
  unfold remove_samples. intros H Hs He. rewrite He, Hs in H. simpl in H.
  eexists. split_and!; [ | | exact H].
  - by apply loc_rows_spec in H as [? _].
  - intros i. rewrite list_lookup_fmap. destruct (samples !! i) as [s|]; simpl.
    + case_decide as Hin; rewrite elem_of_list_to_set in Hin; split.
      * done.
      * intros (? & [= <-] & ?). done.
      * eauto.
      * done.
    + split; [done|]. by intros (? & ? & _).
Qed.

(** What a completed run has written, in terms of the loaded tables: the
    three frames, each with its [header] and [index] flags. *)
Lemma start_completed gte_path e_gte_path outdir log :
  run (start gte_path e_gte_path outdir) = (log, Some ()) →
  ∃ gte_in gte_df se_df sub std fid,
    gte_path = Some gte_in
    ∧ load_file gte_in None = Some gte_df
    ∧ load_file e_gte_path None = Some se_df
    ∧ remove_samples gte_df se_df = Some sub
    ∧ sample_to_dataset sub = Some std
    ∧ family_to_genotype sub = Some fid
    ∧ (λ f, (s_df f, s_header f, s_index f)) <$> log
      = [(sub, true, false); (std, true, false); (fid, false, false)].
Proof.
  unfold run, start, save_file, mbind, script_bind, lift, emit.
  intros H.
  destruct gte_path as [gte_in|]; [|done].
  destruct (load_file gte_in None) as [gte_df|] eqn:Hg; [|done].
  destruct (load_file e_gte_path None) as [se_df|] eqn:He; [|done].
  destruct (get_column "dataset" se_df); [|done].
  destruct (remove_samples gte_df se_df) as [sub|] eqn:Hsub; [|done].
  destruct (sample_to_dataset sub) as [std|] eqn:Hstd; [|done].
  destruct (family_to_genotype sub) as [fid|] eqn:Hfid; [|done].
  injection H as <-. by exists gte_in, gte_df, se_df, sub, std, fid.
Qed.

Lemma sample_to_dataset_spec sub std :
  sample_to_dataset sub = Some std →
  columns std = ["sample"; "dataset"] ∧ index std = index sub
  ∧ get_column "sample" std = get_column "rnaseq_id" sub
  ∧ get_column "dataset" std = get_column "dataset" sub.
Proof.
  unfold sample_to_dataset. intros H.
  destruct (loc_cols _ sub) as [d|] eqn:Hd; [|done]. simpl in H.
  apply loc_cols_spec in Hd as (Hc & _ & Hi & Hcol).
  unfold set_columns in H. case_decide; [|done]. simplify_eq/=.
  split_and!; [done|done| |].
  - rewrite <-(Hcol 0%nat) by done. done.
  - rewrite <-(Hcol 1%nat) by done. done.
Qed.

Lemma family_to_genotype_spec sub fid :
  family_to_genotype sub = Some fid →
  columns fid = ["family_id"; "genotype_id"] ∧ index fid = index sub
  ∧ get_column "family_id" fid = Some (replicate (length (rows sub)) (CInt 0))
  ∧ get_column "genotype_id" fid = get_column "genotype_id" sub.
Proof.
  unfold family_to_genotype. intros H.
  destruct (loc_cols _ sub) as [d|] eqn:Hd; [|done]. simpl in H.
  apply loc_cols_spec in Hd as (Hc & _ & Hi & Hcol).
  apply insert_front_spec in H as [Hcf Hrf]. rewrite Hc in Hcf.
  split_and!; [done| | |].
  - unfold index in *. rewrite Hrf, <-Hi, <-list_fmap_compose. done.
  - rewrite (get_column_at _ fid 0) by by rewrite Hcf.
    rewrite Hrf, column_at_cons_0. do 2 f_equal.
    by rewrite <-!index_length, Hi.
  - rewrite (get_column_at _ fid 1) by by rewrite Hcf.
    rewrite Hrf, column_at_cons_S. by apply Hcol.
Qed.

(** The outputs of a completed run, as selections of the loaded table by
    one list of kept positions. *)
Lemma start_selection gte_in e_gte_path outdir log gte_df se_df samples
    excluded :
  load_file gte_in None = Some gte_df →
  load_file e_gte_path None = Some se_df →
  get_column "rnaseq_id" gte_df = Some samples →
  get_column "rnaseq_id" se_df = Some excluded →
  run (start (Some gte_in) e_gte_path outdir) = (log, Some ()) →
  ∃ (mask : list bool) (f1 f2 f3 : saved),
    log = [f1; f2; f3]
    ∧ length mask = length (rows gte_df)
    ∧ (∀ i, mask !! i = Some true ↔ ∃ s, samples !! i = Some s ∧ s ∉ excluded)
    ∧ loc_rows mask gte_df = Some (s_df f1)
    ∧ sample_to_dataset (s_df f1) = Some (s_df f2)
    ∧ family_to_genotype (s_df f1) = Some (s_df f3)
    ∧ (s_header f1, s_index f1) = (true, false)
    ∧ (s_header f2, s_index f2) = (true, false)
    ∧ (s_header f3, s_index f3) = (false, false).
Proof.
  intros Hg He Hs Hx Hrun.
  apply start_completed in Hrun
    as (gte_in' & gte_df' & se_df' & sub & std & fid & Hin & Hg' & He' & Hsub
        & Hstd & Hfid & Hlog).
  simplify_eq.
  destruct (remove_samples_spec _ _ _ _ _ Hsub Hs Hx) as (mask & Hlen & Hm & Hloc).
  destruct log as [|f1 [|f2 [|f3 [|]]]]; simplify_eq/=.
  exists mask, f1, f2, f3. split_and!; try done; congruence.
Qed.


(** C9.  GTE filter script: the data lines of the filtered output are rows
    of the input table with all their cells unchanged, taken at strictly
    increasing positions, so in the order of the input; and the three
    outputs have the same number of rows. *)
Theorem filter_gte_rows_unchanged_in_order gte_in e_gte_path outdir log
    gte_df :
  load_file gte_in None = Some gte_df →
  run (start (Some gte_in) e_gte_path outdir) = (log, Some ()) →
  ∃ (kept : list nat) (f1 f2 f3 : saved),
    log = [f1; f2; f3]
    ∧ StronglySorted lt kept
    ∧ content f1
      = (CStr <$> columns gte_df) :: omap (λ i, values gte_df !! i) kept
    ∧ values (s_df f1) `sublist_of` values gte_df
    ∧ nrows (s_df f2) = nrows (s_df f1)
    ∧ nrows (s_df f3) = nrows (s_df f1)
    ∧ length (content f2) = S (nrows (s_df f1))
    ∧ length (content f3) = nrows (s_df f1).
Proof.
  intros Hg Hrun.
  destruct (start_completed _ _ _ _ Hrun)
    as (gte_in' & gte_df' & se_df & sub & std & fid & Hin & Hg' & He & Hsub
        & _).
  simplify_eq.
  assert (∃ samples, get_column "rnaseq_id" gte_df = Some samples)
    as [samples Hs].
  { unfold remove_samples in Hsub.
    destruct (get_column "rnaseq_id" se_df); [|done]. simpl in Hsub.
    destruct (get_column "rnaseq_id" gte_df); [eauto|done]. }
  assert (∃ excluded, get_column "rnaseq_id" se_df = Some excluded)
    as [excluded Hx].
  { unfold remove_samples in Hsub.
    destruct (get_column "rnaseq_id" se_df); [eauto|done]. }
  destruct (start_selection _ _ _ _ _ _ _ _ Hg He Hs Hx Hrun)
    as (mask & f1 & f2 & f3 & -> & Hlen & Hm & Hloc & Hstd & Hfid
        & [= Hh1 Hx1] & [= Hh2 Hx2] & [= Hh3 Hx3]).
  apply sample_to_dataset_spec in Hstd as (_ & Hi2 & _).
  apply family_to_genotype_spec in Hfid as (_ & Hi3 & _).
  pose proof (loc_rows_spec _ _ _ Hloc) as (_ & Hcols & Hrows).
  assert (values (s_df f1) = select mask (values gte_df)) as Hvals.
  { unfold values. by rewrite Hrows, fmap_select. }
  assert (nrows (s_df f2) = nrows (s_df f1)) as Hn2.
  { unfold nrows. by rewrite <-!index_length, Hi2. }
  assert (nrows (s_df f3) = nrows (s_df f1)) as Hn3.
  { unfold nrows. by rewrite <-!index_length, Hi3. }
  exists (kept_from 0 mask), f1, f2, f3. split_and!.
  - done.
  - apply kept_from_sorted.
  - unfold content, to_csv. rewrite Hh1, Hx1, Hcols. simpl. f_equal.
    rewrite <-(select_kept mask (values gte_df)), <-Hvals; [done|].
    unfold values. by rewrite length_fmap.
  - rewrite Hvals. apply select_sublist.
  - done.
  - done.
  - unfold content, to_csv. rewrite Hh2, Hx2. simpl.
    by rewrite length_fmap, <-Hn2.
  - unfold content, to_csv. rewrite Hh3, Hx3. simpl.
    by rewrite length_fmap, <-Hn3.
Qed.

End FilterGteFacts.

(** ** prepare_bios_eqtl_file.py *)

Section PrepareEqtlFacts.
Import Frame Script PrepareEqtl.

Lemma translate_spec (x : string) :
  translate x = if decide (x = "SNP") then "SNPName"
                else if decide (x = "Gene") then "ProbeName" else x.
Proof.
  unfold translate, trans_dict.
  destruct (decide (x = "SNP")) as [->|Hsnp]; [done|].
  rewrite lookup_insert_ne by done.
  destruct (decide (x = "Gene")) as [->|Hgene]; [done|].
  by rewrite lookup_insert_ne, lookup_empty by done.
Qed.

(** C5.  eQTL preparation script: preprocessing always succeeds in renaming
    the columns; the column at every position keeps its place, a column
    named [SNP] is named [SNPName] afterwards, a column named [Gene] is named
    [ProbeName], any other column keeps its name, and the rows are
    untouched. *)
Theorem eqtl_columns_renamed (eqtl_df : DataFrame) :
  ∃ d, rename_columns eqtl_df = Some d
    ∧ rows d = rows eqtl_df
    ∧ length (columns d) = length (columns eqtl_df)
    ∧ ∀ i, columns d !! i
           = (λ c, if decide (c = "SNP") then "SNPName"
                   else if decide (c = "Gene") then "ProbeName" else c)
             <$> columns eqtl_df !! i.
Proof.
  unfold rename_columns, set_columns.
  case_decide as Hlen; [|by rewrite length_fmap in Hlen].
  eexists. split_and!; [done|done|simpl; by rewrite length_fmap|].
  intros i. simpl. rewrite list_lookup_fmap.
  destruct (columns eqtl_df !! i) as [c|]; simpl; [|done].
  by rewrite translate_spec.
Qed.

Lemma as_int_inv (cs : list cell) (zs : list Z) :
  mapM as_int cs = Some zs → cs = CInt <$> zs.
Proof.
  intros H%mapM_Some. induction H as [|c z cs zs Hc _ IH]; [done|].
  destruct c; by simplify_eq/=.
Qed.

Lemma to_numpy_lookup (df : DataFrame) m (i : nat) (r : cell * list cell) :
  to_numpy df = Some m → rows df !! i = Some r →
  ∃ zs, m !! i = Some zs ∧ r.2 = CInt <$> zs.
Proof.
  unfold to_numpy. intros H%mapM_Some Hr.
  destruct (Forall2_lookup_l _ _ _ _ _ H Hr) as (zs & Hzs & Hm).
  exists zs. split; [done|]. by apply as_int_inv.
Qed.

Lemma np_dot_spec (m : list (list Z)) (v ns : list Z) :
  np_dot m v = Some ns → ns = (λ r, Int64.dot r v) <$> m.
Proof. unfold np_dot. case_match; [|done]. by intros [= <-]. Qed.

Lemma count_datasets_steps snps_df d :
  count_datasets snps_df = Some d →
  ∃ m df1 pres m2,
    to_numpy snps_df = Some m
    ∧ set_column "N datasets" ((λ r, CInt (Int64.sum r)) <$> m) snps_df
      = Some df1
    ∧ loc_cols dataset_order df1 = Some pres
    ∧ to_numpy pres = Some m2
    ∧ set_column "N samples"
        (CInt <$> ((λ r, Int64.dot r dataset_sizes) <$> m2)) df1 = Some d.
Proof.
  unfold count_datasets, sum_axis1. intros H.
  destruct (to_numpy snps_df) as [m|] eqn:Hm; [|done]. simpl in H.
  destruct (set_column "N datasets" _ snps_df) as [df1|] eqn:H1; [|done].
  simpl in H.
  destruct (loc_cols dataset_order df1) as [pres|] eqn:Hp; [|done].
  simpl in H.
  destruct (to_numpy pres) as [m2|] eqn:Hm2; [|done]. simpl in H.
  destruct (np_dot m2 dataset_sizes) as [ns|] eqn:Hns; [|done]. simpl in H.
  apply np_dot_spec in Hns as ->.
  by exists m, df1, pres, m2.
Qed.

Lemma dataset_order_not_counts :
  Forall (λ n, n ≠ "N datasets" ∧ n ≠ "N samples") dataset_order.
Proof. unfold dataset_order. repeat constructor; done. Qed.

(** The two count columns, cell by cell, in int64 arithmetic. *)
Lemma count_datasets_cells snps_df d (i : nat) (r : cell * list cell) :
  rectangular snps_df →
  count_datasets snps_df = Some d →
  rows snps_df !! i = Some r →
  ∃ zs present,
    r.2 = CInt <$> zs
    ∧ Forall2 (λ name z, cell_at name i snps_df = Some (CInt z))
        dataset_order present
    ∧ cell_at "N datasets" i d = Some (CInt (Int64.wrap (row_sum zs)))
    ∧ cell_at "N samples" i d
      = Some (CInt (Int64.wrap (dot_product present dataset_sizes))).
Proof.
  intros Hwf Hd Hr.
  apply count_datasets_steps in Hd as (m & df1 & pres & m2 & Hm & H1 & Hp & Hm2 & H2).
  destruct (set_column_spec _ _ _ _ Hwf H1) as (Hwf1 & Hi1 & Hnd & Hother1 & _).
  destruct (set_column_spec _ _ _ _ Hwf1 H2) as (_ & _ & Hns & Hother2 & _).
  destruct (loc_cols_spec _ _ _ Hp) as (Hpc & Hpwf & Hpi & Hpcol).
  destruct (to_numpy_lookup _ _ _ _ Hm Hr) as (zs & Hzs & Hrz).
  assert (∃ b, rows pres !! i = Some b) as [b Hb].
  { apply lookup_lt_is_Some_2. rewrite <-index_length, Hpi, Hi1, index_length.
    by eapply lookup_lt_Some. }
  destruct (to_numpy_lookup _ _ _ _ Hm2 Hb) as (present & Hpresent & Hbz).
  exists zs, present. split_and!.
  - done.
  - apply Forall2_same_length_lookup. split.
    + unfold rectangular in Hpwf. rewrite Forall_forall in Hpwf.
      specialize (Hpwf b (list_elem_of_lookup_2 _ _ _ Hb)). simpl in Hpwf.
      rewrite Hbz, length_fmap, Hpc in Hpwf. done.
    + intros k name z Hname Hz.
      pose proof (proj1 (Forall_forall _ _) dataset_order_not_counts name
                    (list_elem_of_lookup_2 _ _ _ Hname)) as [Hne _].
      unfold cell_at. rewrite <-(Hother1 name Hne), <-(Hpcol k name Hname).
      destruct (column_at_is_Some k (rows pres)) as [col Hcol].
      { eapply Forall_impl; [exact Hpwf|]. intros x Hx. simpl in Hx.
        rewrite Hx, Hpc. by eapply lookup_lt_Some. }
      rewrite Hcol. simpl.
      destruct (column_at_lookup _ _ _ _ _ Hcol Hb) as (c & -> & Hc).
      rewrite Hbz, list_lookup_fmap, Hz in Hc. by simplify_eq/=.
  - unfold cell_at. rewrite (Hother2 "N datasets") by done. rewrite Hnd. simpl.
    rewrite list_lookup_fmap, Hzs. simpl. by rewrite sum_wrap.
  - unfold cell_at. rewrite Hns. simpl.
    rewrite !list_lookup_fmap, Hpresent. simpl. by rewrite dot_wrap.
Qed.

(** C3.  eQTL preparation script: on a presence matrix (every cell 0 or 1)
    the [N datasets] cell of every row is the sum of the row's cells, and
    its [N samples] cell is the dot product of the row's cells in the
    columns [dataset_order], in that order, with [dataset_sizes]; the cohort
    order and the sizes are the two fixed lists of the script. *)
Theorem snp_counts_are_sum_and_dot_product snps_path snps_df d :
  load_file snps_path (Some 0%nat) = Some snps_df →
  count_datasets snps_df = Some d →
  (∀ row c, row ∈ values snps_df → c ∈ row → c = CInt 0 ∨ c = CInt 1) →
  Z.of_nat (length (columns snps_df)) < Int64.half_modulus →
  dataset_order
  = ["RS"; "LL"; "LLS_660Q"; "NTR_AFFY"; "LLS_OmniExpr"; "CODAM"; "PAN";
     "NTR_GONL"; "GONL"]
  ∧ dataset_sizes = [765; 733; 400; 341; 255; 184; 169; 138; 74]
  ∧ ∀ i row, values snps_df !! i = Some row →
      ∃ zs present,
        row = CInt <$> zs
        ∧ Forall2 (λ name z, cell_at name i snps_df = Some (CInt z))
            dataset_order present
        ∧ cell_at "N datasets" i d = Some (CInt (row_sum zs))
        ∧ cell_at "N samples" i d
          = Some (CInt (dot_product present dataset_sizes)).
Proof.
  intros Hload Hd Hpres Hwidth. split; [done|]. split; [done|].
  intros i row Hrow.
  pose proof (read_csv_rectangular _ _ _ Hload) as Hwf.
  unfold values in Hrow. rewrite list_lookup_fmap in Hrow.
  destruct (rows snps_df !! i) as [r|] eqn:Hr; simplify_eq/=.
  destruct (count_datasets_cells _ _ _ _ Hwf Hd Hr)
    as (zs & present & Hzs & Hcells & Hnd & Hns).
  assert (r.2 ∈ values snps_df) as Hin.
  { unfold values. apply list_elem_of_fmap. exists r. split; [done|].
    by eapply list_elem_of_lookup_2. }
  exists zs, present. split_and!; [done|done| |].
  - rewrite Hnd. do 2 f_equal. apply wrap_small.
    assert (Forall (λ z, z = 0 ∨ z = 1) zs) as Hz01.
    { apply Forall_forall. intros z Hz.
      destruct (Hpres r.2 (CInt z) Hin) as [?|?]; [|naive_solver..].
      rewrite Hzs. by apply list_elem_of_fmap_2. }
    pose proof (row_sum_presence zs Hz01) as Hb.
    assert (length zs = length (columns snps_df)) as Hlen.
    { unfold rectangular in Hwf. rewrite Forall_forall in Hwf.
      rewrite <-(Hwf r (list_elem_of_lookup_2 _ _ _ Hr)), Hzs.
      by rewrite length_fmap. }
    unfold Int64.half_modulus in *. lia.
  - rewrite Hns. do 2 f_equal. apply wrap_small.
    assert (Forall (λ z, z = 0 ∨ z = 1) present) as Hz01.
    { apply Forall_forall. intros z Hz.
      apply list_elem_of_lookup in Hz as [k Hz].
      destruct (Forall2_lookup_r _ _ _ _ _ Hcells Hz) as (name & _ & Hc).
      pose proof (cell_at_elem_of _ _ _ _ _ Hc Hr) as Hc'.
      destruct (Hpres r.2 (CInt z) Hin Hc') as [?|?]; naive_solver. }
    assert (Forall (λ s, 0 ≤ s) dataset_sizes) as Hs.
    { unfold dataset_sizes. repeat constructor; done. }
    pose proof (dot_product_presence present dataset_sizes Hz01 Hs) as Hb.
    change (row_sum dataset_sizes) with 3059 in Hb.
    unfold Int64.half_modulus. lia.
Qed.

(** *** The left join *)

Lemma join_row_elem (right : DataFrame) (r o : cell * list cell) (k : cell) :
  o ∈ join_row right r k ↔
  o.1 = r.1
  ∧ ((∃ s, s ∈ rows right ∧ s.1 = k ∧ o.2 = r.2 ++ s.2)
     ∨ ((∀ s, s ∈ rows right → s.1 ≠ k)
        ∧ o.2 = r.2 ++ replicate (length (columns right)) CNull)).
Proof.
  unfold join_row.
  destruct (filter _ (rows right)) as [|x ms] eqn:Hf.
  - assert (∀ s, s ∈ rows right → s.1 ≠ k) as Hnone.
    { intros s Hs Hk.
      assert (s ∈ filter (λ s : cell * list cell, s.1 = k) (rows right)) as Hin
        by by apply list_elem_of_filter.
      rewrite Hf in Hin. by apply elem_of_nil in Hin. }
    rewrite list_elem_of_singleton. destruct o as [l cs]. simpl. split.
    + intros [= -> ->]. split; [done|]. by right.
    + intros [-> [(s & Hs & Hk & _)| [_ ->]]]; [|done].
      by destruct (Hnone s Hs).
  - rewrite <-Hf, list_elem_of_fmap. destruct o as [l cs]. simpl. split.
    + intros (s & [= -> ->] & [Hk Hs]%list_elem_of_filter).
      split; [done|]. left. eauto.
    + intros [-> [(s & Hs & Hk & ->)| [Hnone _]]].
      * exists s. split; [done|]. by apply list_elem_of_filter.
      * assert (x ∈ filter (λ s : cell * list cell, s.1 = k) (rows right))
          as [Hk Hx]%list_elem_of_filter by (rewrite Hf; left).
        by destruct (Hnone x Hx).
Qed.

Lemma join_row_unique (right : DataFrame) (r : cell * list cell) (k : cell) :
  NoDup (index right) → ∃ o, join_row right r k = [o].
Proof.
  unfold join_row, index. intros Hnd.
  destruct (filter _ (rows right)) as [|x [|y ms]] eqn:Hf; [eauto..|].
  exfalso.
  assert (NoDup (fst <$> filter (λ s : cell * list cell, s.1 = k) (rows right)))
    as Hnd'.
  { eapply sublist_NoDup; [exact Hnd|]. apply fmap_sublist, sublist_filter. }
  assert (x.1 = k ∧ y.1 = k) as [Hx Hy].
  { split.
    - assert (x ∈ filter (λ s : cell * list cell, s.1 = k) (rows right))
        as [? _]%list_elem_of_filter by (rewrite Hf; left). done.
    - assert (y ∈ filter (λ s : cell * list cell, s.1 = k) (rows right))
        as [? _]%list_elem_of_filter by (rewrite Hf; right; left). done. }
  rewrite Hf in Hnd'. simpl in Hnd'. rewrite Hx, Hy in Hnd'.
  apply NoDup_cons in Hnd' as [Hnot _]. apply Hnot. left.
Qed.

Lemma merge_spec (left right m : DataFrame) (left_on : string) :
  merge left left_on right = Some m →
  ∃ keys,
    get_column left_on left = Some keys
    ∧ columns m
      = ((λ c, if decide (c ∈ columns right) then c +:+ "_x" else c)
           <$> columns left)
        ++ ((λ c, if decide (c ∈ columns left) then c +:+ "_y" else c)
              <$> columns right)
    ∧ rows m = mjoin (zip_with (join_row right) (rows left) keys).
Proof.
  unfold merge. destruct (get_column left_on left) as [keys|]; [|done].
  intros [= <-]. by exists keys.
Qed.

Lemma merge_rows_elem (left right m : DataFrame) (left_on : string) keys
    (o : cell * list cell) :
  merge left left_on right = Some m →
  get_column left_on left = Some keys →
  o ∈ rows m ↔
  ∃ i r k, rows left !! i = Some r ∧ keys !! i = Some k
           ∧ o ∈ join_row right r k.
Proof.
  intros (keys' & Hk & _ & ->)%merge_spec Hkeys. simplify_eq.
  rewrite list_elem_of_join. split.
  - intros (l & Ho & Hl). apply list_elem_of_lookup in Hl as [i Hl].
    apply lookup_zip_with_Some in Hl as (r & k & -> & Hr & Hk'). eauto 6.
  - intros (i & r & k & Hr & Hk' & Ho). exists (join_row right r k).
    split; [done|]. apply list_elem_of_lookup. exists i.
    apply lookup_zip_with_Some. eauto.
Qed.

Lemma merge_rectangular (left right m : DataFrame) (left_on : string) :
  rectangular left → rectangular right →
  merge left left_on right = Some m → rectangular m.
Proof.
  intros Hl Hr Hm.
  destruct (merge_spec _ _ _ _ Hm) as (keys & Hk & Hc & _).
  unfold rectangular in *. rewrite Forall_forall in Hl, Hr.
  apply Forall_forall. intros o Ho.
  apply (merge_rows_elem _ _ _ _ _ _ Hm Hk) in Ho
    as (i & r & k & Hri & _ & Ho).
  apply join_row_elem in Ho as [_ Ho].
  rewrite Hc, length_app, !length_fmap.
  rewrite <-(Hl r (list_elem_of_lookup_2 _ _ _ Hri)).
  destruct Ho as [(s & Hs & _ & ->)|[_ ->]]; rewrite length_app.
  - by rewrite (Hr s Hs).
  - by rewrite length_replicate.
Qed.

Lemma merge_index (left right m : DataFrame) (left_on : string)
    (n : nat) (o : cell * list cell) keys :
  merge left left_on right = Some m →
  get_column left_on left = Some keys →
  rows m !! n = Some o →
  ∃ i r k, rows left !! i = Some r ∧ keys !! i = Some k
           ∧ o ∈ join_row right r k.
Proof.
  intros Hm Hk Ho. apply (merge_rows_elem _ _ _ _ _ _ Hm Hk).
  by eapply list_elem_of_lookup_2.
Qed.

(** Where a column of the right table ends up when its name does not occur
    on the left and is not a suffixed name. *)
Lemma position_merge (name : string) (left right m : DataFrame)
    (left_on : string) (q : nat) :
  merge left left_on right = Some m →
  name ∉ columns left →
  (∀ c, c +:+ "_x" ≠ name) → (∀ c, c +:+ "_y" ≠ name) →
  position name (columns right) = Some q →
  position name (columns m) = Some (q + length (columns left))%nat.
Proof.
  intros (keys & _ & -> & _)%merge_spec Hnl Hx Hy Hq.
  rewrite position_app_r.
  - rewrite length_fmap.
    assert (position name
              ((λ c, if decide (c ∈ columns left) then c +:+ "_y" else c)
                 <$> columns right) = Some q) as ->; [|done].
    apply position_Some in Hq as [Hq Hmin]. apply position_Some. split.
    + rewrite list_lookup_fmap, Hq. simpl. by rewrite decide_False.
    + intros j Hj. rewrite list_lookup_fmap.
      destruct (columns right !! j) as [c|] eqn:Hc; [|done]. simpl.
      case_decide; intros [= Heq]; [by eapply Hy|].
      subst. by eapply Hmin.
  - apply position_None. intros (c & Hc & Hin)%list_elem_of_fmap.
    case_decide; [by eapply Hx|]. by subst.
Qed.

Lemma suffixed_not_n_datasets (sfx c : string) :
  sfx = "_x" ∨ sfx = "_y" → c +:+ sfx ≠ "N datasets".
Proof.
  intros Hs H.
  do 10 (destruct c as [|? c]; [destruct Hs; subst; done|];
         simpl in H; injection H as _ H).
  destruct c; destruct Hs; subst; done.
Qed.

Lemma suffixed_not_n_samples (sfx c : string) :
  sfx = "_x" ∨ sfx = "_y" → c +:+ sfx ≠ "N samples".
Proof.
  intros Hs H.
  do 9 (destruct c as [|? c]; [destruct Hs; subst; done|];
        simpl in H; injection H as _ H).
  destruct c; destruct Hs; subst; done.
Qed.

(** *** The whole run *)

Lemma rename_columns_eq (eqtl_df : DataFrame) :
  rename_columns eqtl_df
  = Some (mkDF (translate <$> columns eqtl_df) (rows eqtl_df)).
Proof.
  unfold rename_columns, set_columns.
  case_decide as Hlen; [done|]. by rewrite length_fmap in Hlen.
Qed.

Lemma count_datasets_frame snps_df d :
  rectangular snps_df →
  count_datasets snps_df = Some d →
  rectangular d ∧ index d = index snps_df
  ∧ is_Some (get_column "N datasets" d) ∧ is_Some (get_column "N samples" d).
Proof.
  intros Hwf Hd.
  apply count_datasets_steps in Hd
    as (m & df1 & pres & m2 & Hm & H1 & Hp & Hm2 & H2).
  destruct (set_column_spec _ _ _ _ Hwf H1) as (Hwf1 & Hi1 & Hnd & _).
  destruct (set_column_spec _ _ _ _ Hwf1 H2) as (Hwf2 & Hi2 & Hns & Hother & _).
  split_and!; [done|congruence| |by rewrite Hns].
  rewrite (Hother "N datasets") by done. by rewrite Hnd.
Qed.

Lemma read_csv_labels (f : tsv) (df : DataFrame) (n : nat)
    (r : cell * list cell) :
  read_csv f None = Some df → rows df !! n = Some r →
  r.1 = CInt (Z.of_nat n).
Proof.
  unfold read_csv. case_match; [|done]. intros [= <-]. simpl.
  intros (l & cs & -> & Hl & _)%lookup_zip_with_Some. simpl.
  unfold range_index in Hl. rewrite list_lookup_fmap in Hl.
  destruct (seq 0 _ !! n) as [i|] eqn:Hi; simplify_eq/=.
  apply lookup_seq in Hi as [-> _]. done.
Qed.

Lemma eqtl_start_completed eqtl_path snps_path outdir log :
  run (start eqtl_path snps_path outdir) = (log, Some ()) →
  ∃ eqtl0 snps0 snps_df top out,
    load_file eqtl_path None = Some eqtl0
    ∧ load_file snps_path (Some 0%nat) = Some snps0
    ∧ count_datasets snps0 = Some snps_df
    ∧ merge (mkDF (translate <$> columns eqtl0) (rows eqtl0)) "SNPName" snps_df
      = Some top
    ∧ set_column "index" (index top) top = Some out
    ∧ (λ f, (s_df f, s_header f, s_index f)) <$> log = [(out, true, false)].
Proof.
  unfold run, start, save_file, join, mbind, script_bind, lift, emit.
  intros H.
  destruct (load_file eqtl_path None) as [eqtl0|] eqn:He; [|done].
  destruct (load_file snps_path (Some 0%nat)) as [snps0|] eqn:Hs; [|done].
  rewrite rename_columns_eq in H.
  destruct (count_datasets snps0) as [snps_df|] eqn:Hc; [|done].
  destruct (merge _ "SNPName" snps_df) as [top|] eqn:Hm; [|done].
  unfold mbind, option_bind in H.
  destruct (set_column "index" (index top) top) as [out|] eqn:Ho; [|done].
  injection H as <-. by exists eqtl0, snps0, snps_df, top, out.
Qed.

Lemma translate_inv (c name : string) :
  name ≠ "SNPName" → name ≠ "ProbeName" → translate c = name → c = name.
Proof.
  intros H1 H2. rewrite translate_spec. repeat case_decide; congruence.
Qed.

(** The cell of a column of the SNP table in a row of the joined table. *)
Lemma joined_cell (name : string) (left right top out : DataFrame)
    (n : nat) (r o : cell * list cell) :
  rectangular left → rectangular right →
  merge left "SNPName" right = Some top →
  set_column "index" (index top) top = Some out →
  name ≠ "index" → name ∉ columns left →
  (∀ c, c +:+ "_x" ≠ name) → (∀ c, c +:+ "_y" ≠ name) →
  is_Some (get_column name right) →
  rows top !! n = Some o → r ∈ rows left →
  (∀ j s, rows right !! j = Some s → o.2 = r.2 ++ s.2 →
          cell_at name n out = cell_at name j right)
  ∧ (o.2 = r.2 ++ replicate (length (columns right)) CNull →
     cell_at name n out = Some CNull).
Proof.
  intros Hwl Hwr Hm Ho Hni Hnl Hx Hy [col Hcol] Hn Hr.
  pose proof (merge_rectangular _ _ _ _ Hwl Hwr Hm) as Hwt.
  destruct (set_column_spec _ _ _ _ Hwt Ho) as (_ & _ & _ & Hother & _).
  apply get_column_position in Hcol as (q & Hq & _).
  pose proof (position_merge _ _ _ _ _ _ Hm Hnl Hx Hy Hq) as Hpos.
  assert (cell_at name n out = o.2 !! (q + length (columns left))%nat) as ->.
  { unfold cell_at. rewrite (Hother name Hni).
    by apply (cell_at_row name _ n top o). }
  assert (length r.2 = length (columns left)) as Hlen.
  { unfold rectangular in Hwl. rewrite Forall_forall in Hwl. by apply Hwl. }
  split.
  - intros j s Hs ->. rewrite lookup_app_r, Hlen by lia.
    replace (q + length (columns left) - length (columns left))%nat with q
      by lia.
    symmetry. by apply cell_at_row.
  - intros ->. rewrite lookup_app_r, Hlen by lia.
    replace (q + length (columns left) - length (columns left))%nat with q
      by lia.
    apply lookup_replicate_2. by eapply position_lt.
Qed.



End PrepareEqtlFacts.

(** ** visualiser.py *)

Section VisualiserFacts.
Import Script Visualiser.

Context {R : Type} `{EqDecision R}.
Variable of_Z : Z → R.
Variable mul : R → R → R.
Variable round0 : R → R.
Variable isnan : R → bool.
Variable calc_vertex_xpos : R → R → R.
Variable calc_pearsonr : list R → list R → R.
Variable fit_and_predict : list (list R) → list R → list R.
Variable spearmanr : list R → list R → R.

Lemma broadcast_length (n : nat) (v : ndarray) (vals : list R) :
  broadcast n v = Some vals → length vals = n.
Proof.
  destruct v as [a|l]; simpl.
  - intros [= <-]. by rewrite length_replicate.
  - case_decide; [by intros [= <-]|].
    destruct l as [|a [|]]; try done. intros [= <-].
    by rewrite length_replicate.
Qed.

Lemma set_matrix_column_spec (j : nat) (v : ndarray) (M M' : list (list R)) :
  set_matrix_column j v M = Some M' →
  ∃ vals,
    broadcast (length M) v = Some vals
    ∧ length M' = length M
    ∧ column j M' = Some vals
    ∧ ∀ j', j' ≠ j → column j' M' = column j' M.
Proof.
  unfold set_matrix_column. intros H.
  destruct (column j M) as [old|] eqn:Hold; [|done]. simpl in H.
  destruct (broadcast (length M) v) as [vals|] eqn:Hv; [|done].
  simplify_eq/=. pose proof (broadcast_length _ _ _ Hv) as Hlen.
  exists vals. split_and!; [done| | |].
  - rewrite length_zip_with. lia.
  - unfold column in *. apply mapM_Some. apply mapM_Some in Hold.
    apply Forall2_same_length_lookup. split; [rewrite length_zip_with; lia|].
    intros i x a Hx Ha.
    apply lookup_zip_with_Some in Hx as (r & a' & -> & Hr & Ha').
    simplify_eq. apply list_lookup_insert_eq.
    destruct (Forall2_lookup_l _ _ _ _ _ Hold Hr) as (c & _ & Hc).
    by eapply lookup_lt_Some.
  - intros j' Hne. unfold column. apply Forall2_mapM_ext.
    apply Forall2_same_length_lookup. split; [rewrite length_zip_with; lia|].
    intros i x r Hx Hr.
    apply lookup_zip_with_Some in Hx as (r' & a' & -> & Hr' & Ha').
    simplify_eq. by apply list_lookup_insert_ne.
Qed.

Lemma column_length (j : nat) (M : list (list R)) (col : list R) :
  column j M = Some col → length col = length M.
Proof. intros H. symmetry. by eapply length_mapM. Qed.

(** C6.  Visualiser.plot: in the design matrix of the optimized fit every
    column but the covariate column (2) and the interaction column (3) is
    that of the starting design matrix, so the intercept (0) and the
    genotype (1) are; the covariate column is the optimized covariate
    broadcast over the rows, which is the given array restricted by the
    model's mask, or else the vertex position computed from the model's two
    coefficients; the interaction column is the elementwise product of the
    genotype and the new covariate; and the explained variance of the
    optimized fit is computed, from the new matrix, exactly when an array
    was given. *)
Theorem optimized_design_matrix (ieqtl : ieqtl_model) (ocf : option (list R))
    (f : fits) :
  fit mul calc_vertex_xpos calc_pearsonr fit_and_predict ieqtl ocf = Some f →
  (∀ j, j ≠ 2%nat → j ≠ 3%nat → column j (X_opt f) = column j (X ieqtl))
  ∧ (∃ genotype covariate,
       column 1 (X_opt f) = Some genotype
       ∧ column 2 (X_opt f) = Some covariate
       ∧ broadcast (length (X ieqtl))
           match ocf with
           | Some a => Array (Frame.select (mask ieqtl) a)
           | None => Scalar (calc_vertex_xpos (mll_coef_representation ieqtl).1
                                              (mll_coef_representation ieqtl).2)
           end = Some covariate
       ∧ column 3 (X_opt f) = Some (zip_with mul genotype covariate))
  ∧ (is_Some (r_squared_opt f) ↔ is_Some ocf)
  ∧ (∀ rs, r_squared_opt f = Some rs →
       let p := calc_pearsonr (y ieqtl) (fit_and_predict (X_opt f) (y ieqtl)) in
       rs = mul p p).
Proof.
  unfold fit. intros H.
  destruct (derive_ocf calc_vertex_xpos ieqtl ocf) as [[[solo ci] v]|] eqn:Hd;
    [|done].
  simpl in H.
  destruct (build_X_opt mul (X ieqtl) v) as [Xo|] eqn:Hb; [|done].
  simplify_eq/=.
  unfold build_X_opt in Hb.
  destruct (set_matrix_column 2 v (X ieqtl)) as [X1|] eqn:H1; [|done].
  simpl in Hb.
  destruct (column 1 X1) as [genotype|] eqn:Hg; [|done]. simpl in Hb.
  destruct (column 2 X1) as [covariate|] eqn:Hc; [|done]. simpl in Hb.
  apply set_matrix_column_spec in H1 as (vals & Hv & Hlen1 & Hcol2 & Hother1).
  apply set_matrix_column_spec in Hb as (vals3 & Hv3 & Hlen3 & Hcol3 & Hother3).
  rewrite Hc in Hcol2. simplify_eq.
  assert (vals3 = zip_with mul genotype vals) as ->.
  { simpl in Hv3. rewrite decide_True in Hv3; [by simplify_eq|].
    rewrite length_zip_with, (column_length _ _ _ Hg), (column_length _ _ _ Hc).
    lia. }
  assert (v = match ocf with
              | Some a => Array (Frame.select (mask ieqtl) a)
              | None => Scalar (calc_vertex_xpos (mll_coef_representation ieqtl).1
                                                 (mll_coef_representation ieqtl).2)
              end ∧ solo = match ocf with Some _ => false | None => true end)
    as [-> ->].
  { unfold derive_ocf, mask_select in Hd. destruct ocf as [a|].
    - case_decide; by simplify_eq/=.
    - destruct (mll_coef_representation ieqtl). by simplify_eq/=. }
  split_and!.
  - intros j Hj2 Hj3. by rewrite Hother3, Hother1.
  - exists genotype, vals. split_and!; [|by rewrite Hother3|done|done].
    by rewrite Hother3.
  - unfold r_squared_of. destruct ocf; simpl; split; intros []; by eauto.
  - unfold r_squared_of. destruct ocf; simpl; intros rs [= <-]. done.
Qed.

Lemma elem_of_unique {A} `{EqDecision A} (l : list A) (x : A) :
  x ∈ OverviewLineplot.unique l ↔ x ∈ l.
Proof.
  unfold OverviewLineplot.unique.
  by rewrite elem_of_reverse, elem_of_remove_dups, elem_of_reverse.
Qed.

Lemma symmetric_difference_nil (a b : list R) :
  symmetric_difference a b = [] → ∀ v, v ∈ a ↔ v ∈ b.
Proof.
  unfold symmetric_difference. intros [Ha Hb]%app_eq_nil v.
  split; intros Hv.
  - destruct (decide (v ∈ b)) as [|Hn]; [done|].
    assert (v ∈ filter (λ v, v ∉ b) (remove_dups a)) as Hin.
    { apply list_elem_of_filter. split; [done|]. by apply elem_of_remove_dups. }
    rewrite Ha in Hin. by apply elem_of_nil in Hin.
  - destruct (decide (v ∈ a)) as [|Hn]; [done|].
    assert (v ∈ filter (λ v, v ∉ a) (remove_dups b)) as Hin.
    { apply list_elem_of_filter. split; [done|]. by apply elem_of_remove_dups. }
    rewrite Hb in Hin. by apply elem_of_nil in Hin.
Qed.

(** C8.  Visualiser.inter_plot: when the values of the group column are
    not exactly 0, 1 and 2, the call returns normally and leaves the log of
    drawing operations and printed output as it found it: no regression, no
    annotation, no title, no axis label, no message. *)
Theorem inter_plot_skips_other_groups (ax : axis) (df : frame)
    (x y group : string) (ci : option Z) (fdr : option R)
    (xlabel ylabel : string) (rsquared : option R) (title : string)
    (groups : list R) (log : list event) :
  get group df = Some groups →
  ¬ (∀ v, v ∈ groups ↔ v ∈ [of_Z 0; of_Z 1; of_Z 2]) →
  inter_plot of_Z isnan spearmanr ax df x y group ci fdr xlabel ylabel
    rsquared title log
  = (log, Some ()).
Proof.
  intros Hg Hne. unfold inter_plot, mbind, script_bind, lift.
  rewrite Hg. case_decide as Hlen; [done|].
  exfalso. apply Hne. intros v. rewrite <-elem_of_unique.
  apply symmetric_difference_nil.
  destruct (symmetric_difference _ _); [done|]. simpl in Hlen. lia.
Qed.

End VisualiserFacts.

(** ** overview_lineplot.py *)

Section OverviewLineplotFacts.
Import Frame Script OverviewLineplot.

Variable log10 : cell → option cell.

Lemma prefix_spec (needle hay : string) :
  String.prefix needle hay = true ↔ ∃ post, hay = needle +:+ post.
Proof.
  revert hay. induction needle as [|a needle IH]; intros hay; simpl.
  - split; [intros _; by exists hay|by destruct hay].
  - destruct hay as [|b hay].
    + split; [done|]. by intros [post ?].
    + simpl. destruct (ascii_dec a b) as [->|Hne].
      * rewrite IH. split; intros [post Hp]; exists post.
        -- by rewrite Hp.
        -- by injection Hp.
      * split; [done|]. intros [post [= ? _]]. by subst.
Qed.

Lemma contains_spec (needle hay : string) :
  contains needle hay = true ↔ ∃ pre post, hay = pre +:+ needle +:+ post.
Proof.
  induction hay as [|c hay IH].
  - change (contains needle EmptyString)
      with (String.prefix needle EmptyString || false).
    rewrite orb_true_iff, prefix_spec. split.
    + intros [[post Hp]|?]; [|done]. by exists EmptyString, post.
    + intros (pre & post & Hp). left. exists post.
      destruct pre; [done|discriminate].
  - change (contains needle (String c hay))
      with (String.prefix needle (String c hay) || contains needle hay).
    rewrite orb_true_iff, prefix_spec, IH. split.
    + intros [[post Hp]|(pre & post & Hp)].
      * by exists EmptyString, post.
      * exists (String c pre), post. simpl. by rewrite Hp.
    + intros ([|c' pre] & post & Hp); simpl in Hp.
      * left. eauto.
      * right. injection Hp as -> ->. eauto.
Qed.

Lemma lineplot_run df_m x y hue pal title xlabel ylabel filename info outdir
    (lg lg' : list figure) :
  lineplot df_m x y hue pal title xlabel ylabel filename info outdir lg
  = (lg', Some ()) →
  ∃ fig, lg' = lg ++ [fig] ∧ f_y fig = y ∧ f_ylabel fig = ylabel
         ∧ f_outpath fig
           = match outdir with
             | Some d => path_join d (filename +:+ ".png")
             | None => filename +:+ ".png"
             end.
Proof.
  unfold lineplot, mbind, script_bind, lift, emit.
  destruct (get_column x df_m); [|done].
  destruct (get_column y df_m); [|done].
  destruct (get_column hue df_m); [|done].
  destruct (match pal with Some _ => _ | None => _ end); [|done].
  intros [= <-]. eexists. split; [done|]. done.
Qed.

Lemma plot_variable_run df_m info outdir v (lg lg' : list figure) :
  plot_variable df_m info outdir v lg = (lg', Some ()) →
  ∃ new, lg' = lg ++ new ∧ variable_figures outdir v new.
Proof.
  unfold plot_variable.
  unfold mbind at 1, script_bind at 1, lift at 1.
  destruct (get_column "variable" df_m) as [variables|]; [|done].
  unfold mbind at 1, script_bind at 1, lift at 1.
  destruct (loc_rows _ df_m) as [subset|]; [|done].
  unfold mbind at 1, script_bind at 1, lift at 1.
  destruct (if decide (v = CStr "Overlap %") then _ else _)
    as [subset'|]; [|done].
  unfold mbind at 1, script_bind at 1, lift at 1.
  destruct (as_str v) as [name|] eqn:Hname; [|done].
  destruct v; simplify_eq/=.
  unfold mbind at 1, script_bind at 1.
  destruct (lineplot _ _ _ _ _ _ _ _ _ _ _ lg) as [lg2 [[]|]] eqn:H1; [|done].
  apply lineplot_run in H1 as (fig1 & -> & Hy1 & Hl1 & _).
  destruct (contains "Likelihood" name) eqn:Hc.
  - intros H2. apply lineplot_run in H2 as (fig2 & -> & Hy2 & Hl2 & Hp2).
    exists [fig1; fig2]. split; [by rewrite <-app_assoc|].
    exists name, fig1. split_and!; [done..|]. left. split; [done|].
    by exists fig2.
  - intros [= <-]. exists [fig1]. split; [done|].
    exists name, fig1. split_and!; [done..|]. by right.
Qed.

Lemma for_each_run {A} (body : A → script figure ()) (P : A → list figure → Prop)
    (xs : list A) (lg lg' : list figure) :
  (∀ x l l', body x l = (l', Some ()) → ∃ new, l' = l ++ new ∧ P x new) →
  for_each body xs lg = (lg', Some ()) →
  ∃ news, lg' = lg ++ mjoin news ∧ Forall2 P xs news.
Proof.
  intros Hbody. revert lg.
  induction xs as [|x xs IH]; intros lg; simpl.
  - intros [= <-]. exists []. by rewrite app_nil_r.
  - unfold mbind, script_bind.
    destruct (body x lg) as [l1 [[]|]] eqn:Hx; [|done].
    apply Hbody in Hx as (new & -> & HP).
    intros (news & -> & Hnews)%IH.
    exists (new :: news). simpl. rewrite <-app_assoc. split; [done|].
    by constructor.
Qed.

Lemma start_figures indir_file outdir figs :
  run (start log10 indir_file outdir) = (figs, Some ()) →
  ∃ df_m variables news,
    long_form log10 indir_file = Some df_m
    ∧ get_column "variable" df_m = Some variables
    ∧ figs = mjoin news
    ∧ Forall2 (variable_figures outdir) (unique variables) news.
Proof.
  unfold run, start, long_form.
  unfold mbind at 1, script_bind at 1, lift at 1.
  destruct (foldl _ _ _) as [loaded|]; [|done].
  unfold mbind at 1, script_bind at 1, lift at 1. simpl.
  destruct (merge_data log10 loaded.2) as [df_m|]; [|done].
  unfold mbind at 1, script_bind at 1, lift at 1.
  destruct (get_column "variable" df_m) as [variables|] eqn:Hv; [|done].
  intros Hrun.
  apply (for_each_run _ (variable_figures outdir)) in Hrun
    as (news & -> & Hnews).
  - by exists df_m, variables, news.
  - intros x l l' Hx. by eapply plot_variable_run.
Qed.


End OverviewLineplotFacts.


(** * Further properties of the scripts *)

(** ** filter_gte_file.py: failures and what is left behind *)

Section FilterGteRuns.
Import Frame Script FilterGte.

Lemma select_all {A} (mask : list bool) (l : list A) :
  length mask = length l → Forall (λ b, b = true) mask → select mask l = l.
Proof.
  intros Hlen Hall. revert l Hlen.
  induction Hall as [|b mask -> _ IH]; intros [|x l] Hlen; simplify_eq/=;
    [done|]. by rewrite IH.
Qed.

Lemma select_not_excluded (remove : gset cell) (samples : list cell) :
  Forall (λ s, s ∉ remove)
    (select ((λ s, if decide (s ∈ remove) then false else true) <$> samples)
            samples).
Proof.
  induction samples as [|s samples IH]; simpl; [constructor|].
  case_decide; [done|by constructor].
Qed.

Lemma select_length_eq {A B} (mask : list bool) (l : list A) (k : list B) :
  length l = length k → length (select mask l) = length (select mask k).
Proof.
  revert l k. induction mask as [|[] mask IH]; intros [|x l] [|y k] Hlen;
    simplify_eq/=; auto.
Qed.

Lemma loc_rows_all (mask : list bool) (df : DataFrame) :
  length mask = length (rows df) → Forall (λ b, b = true) mask →
  loc_rows mask df = Some df.
Proof.
  intros Hlen Hall. unfold loc_rows. rewrite decide_True by done.
  rewrite select_all by done. by destruct df.
Qed.

(** X1.  The three files are written in a fixed order, and a run that
    fails leaves the files written before the failure: the paths written
    are always an initial part of the three paths, and the run completes
    exactly when all three are there. *)
Theorem filter_gte_writes_a_prefix gte_path e_gte_path outdir :
  let res := run (start gte_path e_gte_path outdir) in
  s_outpath <$> res.1
    `prefix_of` [path_join outdir "GenotypeToExpression.txt.gz";
                 path_join outdir "SampleToDataset.txt.gz";
                 path_join outdir "FamilyToGenotype.txt"]
  ∧ (res.2 = Some () ↔ length res.1 = 3%nat).
Proof.
  unfold run, start, save_file, mbind, script_bind, lift, emit. simpl.
  destruct gte_path as [gte_in|]; [|by split; [apply prefix_nil|]].
  destruct (load_file gte_in None); [|by split; [apply prefix_nil|]].
  destruct (load_file e_gte_path None); [|by split; [apply prefix_nil|]].
  destruct (get_column "dataset" _); [|by split; [apply prefix_nil|]].
  destruct (remove_samples _ _) as [sub|]; [|by split; [apply prefix_nil|]].
  destruct (sample_to_dataset sub); simpl.
  - destruct (family_to_genotype sub); simpl.
    + split; [done|done].
    + split; [|done]. by eexists [_].
  - split; [|done]. by eexists [_; _].
Qed.

(** X2.  Nothing is written unless the GTE path is given, both tables load,
    the exclusion table has the columns [dataset] and [rnaseq_id] and the
    GTE table has the column [rnaseq_id]: the [dataset] column of the
    exclusion table is needed although only its [rnaseq_id] values are used
    for the filter. *)
Theorem filter_gte_writes_only_with_columns gte_path e_gte_path outdir log r :
  run (start gte_path e_gte_path outdir) = (log, r) →
  log ≠ [] →
  ∃ gte_in gte_df se_df,
    gte_path = Some gte_in
    ∧ load_file gte_in None = Some gte_df
    ∧ load_file e_gte_path None = Some se_df
    ∧ is_Some (get_column "dataset" se_df)
    ∧ is_Some (get_column "rnaseq_id" se_df)
    ∧ is_Some (get_column "rnaseq_id" gte_df).
Proof.
  unfold run, start, save_file, mbind, script_bind, lift, emit.
  destruct gte_path as [gte_in|]; [|by intros [= <- _]].
  destruct (load_file gte_in None) as [gte_df|] eqn:Hg; [|by intros [= <- _]].
  destruct (load_file e_gte_path None) as [se_df|] eqn:He;
    [|by intros [= <- _]].
  destruct (get_column "dataset" se_df) eqn:Hd; [|by intros [= <- _]].
  destruct (remove_samples gte_df se_df) as [sub|] eqn:Hsub;
    [|by intros [= <- _]].
  intros _ _. exists gte_in, gte_df, se_df. split_and!; [done..| |].
  - unfold remove_samples in Hsub.
    destruct (get_column "rnaseq_id" se_df); [eauto|done].
  - unfold remove_samples in Hsub.
    destruct (get_column "rnaseq_id" se_df); [|done]. simpl in Hsub.
    destruct (get_column "rnaseq_id" gte_df); [eauto|done].
Qed.

(** X3.  A GTE table without a [dataset] column: the filtered table is
    written, then the run fails on the sample-to-dataset table, so exactly
    one file is left. *)
Theorem filter_gte_without_dataset_column gte_in e_gte_path outdir gte_df
    se_df sub :
  load_file gte_in None = Some gte_df →
  load_file e_gte_path None = Some se_df →
  is_Some (get_column "dataset" se_df) →
  remove_samples gte_df se_df = Some sub →
  "dataset" ∉ columns gte_df →
  ∃ f1,
    run (start (Some gte_in) e_gte_path outdir) = ([f1], None)
    ∧ s_df f1 = sub
    ∧ s_outpath f1 = path_join outdir "GenotypeToExpression.txt.gz".
Proof.
  intros Hg He [ds Hd] Hsub Hno.
  unfold run, start, save_file, mbind, script_bind, lift, emit.
  rewrite Hg, He, Hd, Hsub.
  assert (sample_to_dataset sub = None) as ->.
  { unfold sample_to_dataset, loc_cols.
    assert (columns sub = columns gte_df) as Hc.
    { unfold remove_samples in Hsub.
      destruct (get_column "rnaseq_id" se_df); [|done]. simpl in Hsub.
      destruct (get_column "rnaseq_id" gte_df); [|done]. simpl in Hsub.
      by apply loc_rows_spec in Hsub as (_ & ? & _). }
    apply position_None in Hno. rewrite <-Hc in Hno.
    cbn [mapM]. rewrite Hno.
    destruct (position "rnaseq_id" (columns sub)); done. }
  eexists. split_and!; done.
Qed.

(** X4.  An exclusion table without rows removes nothing: the filtered
    table is the GTE table itself. *)
Theorem filter_gte_empty_exclusion gte_df se_df :
  get_column "rnaseq_id" se_df = Some [] →
  is_Some (get_column "rnaseq_id" gte_df) →
  remove_samples gte_df se_df = Some gte_df.
Proof.
  intros He [samples Hs]. unfold remove_samples. rewrite He, Hs. simpl.
  apply loc_rows_all.
  - rewrite length_fmap. by eapply get_column_length.
  - apply Forall_fmap, Forall_true. intros s. simpl.
    case_decide as Hin; [|done]. by apply not_elem_of_empty in Hin.
Qed.

(** X5.  Filtering is idempotent: filtering the filtered table with the
    same exclusion table gives it back. *)
Theorem filter_gte_idempotent gte_df se_df sub :
  remove_samples gte_df se_df = Some sub →
  remove_samples sub se_df = Some sub.
Proof.
  unfold remove_samples. intros H.
  destruct (get_column "rnaseq_id" se_df) as [excluded|]; [|done].
  simpl in *.
  destruct (get_column "rnaseq_id" gte_df) as [samples|] eqn:Hs; [|done].
  simpl in *.
  rewrite (get_column_loc_rows _ _ _ _ _ H Hs). simpl.
  apply loc_rows_spec in H as (Hlen & _ & Hrows).
  apply loc_rows_all.
  - rewrite length_fmap, Hrows. apply select_length_eq.
    by eapply get_column_length.
  - rewrite Forall_fmap.
    eapply Forall_impl; [apply select_not_excluded|].
    intros s Hs'. simpl. by rewrite decide_False.
Qed.

Lemma values_one_column (body : list (cell * list cell)) (c0 : list cell) :
  Forall (λ r : cell * list cell, length r.2 = 1%nat) body →
  column_at 0 body = Some c0 →
  snd <$> body = (λ g, [g]) <$> c0.
Proof.
  unfold column_at. intros Hw H%mapM_Some. revert Hw.
  induction H as [|[l cs] g body c0 Hg _ IH]; intros Hw; [done|].
  apply Forall_cons in Hw as [Hlen Hw]. rewrite !fmap_cons, (IH Hw).
  simpl in Hlen, Hg. by destruct cs as [|c [|]]; simplify_eq/=.
Qed.

Lemma values_two_columns (body : list (cell * list cell)) (c0 c1 : list cell) :
  Forall (λ r : cell * list cell, length r.2 = 2%nat) body →
  column_at 0 body = Some c0 → column_at 1 body = Some c1 →
  snd <$> body = zip_with (λ a b, [a; b]) c0 c1.
Proof.
  unfold column_at. intros Hw H0%mapM_Some H1%mapM_Some. revert c1 H1 Hw.
  induction H0 as [|[l cs] a body c0 Ha _ IH]; intros c1 H1 Hw.
  - by apply Forall2_nil_inv_l in H1 as ->.
  - apply Forall2_cons_inv_l in H1 as (b & c1' & Hb & H1 & ->).
    apply Forall_cons in Hw as [Hlen Hw].
    rewrite fmap_cons, (IH c1' H1 Hw). simpl in Hlen, Ha, Hb.
    by destruct cs as [|x [|y [|]]]; simplify_eq/=.
Qed.

(** X6.  What the two derived files hold: the sample-to-dataset file is the
    header [sample], [dataset] followed by the [rnaseq_id] and [dataset]
    cells of the retained rows, and the family-to-genotype file has no
    header and, per retained row, the family id 0 and the [genotype_id]. *)
Theorem filter_gte_derived_files gte_path e_gte_path outdir f1 f2 f3 :
  run (start gte_path e_gte_path outdir) = ([f1; f2; f3], Some ()) →
  ∃ samples datasets genotypes,
    get_column "rnaseq_id" (s_df f1) = Some samples
    ∧ get_column "dataset" (s_df f1) = Some datasets
    ∧ get_column "genotype_id" (s_df f1) = Some genotypes
    ∧ content f2
      = [CStr "sample"; CStr "dataset"]
        :: zip_with (λ s d, [s; d]) samples datasets
    ∧ content f3 = (λ g, [CInt 0; g]) <$> genotypes.
Proof.
  intros (gte_in & gte_df & se_df & sub & std & fid & _ & _ & _ & _ & Hstd
          & Hfid & Hlog)%start_completed.
  injection Hlog as <- Hh1 Hx1 <- Hh2 Hx2 <- Hh3 Hx3.
  unfold sample_to_dataset in Hstd.
  destruct (loc_cols _ (s_df f1)) as [d2|] eqn:Hd2; [|done]. simpl in Hstd.
  unfold set_columns in Hstd. case_decide; [|done].
  injection Hstd as Hstd.
  unfold family_to_genotype in Hfid.
  destruct (loc_cols ["genotype_id"] (s_df f1)) as [d1|] eqn:Hd1; [|done].
  simpl in Hfid.
  apply insert_front_spec in Hfid as [_ Hrows3].
  apply loc_cols_spec in Hd2 as (Hc2 & Hw2 & _ & Hcol2).
  apply loc_cols_spec in Hd1 as (Hc1 & Hw1 & _ & Hcol1).
  unfold rectangular in Hw1, Hw2. rewrite Hc1 in Hw1. rewrite Hc2 in Hw2.
  destruct (column_at_is_Some 0 (rows d2)) as [samples Hs].
  { eapply Forall_impl; [exact Hw2|]. intros r Hr. simpl in *. lia. }
  destruct (column_at_is_Some 1 (rows d2)) as [datasets Hds].
  { eapply Forall_impl; [exact Hw2|]. intros r Hr. simpl in *. lia. }
  destruct (column_at_is_Some 0 (rows d1)) as [genotypes Hgs].
  { eapply Forall_impl; [exact Hw1|]. intros r Hr. simpl in *. lia. }
  exists samples, datasets, genotypes. split_and!.
  - by rewrite <-(Hcol2 0%nat "rnaseq_id").
  - by rewrite <-(Hcol2 1%nat "dataset").
  - by rewrite <-(Hcol1 0%nat "genotype_id").
  - unfold content, to_csv. rewrite Hh2, Hx2, <-Hstd. simpl. f_equal.
    by apply values_two_columns.
  - unfold content, to_csv. rewrite Hh3, Hx3, Hrows3. simpl.
    transitivity ((λ cs, CInt 0 :: cs) <$> (snd <$> rows d1)).
    { rewrite <-!list_fmap_compose. by apply list_fmap_ext. }
    rewrite (values_one_column (rows d1) genotypes Hw1 Hgs).
    by rewrite <-list_fmap_compose.
Qed.

End FilterGteRuns.


(** ** Paths and compression of the files written *)

Section SavedFiles.
Import Frame Script.

Lemma string_length_app (a b : string) :
  String.length (a +:+ b) = (String.length a + String.length b)%nat.
Proof. induction a as [|c a IH]; simpl; [done|]. by rewrite IH. Qed.

Lemma substring_skip (a b : string) (n m : nat) :
  String.substring (String.length a + n) m (a +:+ b) = String.substring n m b.
Proof. induction a as [|c a IH]; simpl; [done|]. apply IH. Qed.

(** Whether a path ends with a suffix is decided by its last component,
    when that is at least as long as the suffix. *)
Lemma endswith_app (a b sfx : string) :
  (String.length sfx ≤ String.length b)%nat →
  endswith (a +:+ b) sfx = endswith b sfx.
Proof.
  intros Hlen. unfold endswith. rewrite string_length_app.
  replace (String.length a + String.length b - String.length sfx)%nat
    with (String.length a + (String.length b - String.length sfx))%nat by lia.
  rewrite substring_skip. f_equal.
  apply bool_decide_ext. lia.
Qed.

Lemma string_app_assoc (a b c : string) : (a +:+ b) +:+ c = a +:+ (b +:+ c).
Proof.
  induction a as [|x a IH]; [done|].
  change (String x ((a +:+ b) +:+ c) = String x (a +:+ (b +:+ c))).
  by rewrite IH.
Qed.

(** [os.path.join] keeps a relative last component at the end of the path. *)
Lemma path_join_relative (a b : string) :
  String.prefix "/" b = false → ∃ x, path_join a b = x +:+ b.
Proof.
  intros Hb. unfold path_join. rewrite Hb.
  destruct (String.eqb a EmptyString || endswith a "/").
  - by exists a.
  - exists (a +:+ "/"). symmetry. apply string_app_assoc.
Qed.

Lemma endswith_path_join (a b sfx : string) :
  String.prefix "/" b = false →
  (String.length sfx ≤ String.length b)%nat →
  endswith (path_join a b) sfx = endswith b sfx.
Proof.
  intros Hb Hlen. destruct (path_join_relative a b Hb) as [x ->].
  by apply endswith_app.
Qed.

(** X7.  Whatever the output directory is called, the filter script writes
    its first two files gzip-compressed and the family-to-genotype file
    uncompressed, and the eQTL script writes its file gzip-compressed: the
    compression follows the fixed file names, never the directory. *)
Theorem compression_independent_of_outdir :
  (∀ gte_path e_gte_path outdir,
     s_compression <$> (run (FilterGte.start gte_path e_gte_path outdir)).1
       `prefix_of` ["gzip"; "gzip"; "infer"])
  ∧ (∀ eqtl_path snps_path outdir,
       s_compression <$> (run (PrepareEqtl.start eqtl_path snps_path outdir)).1
         `prefix_of` ["gzip"]).
Proof.
  split.
  - intros gte_path e_gte_path outdir.
    unfold run, FilterGte.start, FilterGte.save_file, mbind, script_bind,
      lift, emit.
    rewrite !endswith_path_join by (done || (simpl; lia)).
    change (endswith "GenotypeToExpression.txt.gz" ".gz") with true.
    change (endswith "SampleToDataset.txt.gz" ".gz") with true.
    change (endswith "FamilyToGenotype.txt" ".gz") with false.
    destruct gte_path as [gte_in|]; [|apply prefix_nil].
    destruct (FilterGte.load_file gte_in None); [|apply prefix_nil].
    destruct (FilterGte.load_file e_gte_path None); [|apply prefix_nil].
    destruct (get_column "dataset" _); [|apply prefix_nil].
    destruct (FilterGte.remove_samples _ _) as [sub|]; [|apply prefix_nil].
    destruct (FilterGte.sample_to_dataset sub); simpl.
    + destruct (FilterGte.family_to_genotype sub); simpl; [done|].
      by eexists [_].
    + by eexists [_; _].
  - intros eqtl_path snps_path outdir.
    unfold run, PrepareEqtl.start, PrepareEqtl.save_file, mbind, script_bind,
      lift, emit.
    rewrite !endswith_path_join by (done || (simpl; lia)).
    change (endswith "BIOS_eQTLProbesFDR0.05-ProbeLevel.txt.gz" ".gz")
      with true.
    destruct (PrepareEqtl.load_file eqtl_path None); [|apply prefix_nil].
    destruct (PrepareEqtl.load_file snps_path _); [|apply prefix_nil].
    destruct (PrepareEqtl.rename_columns _); [|apply prefix_nil].
    destruct (PrepareEqtl.count_datasets _); [|apply prefix_nil].
    destruct (PrepareEqtl.join _ _); [|apply prefix_nil].
    done.
Qed.

(** X8.  The output directory of the filter script: an absolute [-o]
    argument is used as it is, and the script's own location is ignored;
    a relative one names a directory below [filter_gte_file] in the
    script's grandparent directory. *)
Theorem filter_gte_outdir (base outdir : string) :
  FilterGte.init_outdir base outdir
  = if String.prefix "/" outdir then outdir
    else path_join base "filter_gte_file" +:+ "/" +:+ outdir.
Proof.
  unfold FilterGte.init_outdir.
  destruct (String.prefix "/" outdir) eqn:Hp.
  - unfold path_join at 1. by rewrite Hp.
  - unfold path_join at 1. rewrite Hp.
    rewrite (endswith_path_join base "filter_gte_file" "/") by (done || (simpl; lia)).
    change (endswith "filter_gte_file" "/") with false.
    destruct (path_join_relative base "filter_gte_file" eq_refl) as [x ->].
    assert (String.eqb (x +:+ "filter_gte_file") EmptyString = false) as ->;
      [|done].
    apply String.eqb_neq. intros Heq.
    apply (f_equal String.length) in Heq.
    rewrite string_length_app in Heq. simpl in Heq. lia.
Qed.

End SavedFiles.


(** ** prepare_bios_eqtl_file.py: failures, layout and join cardinality *)

Section PrepareEqtlRuns.
Import Frame Script PrepareEqtl.

Lemma set_column_columns (name : string) (vals : list cell) (df d : DataFrame) :
  set_column name vals df = Some d →
  (name ∈ columns df ∧ columns d = columns df)
  ∨ ((name ∉ columns df) ∧ columns d = columns df ++ [name]).
Proof.
  unfold set_column. case_decide; [|done].
  destruct (position name (columns df)) eqn:Hp; intros [= <-]; simpl.
  - left. split; [|done]. apply position_Some in Hp as [Hp _].
    by eapply list_elem_of_lookup_2.
  - right. split; [|done]. by apply position_None.
Qed.

Lemma loc_cols_missing (names : list string) (df : DataFrame) (name : string) :
  name ∈ names → name ∉ columns df → loc_cols names df = None.
Proof.
  intros Hin Hno. unfold loc_cols.
  assert (mapM (λ n, position n (columns df)) names = None) as ->; [|done].
  apply mapM_None, Exists_exists. exists name. split; [done|].
  by apply position_None.
Qed.

(** X9.  A presence matrix that lacks one of the nine cohort columns makes
    the counting step fail, and the run ends without writing a file. *)
Theorem eqtl_missing_cohort_column eqtl_path snps_path outdir snps0 name :
  load_file snps_path (Some 0%nat) = Some snps0 →
  name ∈ dataset_order →
  name ∉ columns snps0 →
  count_datasets snps0 = None
  ∧ run (start eqtl_path snps_path outdir) = ([], None).
Proof.
  intros Hs Hin Hno.
  assert (count_datasets snps0 = None) as Hc.
  { unfold count_datasets.
    destruct (sum_axis1 snps0) as [sums|]; [|done]. simpl.
    destruct (set_column "N datasets" sums snps0) as [df1|] eqn:H1; [|done].
    simpl. rewrite (loc_cols_missing dataset_order df1 name); [done|done|].
    pose proof (proj1 (Forall_forall _ _) dataset_order_not_counts name Hin)
      as [Hne _].
    destruct (set_column_columns _ _ _ _ H1) as [[_ ->]|[_ ->]]; [done|].
    rewrite elem_of_app, list_elem_of_singleton. by intros [?|?]. }
  split; [done|].
  unfold run, start, mbind, script_bind, lift.
  destruct (load_file eqtl_path None); [|done].
  rewrite Hs. destruct (rename_columns _); [|done]. by rewrite Hc.
Qed.

(** X10.  An eQTL table with neither a [SNP] nor a [SNPName] column has no
    join key: the run ends without writing a file. *)
Theorem eqtl_missing_snp_column eqtl_path snps_path outdir eqtl0 :
  load_file eqtl_path None = Some eqtl0 →
  "SNP" ∉ columns eqtl0 → "SNPName" ∉ columns eqtl0 →
  run (start eqtl_path snps_path outdir) = ([], None).
Proof.
  intros He Hsnp Hname.
  unfold run, start, mbind, script_bind, lift. rewrite He.
  destruct (load_file snps_path _); [|done].
  rewrite rename_columns_eq.
  destruct (count_datasets _) as [snps_df|]; [|done].
  assert (join {| columns := translate <$> columns eqtl0;
                  rows := rows eqtl0 |} snps_df = None) as ->; [|done].
  unfold join, merge, get_column. simpl.
  assert (position "SNPName" (translate <$> columns eqtl0) = None) as ->;
    [|done].
  apply position_None. intros (c & Hc & Hin)%list_elem_of_fmap.
  rewrite translate_spec in Hc. repeat case_decide; by subst.
Qed.

(** X11.  Renaming is idempotent: the columns of a table that went through
    the renaming are not renamed again. *)
Theorem rename_columns_idempotent (eqtl_df d : DataFrame) :
  rename_columns eqtl_df = Some d → rename_columns d = Some d.
Proof.
  rewrite !rename_columns_eq. intros [= <-]. simpl. f_equal. f_equal.
  rewrite <-list_fmap_compose. apply list_fmap_ext. intros _ c _. simpl.
  rewrite !translate_spec. by repeat case_decide.
Qed.

(** *** How often a row is repeated by the join *)

Lemma filter_fst_length (k : cell) (body : list (cell * list cell)) :
  length (filter (λ l, l = k) (fst <$> body))
  = length (filter (λ s : cell * list cell, s.1 = k) body).
Proof.
  induction body as [|s body IH]; [done|].
  rewrite fmap_cons, !filter_cons. simpl.
  destruct (decide (s.1 = k)); simpl; by rewrite IH.
Qed.

Lemma fst_join_row (right : DataFrame) (r : cell * list cell) (k : cell) :
  fst <$> join_row right r k
  = replicate (max 1 (matches k (index right))) r.1.
Proof.
  unfold join_row, matches, index. rewrite filter_fst_length.
  destruct (filter _ (rows right)) as [|x ms]; [done|].
  rewrite <-list_fmap_compose.
  by rewrite (const_fmap _ (x :: ms) r.1).
Qed.

Lemma fmap_mjoin {A B} (f : A → B) (ls : list (list A)) :
  f <$> mjoin ls = mjoin (fmap f <$> ls).
Proof.
  induction ls as [|l ls IH]; [done|].
  rewrite fmap_cons. simpl. by rewrite fmap_app, IH.
Qed.


(** *** The counts as numbers *)

Lemma wrap_range (z : Z) :
  - Int64.half_modulus ≤ Int64.wrap z < Int64.half_modulus.
Proof.
  unfold Int64.wrap, Int64.half_modulus, Int64.modulus.
  pose proof (Z.mod_pos_bound (z + 2 ^ 63) (2 ^ 64)). lia.
Qed.

Lemma wrap_congruent (z : Z) : (Int64.wrap z - z) mod Int64.modulus = 0.
Proof.
  unfold Int64.wrap, Int64.half_modulus, Int64.modulus.
  rewrite (Z.mod_eq (z + 2 ^ 63) (2 ^ 64)) by lia.
  replace (z + 2 ^ 63 - 2 ^ 64 * ((z + 2 ^ 63) / 2 ^ 64) - 2 ^ 63 - z)
    with (- ((z + 2 ^ 63) / 2 ^ 64) * 2 ^ 64) by lia.
  apply Z_mod_mult.
Qed.

(** X13.  The counts are int64 numbers, whatever the cells of the matrix
    are: each lies in the int64 range and differs from the exact row sum,
    or from the exact dot product with the cohort sizes, by a multiple of
    2^64. *)
Theorem snp_counts_modulo_int64 snps_path snps_df d (i : nat)
    (row : list cell) :
  load_file snps_path (Some 0%nat) = Some snps_df →
  count_datasets snps_df = Some d →
  values snps_df !! i = Some row →
  ∃ zs present n s,
    row = CInt <$> zs
    ∧ Forall2 (λ name z, cell_at name i snps_df = Some (CInt z))
        dataset_order present
    ∧ cell_at "N datasets" i d = Some (CInt n)
    ∧ cell_at "N samples" i d = Some (CInt s)
    ∧ - 2 ^ 63 ≤ n < 2 ^ 63 ∧ (n - row_sum zs) mod 2 ^ 64 = 0
    ∧ - 2 ^ 63 ≤ s < 2 ^ 63
    ∧ (s - dot_product present dataset_sizes) mod 2 ^ 64 = 0.
Proof.
  intros Hload Hd Hrow.
  pose proof (read_csv_rectangular _ _ _ Hload) as Hwf.
  unfold values in Hrow. rewrite list_lookup_fmap in Hrow.
  destruct (rows snps_df !! i) as [r|] eqn:Hr; simplify_eq/=.
  destruct (count_datasets_cells _ _ _ _ Hwf Hd Hr)
    as (zs & present & Hzs & Hcells & Hnd & Hns).
  exists zs, present, (Int64.wrap (row_sum zs)),
    (Int64.wrap (dot_product present dataset_sizes)).
  pose proof (wrap_range (row_sum zs)) as Hr1.
  pose proof (wrap_congruent (row_sum zs)) as Hc1.
  pose proof (wrap_range (dot_product present dataset_sizes)) as Hr2.
  pose proof (wrap_congruent (dot_product present dataset_sizes)) as Hc2.
  unfold Int64.half_modulus, Int64.modulus in *.
  split_and!; try done; lia.
Qed.

Lemma dot_product_between (lo hi : Z) (u v : list Z) :
  Forall2 (λ z s, (z = 0 ∨ z = 1) ∧ lo ≤ s ≤ hi) u v →
  lo * row_sum u ≤ dot_product u v ≤ hi * row_sum u.
Proof.
  unfold dot_product.
  induction 1 as [|z s u v [[-> | ->] Hs] _ IH]; simpl; lia.
Qed.

(** X14.  On a presence matrix the counts are bounded: [N datasets] is
    between 0 and the number of columns, and [N samples] is between 74 and
    765 times the number of the nine cohorts the SNP is present in, so it
    is 0 exactly when the SNP is in none of them, and at most 3059. *)
Theorem snp_count_bounds snps_path snps_df d (i : nat) :
  load_file snps_path (Some 0%nat) = Some snps_df →
  count_datasets snps_df = Some d →
  (∀ row c, row ∈ values snps_df → c ∈ row → c = CInt 0 ∨ c = CInt 1) →
  Z.of_nat (length (columns snps_df)) < Int64.half_modulus →
  (i < nrows snps_df)%nat →
  ∃ n s present,
    cell_at "N datasets" i d = Some (CInt n)
    ∧ cell_at "N samples" i d = Some (CInt s)
    ∧ Forall2 (λ name z, cell_at name i snps_df = Some (CInt z))
        dataset_order present
    ∧ 0 ≤ n ≤ Z.of_nat (length (columns snps_df))
    ∧ 74 * row_sum present ≤ s ≤ 765 * row_sum present
    ∧ 0 ≤ row_sum present ≤ 9
    ∧ s ≤ 3059
    ∧ (s = 0 ↔ row_sum present = 0).
Proof.
  intros Hload Hd Hpres Hwidth Hi.
  pose proof (read_csv_rectangular _ _ _ Hload) as Hwf.
  destruct (lookup_lt_is_Some_2 (rows snps_df) i Hi) as [r Hr].
  destruct (count_datasets_cells _ _ _ _ Hwf Hd Hr)
    as (zs & present & Hzs & Hcells & Hnd & Hns).
  assert (r.2 ∈ values snps_df) as Hin.
  { unfold values. apply list_elem_of_fmap. exists r. split; [done|].
    by eapply list_elem_of_lookup_2. }
  assert (Forall (λ z, z = 0 ∨ z = 1) zs) as Hz01.
  { apply Forall_forall. intros z Hz.
    destruct (Hpres r.2 (CInt z) Hin) as [?|?]; [|naive_solver..].
    rewrite Hzs. by apply list_elem_of_fmap_2. }
  assert (Forall (λ z, z = 0 ∨ z = 1) present) as Hp01.
  { apply Forall_forall. intros z Hz.
    apply list_elem_of_lookup in Hz as [k Hz].
    destruct (Forall2_lookup_r _ _ _ _ _ Hcells Hz) as (name & _ & Hc).
    pose proof (cell_at_elem_of _ _ _ _ _ Hc Hr) as Hc'.
    destruct (Hpres r.2 (CInt z) Hin Hc') as [?|?]; naive_solver. }
  assert (length zs = length (columns snps_df)) as Hlen.
  { unfold rectangular in Hwf. rewrite Forall_forall in Hwf.
    rewrite <-(Hwf r (list_elem_of_lookup_2 _ _ _ Hr)), Hzs.
    by rewrite length_fmap. }
  assert (length present = 9%nat) as Hlen9
    by (by rewrite <-(Forall2_length _ _ _ Hcells)).
  pose proof (row_sum_presence zs Hz01) as Hb.
  pose proof (row_sum_presence present Hp01) as Hbp.
  assert (74 * row_sum present ≤ dot_product present dataset_sizes
          ≤ 765 * row_sum present) as Hdot.
  { apply dot_product_between, Forall2_same_length_lookup. split; [done|].
    intros k z s Hz Hs. split.
    - by apply (proj1 (Forall_lookup _ _) Hp01 k z).
    - assert (Forall (λ s, 74 ≤ s ≤ 765) dataset_sizes) as Hsz.
      { unfold dataset_sizes. repeat constructor; lia. }
      by apply (proj1 (Forall_lookup _ _) Hsz k s). }
  exists (row_sum zs), (dot_product present dataset_sizes), present.
  assert (0 ≤ dot_product present dataset_sizes ≤ 3059) as Htot.
  { apply (dot_product_presence present dataset_sizes Hp01).
    unfold dataset_sizes. repeat constructor; lia. }
  rewrite Hlen9 in Hbp.
  assert (Int64.wrap (row_sum zs) = row_sum zs) as Hw1.
  { apply wrap_small. unfold Int64.half_modulus in *. lia. }
  assert (Int64.wrap (dot_product present dataset_sizes)
          = dot_product present dataset_sizes) as Hw2.
  { apply wrap_small. unfold Int64.half_modulus in *. lia. }
  rewrite Hw1 in Hnd. rewrite Hw2 in Hns.
  unfold Int64.half_modulus in *.
  split_and!; try done; lia.
Qed.

(** *** The header of the file written *)

Lemma fmap_unchanged {A} (f : A → A) (l : list A) :
  (∀ x, x ∈ l → f x = x) → f <$> l = l.
Proof.
  intros Hf. rewrite <-(list_fmap_id l) at 2. apply list_fmap_ext.
  intros i x Hx. apply Hf. by eapply list_elem_of_lookup_2.
Qed.

Lemma counted_columns_incl (c : string) (cols : list string) :
  c ∈ cols ++ ["N datasets"; "N samples"] →
  c ∈ cols ++ ["N datasets"; "N samples"; "index"].
Proof. rewrite !elem_of_app, !elem_of_cons. tauto. Qed.

(** X15.  The columns of the table written, when no name occurs twice: the
    columns of the eQTL table with [SNP] and [Gene] renamed, then the
    columns of the presence matrix, then [N datasets], [N samples] and
    [index]. *)
Theorem eqtl_output_columns eqtl_path snps_path outdir f eqtl0 snps0 :
  load_file eqtl_path None = Some eqtl0 →
  load_file snps_path (Some 0%nat) = Some snps0 →
  (∀ c, c ∈ translate <$> columns eqtl0 →
        c ∉ columns snps0 ++ ["N datasets"; "N samples"; "index"]) →
  (∀ c, c ∈ ["N datasets"; "N samples"; "index"] → c ∉ columns snps0) →
  run (start eqtl_path snps_path outdir) = ([f], Some ()) →
  columns (s_df f)
  = (translate <$> columns eqtl0) ++ columns snps0
    ++ ["N datasets"; "N samples"; "index"]
  ∧ head (content f) = Some (CStr <$> columns (s_df f)).
Proof.
  intros He Hs Hleft Hright Hrun.
  apply eqtl_start_completed in Hrun
    as (eqtl0' & snps0' & snps_df & top & out & He' & Hs' & Hc & Hm & Ho
        & Hlog).
  rewrite He in He'. injection He' as <-.
  rewrite Hs in Hs'. injection Hs' as <-.
  injection Hlog as <- Hhead Hidx.
  apply count_datasets_steps in Hc
    as (m & df1 & pres & m2 & _ & H1 & _ & _ & H2).
  assert (columns df1 = columns snps0 ++ ["N datasets"]) as Hc1.
  { destruct (set_column_columns _ _ _ _ H1) as [[Hin _]|[_ ->]]; [|done].
    destruct (Hright "N datasets"); [|done].
    rewrite !elem_of_cons. by left. }
  assert (columns snps_df = columns snps0 ++ ["N datasets"; "N samples"])
    as Hc2.
  { destruct (set_column_columns _ _ _ _ H2) as [[Hin _]|[_ ->]].
    - rewrite Hc1 in Hin. apply elem_of_app in Hin as [Hin|Hin].
      + destruct (Hright "N samples"); [|done].
        rewrite !elem_of_cons. right. by left.
      + by apply list_elem_of_singleton in Hin.
    - by rewrite Hc1, <-app_assoc. }
  destruct (merge_spec _ _ _ _ Hm) as (keys & _ & Hct & _). simpl in Hct.
  assert (columns top
          = (translate <$> columns eqtl0) ++ columns snps0
            ++ ["N datasets"; "N samples"]) as Hct'.
  { rewrite Hct, Hc2. f_equal.
    - apply fmap_unchanged. intros c Hin. rewrite decide_False; [done|].
      intros Hin'. apply (Hleft c Hin). by apply counted_columns_incl.
    - apply fmap_unchanged. intros c Hin. rewrite decide_False; [done|].
      intros Hin'. apply (Hleft c Hin'). by apply counted_columns_incl. }
  assert (columns (s_df f)
          = (translate <$> columns eqtl0) ++ columns snps0
            ++ ["N datasets"; "N samples"; "index"]) as Hcols.
  { destruct (set_column_columns _ _ _ _ Ho) as [[Hin _]|[_ ->]].
    - rewrite Hct' in Hin. rewrite !elem_of_app in Hin.
      destruct Hin as [Hin|[Hin|Hin]].
      + destruct (Hleft "index" Hin).
        rewrite !elem_of_app, !elem_of_cons. right. right. right. by left.
      + destruct (Hright "index"); [|done].
        rewrite !elem_of_cons. right. right. by left.
      + rewrite !elem_of_cons in Hin.
        destruct Hin as [?|[?|Hin]]; [done|done|].
        by apply elem_of_nil in Hin.
    - rewrite Hct', <-!app_assoc. done. }
  split; [done|].
  unfold content, to_csv. by rewrite Hhead, Hidx.
Qed.

End PrepareEqtlRuns.


(** ** Scripts that only add to the log *)

Section ScriptRuns.
Import Script OverviewLineplot.

Context {E : Type}.

Lemma emits_ret {A} (P : E → Prop) (a : A) : emits P (mret a : script E A).
Proof. intros l l' r [= <- <-]. exists []. by rewrite app_nil_r. Qed.

Lemma emits_lift {A} (P : E → Prop) (o : option A) :
  emits P (lift o : script E A).
Proof. intros l l' r [= <- <-]. exists []. by rewrite app_nil_r. Qed.

Lemma emits_emit (P : E → Prop) (e : E) : P e → emits P (emit e).
Proof. intros He l l' r [= <- <-]. exists [e]. split; [done|]. by constructor. Qed.

Lemma emits_bind {A B} (P : E → Prop) (m : script E A) (k : A → script E B) :
  emits P m → (∀ a, emits P (k a)) → emits P (m ≫= k).
Proof.
  intros Hm Hk l l' r. unfold mbind, script_bind.
  destruct (m l) as [l1 [a|]] eqn:H1.
  - destruct (Hm _ _ _ H1) as (new1 & -> & HP1).
    intros (new2 & -> & HP2)%Hk. exists (new1 ++ new2).
    split; [by rewrite app_assoc|]. by apply Forall_app.
  - destruct (Hm _ _ _ H1) as (new1 & -> & HP1).
    intros [= <- <-]. by exists new1.
Qed.

Lemma bind_completed {A B} (m : script E A) (k : A → script E B)
    (l l' : list E) (b : B) :
  (m ≫= k) l = (l', Some b) →
  ∃ a l1, m l = (l1, Some a) ∧ k a l1 = (l', Some b).
Proof.
  unfold mbind, script_bind. destruct (m l) as [l1 [a|]]; [|done]. eauto.
Qed.

Lemma lift_completed {A} (o : option A) (l l' : list E) (a : A) :
  lift o l = (l', Some a) → l' = l ∧ o = Some a.
Proof. by intros [= -> ->]. Qed.

(** Steps that write fixed events and go on make a script that does. *)
Lemma bind_writes {A B} (m : script E A) (k : A → script E B) (a : A)
    (new1 new2 : list E) (r : option B) :
  (∀ l, m l = (l ++ new1, Some a)) → (∀ l, k a l = (l ++ new2, r)) →
  ∀ l, (m ≫= k) l = (l ++ new1 ++ new2, r).
Proof.
  intros Hm Hk l. unfold mbind, script_bind. rewrite Hm, Hk.
  by rewrite app_assoc.
Qed.

Lemma for_each_writes {A} (body : A → script E ()) (P : A → list E → Prop)
    (xs : list A) :
  (∀ x, x ∈ xs → ∃ new, (∀ l, body x l = (l ++ new, Some ())) ∧ P x new) →
  ∃ news, (∀ l, for_each body xs l = (l ++ mjoin news, Some ()))
          ∧ Forall2 P xs news.
Proof.
  induction xs as [|x xs IH]; intros Hbody.
  - exists []. split; [|constructor]. intros l. simpl. by rewrite app_nil_r.
  - destruct (Hbody x) as (new & Hx & HP); [left|].
    destruct IH as (news & Hxs & HPs).
    { intros x' Hx'. apply Hbody. by right. }
    exists (new :: news). split; [|by constructor].
    intros l. simpl. by apply (bind_writes _ _ ()).
Qed.

Lemma emits_for_each {A} (P : E → Prop) (body : A → script E ())
    (xs : list A) :
  (∀ x, emits P (body x)) → emits P (for_each body xs).
Proof.
  intros Hbody. induction xs as [|x xs IH]; simpl.
  - apply emits_ret.
  - apply emits_bind; [apply Hbody|]. by intros [].
Qed.

Lemma emits_impl {A} (P Q : E → Prop) (m : script E A) :
  (∀ e, P e → Q e) → emits P m → emits Q m.
Proof.
  intros HPQ Hm l l' r (new & -> & HP)%Hm. exists new. split; [done|].
  by eapply Forall_impl.
Qed.

End ScriptRuns.

(** The events of a script, step by step. *)
Ltac emits_steps :=
  repeat first
    [ apply emits_emit | apply emits_lift | apply emits_ret
    | apply emits_for_each; intros ?
    | apply emits_bind; [|intros ?]
    | case_decide
    | match goal with
      | |- emits _ (if ?b then _ else _) => destruct b
      | |- emits _ (match ?o with Some _ => _ | None => _ end) => destruct o eqn:?
      end ].


(** ** visualiser.py: when the fits and the figure come about *)

Section VisualiserRuns.
Import Script Visualiser.

Context {R : Type} `{EqDecision R}.
Variable of_Z : Z → R.
Variable mul : R → R → R.
Variable round0 : R → R.
Variable isnan : R → bool.
Variable calc_vertex_xpos : R → R → R.
Variable calc_pearsonr : list R → list R → R.
Variable fit_and_predict : list (list R) → list R → list R.
Variable spearmanr : list R → list R → R.

Lemma column_is_Some (j : nat) (M : list (list R)) :
  is_Some (column j M) ↔ Forall (λ r, (j < length r)%nat) M.
Proof.
  unfold column. rewrite mapM_is_Some. apply Forall_iff. intros r. simpl.
  apply lookup_lt_is_Some.
Qed.

Lemma broadcast_is_Some (n : nat) (v : ndarray) :
  is_Some (broadcast n v)
  ↔ match v with
    | Scalar _ => True
    | Array l => length (l : list R) = n ∨ length (l : list R) = 1%nat
    end.
Proof.
  destruct v as [a|l]; simpl; [by split; eauto|].
  case_decide as Hn.
  - split; [by left|eauto].
  - destruct l as [|a [|b l]]; simpl in *.
    + split; [by intros []|]. intros [?|?]; [done|lia].
    + split; [by right|eauto].
    + split; [by intros []|]. intros [?|?]; [done|lia].
Qed.

Lemma set_matrix_column_rows (j : nat) (v : ndarray) (M M' : list (list R)) :
  set_matrix_column j v M = Some M' →
  Forall2 (λ r r' : list R, length r' = length r) M M'.
Proof.
  unfold set_matrix_column. intros H'.
  destruct (column j M) as [old|]; [|done]. simpl in H'.
  destruct (broadcast (length M) v) as [vals|] eqn:Hv; [|done].
  injection H' as <-. pose proof (broadcast_length _ _ _ Hv) as Hlen.
  apply Forall2_same_length_lookup. split; [rewrite length_zip_with; lia|].
  intros i r r' Hr Hr'.
  apply lookup_zip_with_Some in Hr' as (r0 & a & -> & Hr0 & _).
  rewrite Hr in Hr0. injection Hr0 as <-. apply length_insert.
Qed.

Lemma set_matrix_column_is_Some (j : nat) (v : ndarray) (M : list (list R)) :
  is_Some (set_matrix_column j v M)
  ↔ Forall (λ r, (j < length r)%nat) M ∧ is_Some (broadcast (length M) v).
Proof.
  rewrite <-column_is_Some. unfold set_matrix_column.
  destruct (column j M) as [old|]; simpl.
  - destruct (broadcast (length M) v); simpl.
    + split; [by split; eauto|eauto].
    + split; [by intros []|]. by intros [_ []].
  - split; [by intros []|]. by intros [[] _].
Qed.

Lemma same_lengths_Forall (P : nat → Prop) (M M' : list (list R)) :
  Forall2 (λ r r' : list R, length r' = length r) M M' →
  Forall (λ r, P (length r)) M ↔ Forall (λ r, P (length r)) M'.
Proof.
  induction 1 as [|r r' M M' Hr _ IH]; [done|].
  rewrite !Forall_cons, IH, Hr. done.
Qed.

Lemma build_X_opt_is_Some (M : list (list R)) (v : ndarray) :
  is_Some (build_X_opt mul M v)
  ↔ Forall (λ r, (4 ≤ length r)%nat) M ∧ is_Some (broadcast (length M) v).
Proof.
  unfold build_X_opt. split.
  - intros [Xo Hb].
    destruct (set_matrix_column 2 v M) as [X1|] eqn:H1; [|done]. simpl in Hb.
    destruct (column 1 X1) as [genotype|]; [|done]. simpl in Hb.
    destruct (column 2 X1) as [covariate|]; [|done]. simpl in Hb.
    pose proof (set_matrix_column_rows _ _ _ _ H1) as Hrows.
    assert (is_Some (set_matrix_column 2 v M)) as [_ Hv]%set_matrix_column_is_Some
      by eauto.
    assert (is_Some (set_matrix_column 3
                       (Array (zip_with mul genotype covariate)) X1))
      as [H3 _]%set_matrix_column_is_Some by eauto.
    split; [|done].
    by apply (same_lengths_Forall (λ n, 4 ≤ n)%nat M X1 Hrows).
  - intros [H4 Hv].
    destruct (set_matrix_column 2 v M) as [X1|] eqn:H1.
    + simpl. pose proof (set_matrix_column_rows _ _ _ _ H1) as Hrows.
      apply (same_lengths_Forall (λ n, 4 ≤ n)%nat M X1 Hrows) in H4.
      destruct (proj2 (column_is_Some 1 X1)) as [genotype Hg].
      { eapply Forall_impl; [exact H4|]. simpl. lia. }
      destruct (proj2 (column_is_Some 2 X1)) as [covariate Hc].
      { eapply Forall_impl; [exact H4|]. simpl. lia. }
      rewrite Hg, Hc. simpl.
      apply set_matrix_column_is_Some. split.
      * eapply Forall_impl; [exact H4|]. simpl. lia.
      * apply broadcast_is_Some. left.
        rewrite length_zip_with, (column_length _ _ _ Hg),
          (column_length _ _ _ Hc). lia.
    + assert (is_Some (set_matrix_column 2 v M)) as [? Hn]; [|by rewrite H1 in Hn].
      apply set_matrix_column_is_Some. split; [|done].
      eapply Forall_impl; [exact H4|]. simpl. lia.
Qed.

(** X16.  When the two fits of [Visualiser.plot] can be made, for a design
    matrix with at least one row (a matrix without rows does not tell its
    number of columns here): every row needs at least four entries; with no
    covariate array given nothing else is asked, and a given array must be
    as long as the model's mask and, restricted by the mask, have one entry
    per row of the matrix, or a single entry, which numpy broadcasts over
    all rows.  Otherwise the call raises. *)
Theorem fit_defined_iff (ieqtl : ieqtl_model) (ocf : option (list R)) :
  X ieqtl ≠ [] →
  is_Some (fit mul calc_vertex_xpos calc_pearsonr fit_and_predict ieqtl ocf)
  ↔ Forall (λ r, (4 ≤ length r)%nat) (X ieqtl)
    ∧ match ocf with
      | None => True
      | Some a =>
          length (mask ieqtl) = length a
          ∧ (length (Frame.select (mask ieqtl) a) = length (X ieqtl)
             ∨ length (Frame.select (mask ieqtl) a) = 1%nat)
      end.
Proof.
  intros _. unfold fit, derive_ocf, mask_select. destruct ocf as [a|].
  - case_decide as Hlen; simpl.
    + destruct (build_X_opt mul (X ieqtl) _) as [Xo|] eqn:Hb; simpl.
      * assert (is_Some (build_X_opt mul (X ieqtl)
                           (Array (Frame.select (mask ieqtl) a))))
          as [H4 Hv%broadcast_is_Some]%build_X_opt_is_Some by eauto.
        split; [done|eauto].
      * split; [by intros []|]. intros (H4 & _ & Hv).
        assert (is_Some (build_X_opt mul (X ieqtl)
                           (Array (Frame.select (mask ieqtl) a))))
          as [? Hn]; [|by rewrite Hb in Hn].
        apply build_X_opt_is_Some. split; [done|].
        by apply broadcast_is_Some.
    + split; [by intros []|]. by intros (_ & ? & _).
  - destruct (mll_coef_representation ieqtl) as [coef_a coef_b]. simpl.
    destruct (build_X_opt mul (X ieqtl) _) as [Xo|] eqn:Hb; simpl.
    + assert (is_Some (build_X_opt mul (X ieqtl)
                         (Scalar (calc_vertex_xpos coef_a coef_b))))
        as [H4 _]%build_X_opt_is_Some by eauto.
      split; [done|eauto].
    + split; [by intros []|]. intros [H4 _].
      assert (is_Some (build_X_opt mul (X ieqtl)
                         (Scalar (calc_vertex_xpos coef_a coef_b))))
        as [? Hn]; [|by rewrite Hb in Hn].
      apply build_X_opt_is_Some. split; [done|].
      by apply broadcast_is_Some.
Qed.

(** X17.  The design matrix of the optimized fit has the shape of the
    starting one: as many rows, and row by row as many entries. *)
Theorem optimized_matrix_shape (ieqtl : ieqtl_model) (ocf : option (list R))
    (f : fits) :
  fit mul calc_vertex_xpos calc_pearsonr fit_and_predict ieqtl ocf = Some f →
  Forall2 (λ r r' : list R, length r' = length r) (X ieqtl) (X_opt f).
Proof.
  unfold fit. intros Hf.
  destruct (derive_ocf calc_vertex_xpos ieqtl ocf) as [[[solo ci] v]|];
    [|done].
  simpl in Hf.
  destruct (build_X_opt mul (X ieqtl) v) as [Xo|] eqn:Hb; [|done].
  injection Hf as <-. simpl.
  unfold build_X_opt in Hb.
  destruct (set_matrix_column 2 v (X ieqtl)) as [X1|] eqn:H1; [|done].
  simpl in Hb.
  destruct (column 1 X1) as [genotype|]; [|done]. simpl in Hb.
  destruct (column 2 X1) as [covariate|]; [|done]. simpl in Hb.
  apply set_matrix_column_rows in H1, Hb.
  apply Forall2_same_length_lookup. split.
  { by rewrite (Forall2_length _ _ _ H1), (Forall2_length _ _ _ Hb). }
  intros i r r' Hr Hr'.
  destruct (Forall2_lookup_l _ _ _ _ _ H1 Hr) as (r1 & Hr1 & <-).
  apply (Forall2_lookup_lr _ _ _ _ _ _ Hb Hr1 Hr').
Qed.

(** *** What [inter_plot] draws *)

Lemma get_cons (name c : string) (col : list R) (df : frame) :
  get name ((c, col) :: df) = if decide (c = name) then Some col else get name df.
Proof.
  unfold get. cbn [list_find]. simpl. case_decide; [done|].
  rewrite <-option_fmap_compose. by destruct (list_find _ _) as [[? [? ?]]|].
Qed.

Lemma get_loc (name : string) (member : list bool) (df : frame) :
  get name (loc member df) = Frame.select (A:=R) member <$> get name df.
Proof.
  induction df as [|[c col] df IH]; [done|].
  unfold loc in *. rewrite fmap_cons. simpl. rewrite !get_cons.
  by case_decide.
Qed.

Lemma select_equal (g : R) (l : list R) :
  Frame.select ((λ v, bool_decide (v = g)) <$> l) l = filter (λ v, v = g) l.
Proof.
  induction l as [|v l IH]; [done|].
  rewrite fmap_cons, filter_cons. simpl. rewrite IH.
  case_bool_decide; by case_decide.
Qed.

Lemma item_is_Some {V} (d : list (R * V)) (key : R) :
  key ∈ d.*1 → is_Some (item d key).
Proof.
  unfold item. intros (kv & -> & Hin)%list_elem_of_fmap.
  destruct (list_find (λ kv' : R * V, kv'.1 = kv.1) d) as [p|] eqn:Hf;
    [by eauto|].
  apply list_find_None in Hf. rewrite Forall_forall in Hf.
  by destruct (Hf kv Hin).
Qed.

Lemma plot_group_writes (ax : axis) (df : frame) (x y : string)
    (groups : list R) (ci : option Z) (g : R) (xs ys : list R) :
  get x df = Some xs → get y df = Some ys →
  g ∈ [of_Z 0; of_Z 1; of_Z 2] →
  ∃ new,
    (∀ l, plot_group of_Z isnan spearmanr ax df x y groups ci g l
          = (l ++ new, Some ()))
    ∧ omap group_note new
      = [let member := (λ v, bool_decide (v = g)) <$> groups in
         let n := length (filter (λ v, v = g) groups) in
         (g, if decide (1 < n)%nat
             then Some (spearmanr (Frame.select member ys)
                                  (Frame.select member xs))
             else None, n)].
Proof.
  intros Hx Hy Hg.
  destruct (item_is_Some (colors of_Z) g) as [color Hc]; [done|].
  destruct (item_is_Some (label_pos of_Z) g) as [pos Hp]; [done|].
  unfold plot_group. rewrite select_equal.
  case_decide as Hn.
  - destruct (isnan (spearmanr (Frame.select ((λ v, bool_decide (v = g)) <$> groups) ys)
                                  (Frame.select ((λ v, bool_decide (v = g)) <$> groups) xs))) eqn:Hnan.
    + eexists. split.
      * intros l. unfold mbind, script_bind, lift, emit, mret, script_ret.
        rewrite !get_loc, Hx, Hy. simpl. rewrite Hnan, Hc, Hp.
        rewrite <-!app_assoc. simpl. reflexivity.
      * done.
    + eexists. split.
      * intros l. unfold mbind, script_bind, lift, emit, mret, script_ret.
        rewrite !get_loc, Hx, Hy. simpl. rewrite Hnan, Hc, Hp.
        rewrite <-!app_assoc. simpl. reflexivity.
      * done.
  - eexists. split.
    + intros l. unfold mbind, script_bind, lift, emit, mret, script_ret.
      rewrite Hc, Hp. reflexivity.
    + done.
Qed.

Lemma symmetric_difference_same (a b : list R) :
  (∀ v, v ∈ a ↔ v ∈ b) → symmetric_difference a b = [].
Proof.
  intros Hab. unfold symmetric_difference.
  destruct (filter (λ v, v ∉ b) (remove_dups a)) as [|v l] eqn:Ha.
  - destruct (filter (λ v, v ∉ a) (remove_dups b)) as [|v l] eqn:Hb; [done|].
    assert (v ∈ filter (λ v, v ∉ a) (remove_dups b)) as Hin
      by (rewrite Hb; left).
    apply list_elem_of_filter in Hin as [Hn Hin].
    rewrite elem_of_remove_dups in Hin. by apply Hab in Hin.
  - assert (v ∈ filter (λ v, v ∉ b) (remove_dups a)) as Hin
      by (rewrite Ha; left).
    apply list_elem_of_filter in Hin as [Hn Hin].
    rewrite elem_of_remove_dups in Hin. by apply Hab in Hin.
Qed.

Lemma omap_mjoin_singletons {A B C} (f : A → option B) (h : C → B)
    (xs : list C) (news : list (list A)) :
  Forall2 (λ x new, omap f new = [h x]) xs news →
  omap f (mjoin news) = h <$> xs.
Proof.
  induction 1 as [|x new xs news Hx _ IH]; [done|].
  simpl. by rewrite omap_app, Hx, IH.
Qed.


Lemma plot_group_emits (ax : axis) (df : frame) (x y : string)
    (groups : list R) (ci : option Z) (g : R) (rsquared fdr : option R) :
  emits (drawn_on ax rsquared fdr)
    (plot_group of_Z isnan spearmanr ax df x y groups ci g).
Proof. unfold plot_group. emits_steps; done. Qed.

Lemma inter_plot_emits (ax : axis) (df : frame) (x y group : string)
    (ci : option Z) (fdr : option R) (xlabel ylabel : string)
    (rsquared : option R) (title : string) :
  emits (drawn_on ax rsquared fdr)
    (inter_plot of_Z isnan spearmanr ax df x y group ci fdr xlabel ylabel
       rsquared title).
Proof.
  unfold inter_plot. apply emits_bind; [apply emits_lift|intros groups].
  case_decide; [apply emits_ret|].
  apply emits_bind; [by apply emits_emit|intros _].
  apply emits_bind.
  { apply emits_for_each. intros g. apply plot_group_emits. }
  intros _. apply emits_bind.
  { destruct rsquared; [by apply emits_emit|apply emits_ret]. }
  intros _. apply emits_bind.
  { destruct fdr; [by apply emits_emit|apply emits_ret]. }
  intros _. emits_steps; done.
Qed.

Lemma plot_frame_Some (M : list (list R)) (y : list R) (df : frame) :
  plot_frame round0 M y = Some df →
  Forall (λ r, length r = 4%nat) M ∧ length y = length M.
Proof.
  unfold plot_frame, Visualiser.set. intros Hf.
  destruct (column 0 M); [|done]. simpl in Hf.
  destruct (column 1 M); [|done]. simpl in Hf.
  destruct (column 2 M); [|done]. simpl in Hf.
  destruct (column 3 M); [|done]. simpl in Hf.
  destruct (forallb _ M) eqn:Hall; [|done]. simpl in Hf.
  destruct (decide (length y = length M)) as [Hlen|]; [|done]. split; [|done].
  apply forallb_Forall in Hall. eapply Forall_impl; [exact Hall|].
  intros r Hr. by apply bool_decide_eq_true in Hr.
Qed.

(** X19.  [Visualiser.plot] raises before anything is drawn or printed when
    a row of the design matrix does not have exactly four entries, the
    number of names given to [pd.DataFrame], or when the expression vector
    is not as long as the matrix. *)
Theorem plot_needs_four_columns (ieqtl : ieqtl_model)
    (out_path iteration : string) (fdr : option R) (ocf : option (list R))
    (log : list event) :
  Exists (λ r, length r ≠ 4%nat) (X ieqtl)
  ∨ length (y ieqtl) ≠ length (X ieqtl) →
  plot of_Z mul round0 isnan calc_vertex_xpos calc_pearsonr fit_and_predict
    spearmanr ieqtl out_path iteration fdr ocf log
  = (log, None).
Proof.
  intros Hbad. unfold plot, mbind, script_bind, lift.
  destruct (fit _ _ _ _ ieqtl ocf); [|done].
  destruct (plot_frame round0 (X ieqtl) (y ieqtl)) as [df1|] eqn:Hf; [|done].
  apply plot_frame_Some in Hf as [Hall Hlen].
  destruct Hbad as [Hex|?]; [|done].
  apply Exists_exists in Hex as (r & Hr & Hne).
  rewrite Forall_forall in Hall. by destruct (Hne (Hall r Hr)).
Qed.

Lemma fit_solo_optimized (ieqtl : ieqtl_model) (ocf : option (list R))
    (f : fits) :
  fit mul calc_vertex_xpos calc_pearsonr fit_and_predict ieqtl ocf = Some f →
  solo_optimized f = match ocf with Some _ => false | None => true end.
Proof.
  unfold fit, derive_ocf, mask_select. destruct ocf as [a|].
  - case_decide; [|done]. simpl.
    destruct (build_X_opt _ _ _); [|done]. by intros [= <-].
  - destruct (mll_coef_representation ieqtl). simpl.
    destruct (build_X_opt _ _ _); [|done]. by intros [= <-].
Qed.

(** X20.  A completed [Visualiser.plot] ends by setting the figure's title
    to [<ieqtl id>:<iteration>] and saving the figure, once, in the
    directory [plot] below the output path; the file is named after the
    title with every colon replaced by a dash, with [_soloOptimized] added
    exactly when no covariate array was given. *)
Theorem plot_saves_one_figure (ieqtl : ieqtl_model)
    (out_path iteration : string) (fdr : option R) (ocf : option (list R))
    (log log' : list event) :
  plot of_Z mul round0 isnan calc_vertex_xpos calc_pearsonr fit_and_predict
    spearmanr ieqtl out_path iteration fdr ocf log
  = (log', Some ()) →
  ∃ drawn,
    log' = log ++ drawn
             ++ [Suptitle (ieqtl_id ieqtl +:+ ":" +:+ iteration);
                 Savefig
                   (Frame.path_join (Frame.path_join out_path "plot")
                      (OverviewLineplot.replace ":" "-"
                         (ieqtl_id ieqtl +:+ ":" +:+ iteration)
                       +:+ match ocf with
                           | Some _ => EmptyString
                           | None => "_soloOptimized"
                           end +:+ ".png"))]
    ∧ ∀ e, e ∈ drawn → (∀ t, e ≠ Suptitle t) ∧ (∀ p, e ≠ Savefig p).
Proof.
  unfold plot. intros Hrun.
  apply bind_completed in Hrun as (f & l0 & Hf & Hrun).
  injection Hf as <- Hf.
  apply bind_completed in Hrun as (df1 & l0 & H1 & Hrun).
  injection H1 as <- _.
  apply bind_completed in Hrun as (df2 & l0 & H2 & Hrun).
  injection H2 as <- _.
  unfold create_interaction_figure in Hrun.
  apply bind_completed in Hrun as ([] & l1 & H1 & Hrun).
  apply bind_completed in Hrun as ([] & l2 & H2 & Hrun).
  apply bind_completed in Hrun as ([] & l3 & H3 & Hrun).
  injection H3 as <-. injection Hrun as <-.
  apply inter_plot_emits in H1 as (new1 & -> & Hn1).
  apply inter_plot_emits in H2 as (new2 & -> & Hn2).
  rewrite (fit_solo_optimized _ _ _ Hf).
  exists (new1 ++ new2). split.
  - rewrite <-!app_assoc. simpl. by destruct ocf.
  - intros e [He|He]%elem_of_app.
    + rewrite Forall_forall in Hn1. specialize (Hn1 e He).
      split; intros ? ->; done.
    + rewrite Forall_forall in Hn2. specialize (Hn2 e He).
      split; intros ? ->; done.
Qed.

(** X21.  Whether [create_interaction_figure] completes or not, it leaves
    what was logged before it alone; an FDR is only ever annotated on the
    first panel, and it is the one given; the r-squared on the first panel
    is that of the starting fit, and the second panel shows one only if the
    optimized fit has one. *)
Theorem fdr_only_on_first_panel (df1 df2 : frame) (rs1 : R)
    (rs2 fdr1 : option R) (p2_ci : option Z) (title outdir : string)
    (solo : bool) (log log' : list event) (r : option ()) :
  create_interaction_figure of_Z isnan spearmanr df1 df2 rs1 rs2 fdr1 p2_ci
    title outdir solo log = (log', r) →
  ∃ new,
    log' = log ++ new
    ∧ (∀ ax f, AnnotateFdr ax f ∈ new → ax = Ax1 ∧ fdr1 = Some f)
    ∧ (∀ ax rs, AnnotateRSquared ax rs ∈ new →
         (ax = Ax1 ∧ rs = rs1) ∨ (ax = Ax2 ∧ rs2 = Some rs)).
Proof.
  intros Hrun.
  assert (emits (λ e, drawn_on Ax1 (Some rs1) fdr1 e
                      ∨ drawn_on Ax2 rs2 None e
                      ∨ panel e = None ∧ ∃ t, e = Suptitle t ∨ e = Savefig t)
            (create_interaction_figure of_Z isnan spearmanr df1 df2 rs1 rs2
               fdr1 p2_ci title outdir solo)) as Hem.
  { unfold create_interaction_figure.
    apply emits_bind.
    { eapply emits_impl; [|apply inter_plot_emits]. intros e. by left. }
    intros _. apply emits_bind.
    { eapply emits_impl; [|apply inter_plot_emits]. intros e. right. by left. }
    intros _. apply emits_bind.
    - apply emits_emit. right. right. eauto.
    - intros _. apply emits_emit. right. right. eauto. }
  apply Hem in Hrun as (new & -> & Hnew). exists new. split; [done|].
  rewrite Forall_forall in Hnew. split.
  - intros ax f [H1|[H2|[_ [t [?|?]]]]]%Hnew; simpl in *; try done.
    by destruct H2.
  - intros ax rs [H1|[H2|[_ [t [?|?]]]]]%Hnew; simpl in *; try done.
    + left. destruct H1 as [-> [= ->]]. done.
    + right. by destruct H2 as [-> ->].
Qed.

End VisualiserRuns.


(** ** overview_lineplot.py: failures, the figures and their data *)

Section OverviewLineplotRuns.
Import Frame Script OverviewLineplot.

Variable log10 : cell → option cell.

Lemma load_components_absent (indir_file : nat → option tsv) (ids : list nat)
    (st : gmap string (list cell) * list DataFrame) :
  (∀ i, i ∈ ids → indir_file i = None) →
  foldl (λ acc i, acc ≫= load_component indir_file i) (Some st) ids = Some st.
Proof.
  induction ids as [|i ids IH]; intros Hnone; [done|].
  simpl. unfold load_component at 2. rewrite (Hnone i) by left.
  apply IH. intros j Hj. apply Hnone. by right.
Qed.

Lemma load_components_None (indir_file : nat → option tsv) (ids : list nat) :
  foldl (λ acc i, acc ≫= load_component indir_file i) None ids = None.
Proof. by induction ids. Qed.

Lemma load_components_fail (indir_file : nat → option tsv) (ids : list nat)
    (i : nat) acc :
  i ∈ ids → (∀ st, load_component indir_file i st = None) →
  foldl (λ acc i, acc ≫= load_component indir_file i) acc ids = None.
Proof.
  intros Hin Hfail. revert acc.
  induction ids as [|j ids IH]; intros acc; [by apply elem_of_nil in Hin|].
  apply elem_of_cons in Hin as [<-|Hin]; simpl.
  - destruct acc as [st|]; simpl; [rewrite Hfail|]; apply load_components_None.
  - by apply IH.
Qed.

(** X22.  With no [info_df.txt.gz] below any of [PIC1] .. [PIC10] there is
    nothing to concatenate: the run raises and draws no figure. *)
Theorem overview_without_input (indir_file : nat → option tsv)
    (outdir : string) :
  (∀ i, (1 ≤ i ≤ 10)%nat → indir_file i = None) →
  run (start log10 indir_file outdir) = ([], None).
Proof.
  intros Hnone. unfold run, start, mbind at 1, script_bind at 1, lift at 1.
  rewrite load_components_absent.
  - done.
  - intros i Hi%elem_of_seq. apply Hnone. lia.
Qed.

Lemma select_none {A} (mask : list bool) (l : list A) :
  Forall (λ b, b = false) mask → select mask l = [].
Proof.
  intros Hall. revert l.
  induction Hall as [|b mask -> _ IH]; intros [|x l]; simpl; auto.
Qed.

(** X23.  A component file among [PIC1] .. [PIC10] that has no row labelled
    [iteration0], or no [covariate] column, makes the whole run raise
    before any figure is drawn, whatever the other components hold. *)
Theorem overview_needs_iteration0 (indir_file : nat → option tsv)
    (outdir : string) (i : nat) (t : tsv) (df : DataFrame) :
  (1 ≤ i ≤ 10)%nat →
  indir_file i = Some t →
  load_file t (Some 0%nat) = Some df →
  CStr "iteration0" ∉ index df ∨ "covariate" ∉ columns df →
  run (start log10 indir_file outdir) = ([], None).
Proof.
  intros Hi Ht Hdf Hbad.
  unfold run, start, mbind at 1, script_bind at 1, lift at 1.
  rewrite (load_components_fail indir_file _ i); [done| |].
  - apply elem_of_seq. lia.
  - intros st. unfold load_component. rewrite Ht, Hdf. simpl.
    assert (loc_cell (CStr "iteration0") "covariate" df = None) as ->; [|done].
    unfold loc_cell. destruct Hbad as [Hrow|Hcol].
    + destruct (get_column "covariate" df) as [col|]; [|done]. simpl.
      rewrite select_none; [done|].
      apply Forall_fmap, Forall_forall. intros l Hl. simpl.
      apply bool_decide_eq_false. by intros ->.
    + unfold get_column. apply position_None in Hcol. by rewrite Hcol.
Qed.

(** *** The long table and the figures *)

Lemma melt_columns (id_vars : list string) (df d : DataFrame) :
  melt id_vars df = Some d → columns d = id_vars ++ ["variable"; "value"].
Proof.
  unfold melt. destruct (loc_cols id_vars df); [|done]. simpl.
  destruct (mapM _ _); [|done]. by intros [= <-].
Qed.

Lemma load_component_columns (indir_file : nat → option tsv) (i : nat)
    (st st' : gmap string (list cell) * list DataFrame) :
  load_component indir_file i st = Some st' →
  Forall (λ d, columns d
               = ["index"; "covariate"; "component"; "variable"; "value"])
         st.2 →
  Forall (λ d, columns d
               = ["index"; "covariate"; "component"; "variable"; "value"])
         st'.2.
Proof.
  unfold load_component. destruct (indir_file i) as [t|]; [|by intros [= <-]].
  destruct (load_file t _) as [df|]; [|done]. simpl.
  destruct (loc_cell _ _ df); [|done]. simpl.
  destruct (set_column "index" _ df) as [df1|]; [|done]. simpl.
  destruct (set_scalar "component" _ df1) as [df2|]; [|done]. simpl.
  destruct (melt _ df2) as [d|] eqn:Hd; [|done]. simpl.
  intros [= <-] Hall. simpl. apply Forall_app. split; [done|].
  constructor; [|done]. by apply melt_columns in Hd.
Qed.

Lemma load_components_columns (indir_file : nat → option tsv) (ids : list nat)
    acc (st st' : gmap string (list cell) * list DataFrame) :
  acc = Some st →
  foldl (λ acc i, acc ≫= load_component indir_file i) acc ids = Some st' →
  Forall (λ d, columns d
               = ["index"; "covariate"; "component"; "variable"; "value"])
         st.2 →
  Forall (λ d, columns d
               = ["index"; "covariate"; "component"; "variable"; "value"])
         st'.2.
Proof.
  revert acc st. induction ids as [|i ids IH]; intros acc st -> Hrun Hall.
  - by injection Hrun as <-.
  - simpl in Hrun.
    destruct (load_component indir_file i st) as [st1|] eqn:H1.
    + eapply (IH _ st1 eq_refl Hrun). by eapply load_component_columns.
    + by rewrite load_components_None in Hrun.
Qed.

Lemma long_form_columns (indir_file : nat → option tsv) (df_m : DataFrame) :
  long_form log10 indir_file = Some df_m → columns df_m = long_columns.
Proof.
  unfold long_form.
  destruct (foldl _ _ _) as [loaded|] eqn:Hl; [|done]. simpl.
  eapply (load_components_columns _ _ _ (∅, [])) in Hl; [|done|by constructor].
  unfold merge_data, concat.
  destruct loaded.2 as [|d ds]; [done|].
  apply Forall_cons in Hl as [Hd _].
  destruct (forallb _ _); [|done]. simpl.
  destruct (get_column "value" _) as [vals|]; [|done]. simpl.
  destruct (mapM log10 vals) as [logs|]; [|done]. simpl.
  intros Hset.
  destruct (set_column_columns _ _ _ _ Hset) as [[Hin _]|[_ ->]]; simpl in *.
  - rewrite Hd in Hin. by repeat (apply elem_of_cons in Hin as [?|Hin]);
      try apply elem_of_nil in Hin.
  - by rewrite Hd.
Qed.

Lemma select_column_eq (p : nat) (body : list (cell * list cell))
    (col : list cell) (v : cell) :
  column_at p body = Some col →
  select ((λ c, bool_decide (c = v)) <$> col) body
  = filter (λ r : cell * list cell, r.2 !! p = Some v) body.
Proof.
  unfold column_at. intros H%mapM_Some.
  induction H as [|r c body col Hc _ IH]; [done|].
  rewrite fmap_cons, filter_cons. simpl. rewrite IH, Hc.
  case_bool_decide; case_decide; congruence.
Qed.

Lemma select_column_ne (p : nat) (body : list (cell * list cell))
    (col : list cell) (v : cell) :
  column_at p body = Some col →
  select ((λ c, bool_decide (c ≠ v)) <$> col) body
  = filter (λ r : cell * list cell, r.2 !! p ≠ Some v) body.
Proof.
  unfold column_at. intros H%mapM_Some.
  induction H as [|r c body col Hc _ IH]; [done|].
  rewrite fmap_cons, filter_cons. simpl. rewrite IH, Hc.
  case_bool_decide; case_decide; congruence.
Qed.

Lemma lineplot_completed df_m x y hue pal title xlabel ylabel filename info
    outdir (lg lg' : list figure) :
  lineplot df_m x y hue pal title xlabel ylabel filename info (Some outdir) lg
  = (lg', Some ()) →
  ∃ fig, lg' = lg ++ [fig] ∧ f_data fig = df_m
         ∧ layout fig = (x, y, hue, title, xlabel, ylabel,
                         path_join outdir (filename +:+ ".png")).
Proof.
  unfold lineplot, mbind, script_bind, lift, emit.
  destruct (get_column x df_m); [|done].
  destruct (get_column y df_m); [|done].
  destruct (get_column hue df_m); [|done].
  destruct (match pal with Some _ => _ | None => _ end); [|done].
  intros [= <-]. eexists. split; [done|]. done.
Qed.

Lemma plot_variable_completed df_m info outdir v (lg lg' : list figure) :
  columns df_m = long_columns →
  plot_variable df_m info outdir v lg = (lg', Some ()) →
  ∃ name new,
    v = CStr name ∧ lg' = lg ++ new
    ∧ layout <$> new = variable_layouts outdir name
    ∧ Forall (λ fig, f_data fig
                     = mkDF long_columns (variable_rows name df_m)) new.
Proof.
  intros Hcols Hrun. unfold plot_variable in Hrun.
  apply bind_completed in Hrun as (variables & l0 & H1 & Hrun).
  injection H1 as <- Hv.
  apply bind_completed in Hrun as (subset & l0 & H1 & Hrun).
  injection H1 as <- Hsub.
  apply bind_completed in Hrun as (subset' & l0 & H1 & Hrun).
  injection H1 as <- Hsub'.
  apply bind_completed in Hrun as (name & l0 & H1 & Hrun).
  injection H1 as <- Hname.
  destruct v as [s| | |]; simplify_eq/=.
  apply bind_completed in Hrun as ([] & l1 & H1 & Hrun).
  apply lineplot_completed in H1 as (fig1 & -> & Hd1 & Hl1).
  rewrite (get_column_at "variable" df_m 3) in Hv by (by rewrite Hcols).
  apply loc_rows_spec in Hsub as (_ & Hc1 & Hr1).
  rewrite (select_column_eq 3 _ _ _ Hv) in Hr1.
  assert (subset' = mkDF long_columns (variable_rows name df_m)) as ->.
  { unfold variable_rows. case_decide as Hov.
    - injection Hov as ->.
      destruct (get_column "index" subset) as [idx|] eqn:Hidx; [|done].
      simpl in Hsub'.
      rewrite (get_column_at "index" subset 0) in Hidx
        by (by rewrite Hc1, Hcols).
      apply loc_rows_spec in Hsub' as (_ & Hc2 & Hr2).
      rewrite (select_column_ne 0 _ _ _ Hidx), Hr1 in Hr2.
      destruct subset' as [c r]. simpl in Hc2, Hr2.
      rewrite Hc2, Hc1, Hcols, Hr2.
      f_equal. rewrite list_filter_filter. apply list_filter_iff.
      intros r'. split; [|by intros [? ?]; auto]. intros [? ?]. by split.
    - injection Hsub' as <-. destruct subset as [c r]. simpl in Hc1, Hr1.
      rewrite Hc1, Hcols, Hr1. f_equal. apply list_filter_iff.
      intros r'. split; [|by intros [? _]]. intros Hr. split; [done|].
      intros ->. done. }
  destruct (contains "Likelihood" name) eqn:Hlik.
  - apply lineplot_completed in Hrun as (fig2 & -> & Hd2 & Hl2).
    exists name, [fig1; fig2]. split_and!; [done|by rewrite <-app_assoc| |].
    + change (layout <$> [fig1; fig2]) with [layout fig1; layout fig2].
      unfold variable_layouts. by rewrite Hl1, Hl2, Hlik.
    + by repeat constructor.
  - injection Hrun as <-. exists name, [fig1]. split_and!; [done..| |].
    + change (layout <$> [fig1]) with [layout fig1].
      unfold variable_layouts. by rewrite Hl1, Hlik.
    + by repeat constructor.
Qed.

Lemma start_completed_figures indir_file outdir figs :
  run (start log10 indir_file outdir) = (figs, Some ()) →
  ∃ df_m variables news,
    long_form log10 indir_file = Some df_m
    ∧ get_column "variable" df_m = Some variables
    ∧ figs = mjoin news
    ∧ Forall2 (λ v new,
                 ∃ name, v = CStr name
                   ∧ layout <$> new = variable_layouts outdir name
                   ∧ Forall (λ fig, f_data fig
                                    = mkDF long_columns
                                           (variable_rows name df_m)) new)
              (unique variables) news.
Proof.
  unfold run, start, long_form. intros Hrun.
  apply bind_completed in Hrun as (loaded & l0 & H1 & Hrun).
  apply lift_completed in H1 as [-> Hl].
  apply bind_completed in Hrun as (df_m & l0 & H1 & Hrun).
  apply lift_completed in H1 as [-> Hm].
  apply bind_completed in Hrun as (variables & l0 & H1 & Hrun).
  apply lift_completed in H1 as [-> Hv].
  assert (columns df_m = long_columns) as Hcols.
  { apply (long_form_columns indir_file). unfold long_form. by rewrite Hl. }
  apply (for_each_run _
           (λ v new,
              ∃ name, v = CStr name
                ∧ layout <$> new = variable_layouts outdir name
                ∧ Forall (λ fig, f_data fig
                                 = mkDF long_columns
                                        (variable_rows name df_m)) new))
    in Hrun as (news & -> & Hnews).
  - exists df_m, variables, news. rewrite Hl. simpl. by rewrite Hm.
  - intros v l l' Hv'.
    apply (plot_variable_completed _ _ _ _ _ _ Hcols) in Hv'
      as (name & new & -> & -> & Hlay & Hdata).
    exists new. split; [done|]. by exists name.
Qed.

(** X24.  The figures of a completed run, in the order they are drawn: the
    variables are taken in order of first appearance in the long table, and
    each gives one figure of [value] against [index] per [component],
    x-labelled [iteration] and y-labelled with the variable, written to
    [<name>.png] with the name in lower case and underscores for spaces,
    followed, when the name contains [Likelihood], by the figure of the
    log10 values.  No other figure is drawn and none has a title. *)
Theorem overview_figures_in_order indir_file outdir figs :
  run (start log10 indir_file outdir) = (figs, Some ()) →
  ∃ df_m variables names,
    long_form log10 indir_file = Some df_m
    ∧ get_column "variable" df_m = Some variables
    ∧ unique variables = CStr <$> names
    ∧ layout <$> figs = mjoin (variable_layouts outdir <$> names).
Proof.
  intros (df_m & variables & news & Hlong & Hv & -> & Hnews)
    %start_completed_figures.
  exists df_m, variables.
  assert (∃ names, unique variables = CStr <$> names
                   ∧ layout <$> mjoin news
                     = mjoin (variable_layouts outdir <$> names))
    as (names & Hn & Hlay); [|by exists names].
  induction Hnews as [|v new vs news (name & -> & Hlay & _) _ (names & -> & IH)].
  - by exists [].
  - exists (name :: names). split; [done|].
    simpl. by rewrite fmap_app, Hlay, IH.
Qed.

(** X25.  What a figure of a completed run shows: the long table has the
    six columns [index], [covariate], [component], [variable], [value] and
    [log10 value], and the figure of a variable holds exactly the rows of
    that variable, in the order of the table, except that for [Overlap %]
    the rows of the first iteration are left out. *)
Theorem overview_figure_data indir_file outdir figs fig :
  run (start log10 indir_file outdir) = (figs, Some ()) →
  fig ∈ figs →
  ∃ df_m variables name,
    long_form log10 indir_file = Some df_m
    ∧ columns df_m = long_columns
    ∧ get_column "variable" df_m = Some variables
    ∧ CStr name ∈ variables
    ∧ layout fig ∈ variable_layouts outdir name
    ∧ f_data fig = mkDF long_columns (variable_rows name df_m).
Proof.
  intros (df_m & variables & news & Hlong & Hv & -> & Hnews)
    %start_completed_figures (new & Hfig & Hnew)%list_elem_of_join.
  apply list_elem_of_lookup in Hnew as [i Hnew].
  destruct (Forall2_lookup_r _ _ _ _ _ Hnews Hnew)
    as (v & Hvi & name & -> & Hlay & Hdata).
  exists df_m, variables, name. split_and!; [done| |done| | |].
  - by apply (long_form_columns indir_file).
  - apply elem_of_unique. by eapply list_elem_of_lookup_2.
  - rewrite <-Hlay. by apply list_elem_of_fmap_2.
  - rewrite Forall_forall in Hdata. by apply Hdata.
Qed.

End OverviewLineplotRuns.

(** * Concrete runs *)

Section Examples.
Import Frame Script.

Example filter_gte_run :
  content <$> filter_log_example
  = [[[CStr "genotype_id"; CStr "rnaseq_id"; CStr "dataset"];
      [CStr "g1"; CStr "s1"; CStr "LL"];
      [CStr "g1"; CStr "s3"; CStr "RS"]];
     [[CStr "sample"; CStr "dataset"];
      [CStr "s1"; CStr "LL"];
      [CStr "s3"; CStr "RS"]];
     [[CInt 0; CStr "g1"];
      [CInt 0; CStr "g1"]]].
Proof. vm_compute. reflexivity. Qed.


Lemma filter_gte_rows_unchanged_in_order_witness :
  ∃ (kept : list nat) (f1 f2 f3 : saved),
    filter_log_example = [f1; f2; f3]
    ∧ StronglySorted lt kept
    ∧ content f1
      = (CStr <$> columns gte_df_example)
        :: omap (λ i, values gte_df_example !! i) kept
    ∧ values (s_df f1) `sublist_of` values gte_df_example
    ∧ nrows (s_df f2) = nrows (s_df f1)
    ∧ nrows (s_df f3) = nrows (s_df f1)
    ∧ length (content f2) = S (nrows (s_df f1))
    ∧ length (content f3) = nrows (s_df f1).
Proof.
  apply (filter_gte_rows_unchanged_in_order gte_example exclude_example "out"
           filter_log_example gte_df_example);
    vm_compute; reflexivity.
Defined.

Example prepare_eqtl_run :
  content <$> eqtl_log_example
  = [[CStr <$> ["PValue"; "SNPName"; "ProbeName"; "FDR"; "RS"; "LL";
                "LLS_660Q"; "NTR_AFFY"; "LLS_OmniExpr"; "CODAM"; "PAN";
                "NTR_GONL"; "GONL"; "N datasets"; "N samples"; "index"];
      [CFloat 1; CStr "rs1"; CStr "ENSG1"; CFloat 5; CInt 1; CInt 1; CInt 1;
       CInt 1; CInt 1; CInt 1; CInt 1; CInt 1; CInt 1; CInt 9; CInt 3059;
       CInt 0];
      [CFloat 2; CStr "rs9"; CStr "ENSG2"; CFloat 6; CNull; CNull; CNull;
       CNull; CNull; CNull; CNull; CNull; CNull; CNull; CNull; CInt 1];
      [CFloat 3; CStr "rs2"; CStr "ENSG3"; CFloat 7; CInt 1; CInt 0; CInt 1;
       CInt 0; CInt 0; CInt 0; CInt 0; CInt 0; CInt 1; CInt 3; CInt 1239;
       CInt 2]]].
Proof. vm_compute. reflexivity. Qed.

(** int64 arithmetic wraps around: a table whose cells are not presence
    values can overflow the row sum. *)
Example sum_wraps_around :
  Int64.sum [2 ^ 62; 2 ^ 62] = - 2 ^ 63.
Proof. vm_compute. reflexivity. Qed.

Lemma snp_counts_are_sum_and_dot_product_witness :
  PrepareEqtl.dataset_order
  = ["RS"; "LL"; "LLS_660Q"; "NTR_AFFY"; "LLS_OmniExpr"; "CODAM"; "PAN";
     "NTR_GONL"; "GONL"]
  ∧ PrepareEqtl.dataset_sizes = [765; 733; 400; 341; 255; 184; 169; 138; 74]
  ∧ ∀ i row, values snps_df_example !! i = Some row →
      ∃ zs present,
        row = CInt <$> zs
        ∧ Forall2 (λ name z, cell_at name i snps_df_example = Some (CInt z))
            PrepareEqtl.dataset_order present
        ∧ cell_at "N datasets" i counted_example = Some (CInt (row_sum zs))
        ∧ cell_at "N samples" i counted_example
          = Some (CInt (dot_product present PrepareEqtl.dataset_sizes)).
Proof.
  apply (snp_counts_are_sum_and_dot_product snps_example snps_df_example
           counted_example).
  - vm_compute. reflexivity.
  - vm_compute. reflexivity.
  - intros row c Hrow Hc.
    assert (Forall (Forall (λ c, c = CInt 0 ∨ c = CInt 1))
              (values snps_df_example)) as Hall.
    { unfold values, snps_df_example. simpl.
      repeat (apply Forall_cons; split); try apply Forall_nil; auto. }
    rewrite Forall_forall in Hall. specialize (Hall row Hrow).
    rewrite Forall_forall in Hall. by apply Hall.
  - vm_compute. reflexivity.
Defined.



Example overview_lineplot_run :
  (λ fig, (OverviewLineplot.f_y fig, OverviewLineplot.f_ylabel fig,
           OverviewLineplot.f_outpath fig)) <$> figures_example
  = [("value", "Log Likelihood", "out/log_likelihood.png");
     ("log10 value", "log10 Log Likelihood", "out/log10_log_likelihood.png");
     ("value", "Overlap %", "out/overlap_%.png")].
Proof. vm_compute. reflexivity. Qed.


Example fit_with_array : fit_example (Some ocf_example) = Some fits_example.
Proof. vm_compute. reflexivity. Qed.

Example fit_solo :
  Visualiser.X_opt <$> fit_example None
  = Some [[1; 0; 7; 0]; [1; 1; 7; 7]; [1; 2; 7; 14]; [1; 1; 7; 7]]
  ∧ Visualiser.r_squared_opt <$> fit_example None = Some None.
Proof. split; vm_compute; reflexivity. Qed.

Lemma optimized_design_matrix_witness :
  (∀ j, j ≠ 2%nat → j ≠ 3%nat →
        Visualiser.column j (Visualiser.X_opt fits_example)
        = Visualiser.column j (Visualiser.X ieqtl_example))
  ∧ (∃ genotype covariate,
       Visualiser.column 1 (Visualiser.X_opt fits_example) = Some genotype
       ∧ Visualiser.column 2 (Visualiser.X_opt fits_example) = Some covariate
       ∧ Visualiser.broadcast (length (Visualiser.X ieqtl_example))
           (Visualiser.Array
              (select (Visualiser.mask ieqtl_example) ocf_example))
         = Some covariate
       ∧ Visualiser.column 3 (Visualiser.X_opt fits_example)
         = Some (zip_with Z.mul genotype covariate))
  ∧ (is_Some (Visualiser.r_squared_opt fits_example)
     ↔ is_Some (Some ocf_example))
  ∧ (∀ rs, Visualiser.r_squared_opt fits_example = Some rs →
       let p := 2 in rs = p * p).
Proof.
  apply (optimized_design_matrix Z.mul (λ a b, a + b) (λ _ _, 2) (λ _ y, y)
           ieqtl_example (Some ocf_example) fits_example).
  vm_compute. reflexivity.
Defined.

Lemma inter_plot_skips_other_groups_witness :
  Visualiser.inter_plot (λ z, z) (λ _, false) (λ _ _, 1) Visualiser.Ax1
    two_groups_example "covariate" "expression" "group" (Some 95) None
    "normalised cell fraction" "gene expression" (Some 4) "start" []
  = ([], Some ()).
Proof.
  apply (inter_plot_skips_other_groups (λ z, z) (λ _, false) (λ _ _, 1)
           Visualiser.Ax1 two_groups_example "covariate" "expression" "group"
           (Some 95) None "normalised cell fraction" "gene expression"
           (Some 4) "start" [0; 1; 1] []).
  - vm_compute. reflexivity.
  - intros Hall. specialize (Hall 2). destruct Hall as [_ Hin].
    assert (2 ∈ [0; 1; 1]) as Hbad by (apply Hin; set_solver).
    apply (bool_decide_pack _) in Hbad. vm_compute in Hbad. exact Hbad.
Defined.

(** With the three groups present the panel is drawn. *)
Example inter_plot_draws :
  (Visualiser.inter_plot (λ z, z) (λ _, false) (λ _ _, 1) Visualiser.Ax1
     [("covariate", [5; 6; 3]); ("expression", [10; 20; 40]);
      ("group", [0; 1; 2])]
     "covariate" "expression" "group" (Some 95) None
     "x" "y" None "start" []).1
  = [Visualiser.Despine Visualiser.Ax1;
     Visualiser.AnnotateGroup Visualiser.Ax1 0 None 1 "0.94" "#E69F00";
     Visualiser.AnnotateGroup Visualiser.Ax1 1 None 1 "0.90" "#0072B2";
     Visualiser.AnnotateGroup Visualiser.Ax1 2 None 1 "0.86" "#D55E00";
     Visualiser.SetTitle Visualiser.Ax1 "start";
     Visualiser.SetYLabel Visualiser.Ax1 "y";
     Visualiser.SetXLabel Visualiser.Ax1 "x"].
Proof. vm_compute. reflexivity. Qed.


(** ** Instances of the further properties *)

Lemma filter_gte_writes_only_with_columns_witness :
  ∃ gte_in gte_df se_df,
    Some gte_example = Some gte_in
    ∧ FilterGte.load_file gte_in None = Some gte_df
    ∧ FilterGte.load_file exclude_example None = Some se_df
    ∧ is_Some (get_column "dataset" se_df)
    ∧ is_Some (get_column "rnaseq_id" se_df)
    ∧ is_Some (get_column "rnaseq_id" gte_df).
Proof.
  apply (filter_gte_writes_only_with_columns (Some gte_example)
           exclude_example "out" filter_log_example (Some ())).
  - vm_compute. reflexivity.
  - vm_compute. discriminate.
Defined.

Lemma filter_gte_without_dataset_column_witness :
  ∃ f1,
    run (FilterGte.start (Some gte_no_dataset_example) exclude_example "out")
    = ([f1], None)
    ∧ s_df f1 = mkDF ["genotype_id"; "rnaseq_id"]
                  [(CInt 0, [CStr "g1"; CStr "s1"])]
    ∧ s_outpath f1 = path_join "out" "GenotypeToExpression.txt.gz".
Proof.
  apply (filter_gte_without_dataset_column gte_no_dataset_example
           exclude_example "out" gte_no_dataset_df_example
           exclude_df_example).
  - vm_compute. reflexivity.
  - vm_compute. reflexivity.
  - eexists. vm_compute. reflexivity.
  - vm_compute. reflexivity.
  - apply (bool_decide_unpack _). vm_compute. exact I.
Defined.

Lemma filter_gte_empty_exclusion_witness :
  FilterGte.remove_samples gte_df_example exclude_none_df_example
  = Some gte_df_example.
Proof.
  apply (filter_gte_empty_exclusion gte_df_example exclude_none_df_example).
  - vm_compute. reflexivity.
  - eexists. vm_compute. reflexivity.
Defined.

Lemma filter_gte_idempotent_witness :
  FilterGte.remove_samples filtered_example exclude_df_example
  = Some filtered_example.
Proof.
  apply (filter_gte_idempotent gte_df_example exclude_df_example
           filtered_example).
  vm_compute. reflexivity.
Defined.

Lemma filter_gte_derived_files_witness :
  ∃ f1 f2 f3,
    filter_log_example = [f1; f2; f3]
    ∧ ∃ samples datasets genotypes,
        get_column "rnaseq_id" (s_df f1) = Some samples
        ∧ get_column "dataset" (s_df f1) = Some datasets
        ∧ get_column "genotype_id" (s_df f1) = Some genotypes
        ∧ content f2
          = [CStr "sample"; CStr "dataset"]
            :: zip_with (λ s d, [s; d]) samples datasets
        ∧ content f3 = (λ g, [CInt 0; g]) <$> genotypes.
Proof.
  eexists _, _, _. split; [vm_compute; reflexivity|].
  apply (filter_gte_derived_files (Some gte_example) exclude_example "out").
  vm_compute. reflexivity.
Defined.

Lemma eqtl_missing_cohort_column_witness :
  PrepareEqtl.count_datasets snps_missing_df_example = None
  ∧ run (PrepareEqtl.start eqtl_example snps_missing_example "out")
    = ([], None).
Proof.
  apply (eqtl_missing_cohort_column eqtl_example snps_missing_example "out"
           snps_missing_df_example "GONL").
  - vm_compute. reflexivity.
  - apply (bool_decide_unpack _). vm_compute. exact I.
  - apply (bool_decide_unpack _). vm_compute. exact I.
Defined.

Lemma eqtl_missing_snp_column_witness :
  run (PrepareEqtl.start eqtl_no_snp_example snps_example "out") = ([], None).
Proof.
  apply (eqtl_missing_snp_column eqtl_no_snp_example snps_example "out"
           eqtl_no_snp_df_example).
  - vm_compute. reflexivity.
  - apply (bool_decide_unpack _). vm_compute. exact I.
  - apply (bool_decide_unpack _). vm_compute. exact I.
Defined.

Lemma rename_columns_idempotent_witness :
  PrepareEqtl.rename_columns renamed_example = Some renamed_example.
Proof.
  apply (rename_columns_idempotent eqtl_df_example renamed_example).
  vm_compute. reflexivity.
Defined.


Lemma snp_counts_modulo_int64_witness :
  ∃ zs present n s,
    [CInt 1; CInt 0; CInt 1; CInt 0; CInt 0; CInt 0; CInt 0; CInt 0; CInt 1]
    = CInt <$> zs
    ∧ Forall2 (λ name z, cell_at name 0 snps_df_example = Some (CInt z))
        PrepareEqtl.dataset_order present
    ∧ cell_at "N datasets" 0 counted_example = Some (CInt n)
    ∧ cell_at "N samples" 0 counted_example = Some (CInt s)
    ∧ - 2 ^ 63 ≤ n < 2 ^ 63 ∧ (n - row_sum zs) mod 2 ^ 64 = 0
    ∧ - 2 ^ 63 ≤ s < 2 ^ 63
    ∧ (s - dot_product present PrepareEqtl.dataset_sizes) mod 2 ^ 64 = 0.
Proof.
  apply (snp_counts_modulo_int64 snps_example snps_df_example
           counted_example 0).
  - vm_compute. reflexivity.
  - vm_compute. reflexivity.
  - vm_compute. reflexivity.
Defined.

Lemma snp_count_bounds_witness :
  ∃ n s present,
    cell_at "N datasets" 0 counted_example = Some (CInt n)
    ∧ cell_at "N samples" 0 counted_example = Some (CInt s)
    ∧ Forall2 (λ name z, cell_at name 0 snps_df_example = Some (CInt z))
        PrepareEqtl.dataset_order present
    ∧ 0 ≤ n ≤ Z.of_nat (length (columns snps_df_example))
    ∧ 74 * row_sum present ≤ s ≤ 765 * row_sum present
    ∧ 0 ≤ row_sum present ≤ 9
    ∧ s ≤ 3059
    ∧ (s = 0 ↔ row_sum present = 0).
Proof.
  apply (snp_count_bounds snps_example snps_df_example counted_example 0).
  - vm_compute. reflexivity.
  - vm_compute. reflexivity.
  - intros row c Hrow Hc.
    assert (Forall (Forall (λ c, c = CInt 0 ∨ c = CInt 1))
              (values snps_df_example)) as Hall.
    { unfold values, snps_df_example. simpl.
      repeat (apply Forall_cons; split); try apply Forall_nil; auto. }
    rewrite Forall_forall in Hall. specialize (Hall row Hrow).
    rewrite Forall_forall in Hall. by apply Hall.
  - vm_compute. reflexivity.
  - vm_compute. lia.
Defined.

Lemma eqtl_output_columns_witness :
  ∃ f,
    eqtl_log_example = [f]
    ∧ columns (s_df f)
      = (PrepareEqtl.translate <$> columns eqtl_df_example)
        ++ columns snps_df_example ++ ["N datasets"; "N samples"; "index"]
    ∧ head (content f) = Some (CStr <$> columns (s_df f)).
Proof.
  eexists. split; [vm_compute; reflexivity|].
  apply (eqtl_output_columns eqtl_example snps_example "out").
  - vm_compute. reflexivity.
  - vm_compute. reflexivity.
  - apply Forall_forall. apply (bool_decide_unpack _). vm_compute. exact I.
  - apply Forall_forall. apply (bool_decide_unpack _). vm_compute. exact I.
  - vm_compute. reflexivity.
Defined.


Lemma fit_defined_iff_witness :
  is_Some (fit_example (Some ocf_example))
  ↔ Forall (λ r, (4 ≤ length r)%nat) (Visualiser.X ieqtl_example)
    ∧ length (Visualiser.mask ieqtl_example) = length ocf_example
    ∧ (length (select (Visualiser.mask ieqtl_example) ocf_example)
       = length (Visualiser.X ieqtl_example)
       ∨ length (select (Visualiser.mask ieqtl_example) ocf_example)
         = 1%nat).
Proof.
  apply (fit_defined_iff Z.mul (λ a b, a + b) (λ _ _, 2) (λ _ y, y)
           ieqtl_example (Some ocf_example)).
  done.
Defined.

Lemma optimized_matrix_shape_witness :
  Forall2 (λ r r' : list Z, length r' = length r)
    (Visualiser.X ieqtl_example) (Visualiser.X_opt fits_example).
Proof.
  apply (optimized_matrix_shape Z.mul (λ a b, a + b) (λ _ _, 2) (λ _ y, y)
           ieqtl_example (Some ocf_example) fits_example).
  vm_compute. reflexivity.
Defined.


Lemma plot_needs_four_columns_witness :
  Visualiser.plot (λ z, z) Z.mul (λ z, z) (λ _, false) (λ a b, a + b)
    (λ _ _, 2) (λ _ y, y) (λ _ _, 1) short_y_example "out" "3" None None []
  = ([], None).
Proof.
  apply (plot_needs_four_columns (λ z, z) Z.mul (λ z, z) (λ _, false)
           (λ a b, a + b) (λ _ _, 2) (λ _ y, y) (λ _ _, 1) short_y_example
           "out" "3" None None []).
  right. simpl. lia.
Defined.

Lemma plot_saves_one_figure_witness :
  ∃ drawn,
    plot_log_example
    = [] ++ drawn
         ++ [Visualiser.Suptitle "snp_gene:3";
             Visualiser.Savefig "out/plot/snp_gene-3.png"]
    ∧ ∀ e, e ∈ drawn →
        (∀ t, e ≠ Visualiser.Suptitle t) ∧ (∀ p, e ≠ Visualiser.Savefig p).
Proof.
  apply (plot_saves_one_figure (λ z, z) Z.mul (λ z, z) (λ _, false)
           (λ a b, a + b) (λ _ _, 2) (λ _ y, y) (λ _ _, 1) ieqtl_example
           "out" "3" None (Some ocf_example) [] plot_log_example).
  vm_compute. reflexivity.
Defined.

Lemma fdr_only_on_first_panel_witness :
  ∃ new,
    figure_log_example.1 = [] ++ new
    ∧ (∀ ax f, Visualiser.AnnotateFdr ax f ∈ new →
         ax = Visualiser.Ax1 ∧ Some 5 = Some f)
    ∧ (∀ ax rs, Visualiser.AnnotateRSquared ax rs ∈ new →
         (ax = Visualiser.Ax1 ∧ rs = 4)
         ∨ (ax = Visualiser.Ax2 ∧ None = Some rs)).
Proof.
  apply (fdr_only_on_first_panel (λ z, z) (λ _, false) (λ _ _, 1)
           three_groups_example two_groups_example 4 None (Some 5) None
           "snp_gene:3" "out/plot" true [] figure_log_example.1
           figure_log_example.2).
  vm_compute. reflexivity.
Defined.

Lemma overview_without_input_witness :
  run (OverviewLineplot.start log10_example (λ _, None) "out") = ([], None).
Proof.
  apply (overview_without_input log10_example (λ _, None) "out"). done.
Defined.

Lemma overview_needs_iteration0_witness :
  run (OverviewLineplot.start log10_example indir_late_example "out")
  = ([], None).
Proof.
  apply (overview_needs_iteration0 log10_example indir_late_example "out" 2
           info_late_example info_late_df_example).
  - lia.
  - vm_compute. reflexivity.
  - vm_compute. reflexivity.
  - left. apply (bool_decide_unpack _). vm_compute. exact I.
Defined.

Lemma overview_figures_in_order_witness :
  ∃ df_m variables names,
    long_form log10_example indir_example = Some df_m
    ∧ get_column "variable" df_m = Some variables
    ∧ OverviewLineplot.unique variables = CStr <$> names
    ∧ layout <$> figures_example = mjoin (variable_layouts "out" <$> names).
Proof.
  apply (overview_figures_in_order log10_example indir_example "out"
           figures_example).
  vm_compute. reflexivity.
Defined.

Lemma overview_figure_data_witness :
  ∃ fig,
    last figures_example = Some fig
    ∧ ∃ df_m variables name,
        long_form log10_example indir_example = Some df_m
        ∧ columns df_m = long_columns
        ∧ get_column "variable" df_m = Some variables
        ∧ CStr name ∈ variables
        ∧ layout fig ∈ variable_layouts "out" name
        ∧ OverviewLineplot.f_data fig
          = mkDF long_columns (variable_rows name df_m).
Proof.
  eexists. split; [vm_compute; reflexivity|].
  apply (overview_figure_data log10_example indir_example "out"
           figures_example).
  - vm_compute. reflexivity.
  - apply list_elem_of_lookup. exists 2%nat. vm_compute. reflexivity.
Defined.

End Examples.
